(* ===== verification/_CoqProject ===== *)
-Q . S2P
Prelude.v
Text.v
Normal.v
Scraper.v
Convert.v
Crawler.v
Chunker.v
Ollama.v
VectorStore.v
World.v
Lifecycle.v
Rag.v
Ingest.v
Server.v
