(* ===== verification/Prelude.v ===== *)
(** * A verification development for node-rag-ollama

    node-rag-ollama is a multi-tenant retrieval-augmented-generation
    service in JavaScript.  [rag.js] (src/unnamed/part_000) splits a
    document into sentence-aligned chunks, embeds each chunk with Ollama,
    and upserts it into the tenant's namespace of one shared Pinecone
    index.  It answers a question by embedding it, querying the namespace
    for the closest chunks, and sending them with the question to Ollama's
    generation endpoint.  The Express server (src/unnamed/part_001)
    exposes these operations per tenant ([:userId]).  Three scripts fill
    the corpus: the crawler (src/crawler.js) and the news scraper
    (src/newsScraper.js) fetch articles, and the converter
    (src/convert_data.js) turns a crawl file into documents.

    ** Files, in dependency order

    - [Prelude] (this file) holds the shared vocabulary:
      - text as [list ascii], with the helpers [lit], [nl] and [nat_to_text];
      - the exceptions the program throws ([js_error]);
      - the async/exception monad [M St A := St -> (js_error + A) * St],
        with [ret], [throw], [bind], [catch], [get], [put] and the
        notations [let*] and [;;;];
      - [js_join] ([Array.prototype.join]);
      - [evolves R m], "[m] moves the state only along [R]", and its
        closure lemmas ([solve_evolves]);
      - the hint databases [rag] and [monad].
    - [Text] models [preprocessText] (rag.js 53-64): the four global
      regex replaces as structural scans, and [trim].  It also holds the
      string builtins the scripts use ([startsWith], [includes],
      truthiness).
    - [Normal] proves [preprocessText] idempotent and that it changes
      only whitespace.  It goes through
      [punct_spacing], one scan equal to the two punctuation passes on
      text whose whitespace is single plain spaces, and through the
      shapes each pass leaves ([single_spaced], [plain_spaces],
      [camel_free]).
    - [Scraper] models newsScraper.js. axios is a script of replies
      ([net]) and cheerio is a page-to-selector oracle.
      - [fetchWithRetry];
      - the content cleaning chain [clean_content], which crawler.js
        repeats verbatim;
      - [getArticleLinks] and [getArticleContent];
      - [scrapeDetikNews], whose result is the text it writes.
    - [Convert] models [extractArticles] of convert_data.js and the text
      file [crawlWebsite] writes ([crawl_file]).
    - [Crawler] models crawler.js: [fetchArticleContent] and
      [crawlWebsite]. The DOM elements and URL resolution are oracles;
      resolution may fail, as [new URL] throws on an invalid URL.
      The concurrent fetches complete in an order that is an explicit
      argument.
    - [Chunker] models [splitIntoChunks] (rag.js 67-89) and a reference
      grouping [group_from].
    - [Ollama] models [getEmbedding] (rag.js 25-50) and the generation
      half of [askQuestion] (the prompt template, [result.response]).
      Both run over an abstract [fetch].  JSON values are [json].
    - [VectorStore] models Pinecone, which is external.  The class
      [VectorStore] gives the namespace operations, and [VectorStoreLaws]
      gives their contract from spec section 4.5.  [PineconeModel] is a
      [gmap] implementation that satisfies the laws.
    - [World] is the state the async functions run against:
      - the store;
      - the index control plane ([index_status]);
      - Ollama and pdf-parse as functions;
      - the clock of [Date.now()];
      - the trace of awaited external calls.
      Each awaited call is one primitive ([fetch_ollama], [store_upsert],
      [store_query], [store_deleteAll], [describeIndex], [createIndex],
      [sleep], [now]).
    - [Lifecycle] models [waitForIndex] and [createUserIndex]
      (rag.js 103-116, 285-309).  The control plane is the step relation
      [cp_step].
    - [Rag] models the rest of rag.js: [addDocument] (its loop body
      [add_chunk]), [processPdfBuffer], [addPdfDocument], [addDocuments],
      [findSimilarDocuments], [askQuestion], [clearIndex] and
      [deleteUserIndex].  Each is one definition composed from the
      primitives as the source composes its awaits.
    - [Ingest] holds the ingestion proofs: record ids, metadata objects,
      and the chunk loop on success and on failure.
    - [Server] models [validateUserId], every route handler with its 400
      checks, the [try]/[catch] into 500 answers, and multer's size limit
      ([handle]).  It also models a sequence of requests ([serve]).

    ** What the theorems show (claims C1-C37)

    - Chunking (C1-C4):
      - the loop computes the greedy grouping (C1);
      - nothing is dropped or reordered (C2);
      - a chunk is at most [size + 2] characters (C3), and every text of
        two sentences whose lengths add up to [size - 1] reaches it (C4).
    - Tenant isolation (C5, C6): any sequence of HTTP requests for other
      tenants leaves a namespace unchanged, and retrieval never returns
      another tenant's record.
    - Retrieval and answers (C7, C8, C15): [findSimilarDocuments] returns
      at most [topK] documents, sorted, from the namespace; clearing makes
      retrieval empty; [askQuestion] answers with the retrieved documents
      and the [response] field of the generation service's answer to the
      prompt built from them.
    - Ingestion (C9-C14, C24):
      - each chunk is embedded and then upserted, in order, under
        [doc_<ms>_chunk_<i>];
      - a failure leaves the earlier chunks stored, and enough service
        answers make [addDocument] total;
      - two documents added within one millisecond share the id of their
        first chunk, and the second overwrites the first (C12);
      - the metadata fields are fixed;
      - the PDF path is [addDocument] of the raw extracted text (C24).
    - Index lifecycle (C16-C21): [waitForIndex] always returns or
      throws [IndexNotReady] after exactly [maxAttempts] polls and sleeps;
      the behaviour of [createUserIndex] on each state of the index.
    - Embedding client (C22, C23): exactly when [getEmbedding] succeeds
      (the array's elements are not inspected); the HTTP error.
    - Server (C25, C26): what every handler answers, route by route (the
      400 checks with nothing changed, 200 with the result, 500 with the
      exception's message); a documents array with a non-string element
      gets a 500, never the 400 its message announces.
    - Text normalization (C27, C28): normalizing twice is normalizing
      once; normalization changes only whitespace and leaves single plain
      spaces, no camel-case boundary and no whitespace at either end.
    - Scripts (C29-C37):
      - the retry bound of [fetchWithRetry] with its linear waits, its
        success and error paths;
      - what [extractArticles] makes of a crawl file (the header becomes a
        document);
      - the crawler fetches every candidate and writes exactly those with
        content, rethrowing the exception of an invalid link; it writes an
        article twice when two selectors match it;
      - the scraper's file lists distinct wanted links with substantial
        content;
      - the links [getArticleLinks] returns;
      - the cleaning chain leaves a space before a mark when it removes a
        character before it.

    ** Bounds and fuel

    No definition uses fuel.
    - Every loop of the source is a structural recursion on the list or
      the counter it iterates: the sentences, the chunks, the documents,
      the attempts of [waitForIndex] and [fetchWithRetry], the lines of a
      file.  So termination is by construction, and the theorems about
      results are stated as results, not under "if it returns".
    - Numbers the program only passes on (scores, JSON numbers, sizes) are
      [Z].  Counters and lengths are [nat].
    - The witnesses use a 2-dimensional index and a clock of 42, so that
      they evaluate by [vm_compute].

    ** Not modelled

    - Express routing, body parsing and logging.  A request reaches a
      handler as the [request] it matched.
    - The internals of the external services.  Pinecone is an interface
      with laws.  Ollama, pdf-parse and axios are oracles in the state.
    - cheerio's DOM, including the removal of unwanted elements.  It is a
      selector oracle, which answers after the removal.
    - The WHATWG URL resolution of [new URL(link, base)].  It is an
      oracle.
    - File-system calls ([fs.mkdir], [fs.writeFile], [fs.readFileSync])
      and the output file names.  The text a script writes is the result
      of its model.
    - All console output.
    - Characters above U+00FF.  Text is modelled as Latin-1 code units, so
      [length] is JavaScript's [.length] on such text. *)

From stdpp Require Export base list option strings gmap pretty.
From Stdlib Require Export Ascii Sorted.

Declare Scope rag_scope.
Delimit Scope rag_scope with rag.

(** ** Text

    A JavaScript string is a sequence of UTF-16 code units.  The model keeps
    the code units below 256 (Latin-1), one [ascii] each, so [length] is the
    JS [.length]. *)
Abbreviation text := (list ascii).

(** A string literal of the source, as text. *)
Definition lit (s : string) : text := String.list_ascii_of_string s.

(** ['\n'] *)
Definition nl : text := [ascii_of_nat 10].

(** [`${n}`] for a non-negative integer [n]: its decimal digits. *)
Definition nat_to_text (n : nat) : text := lit (pretty n).

(** ** Errors

    The exceptions that the program throws or lets propagate.  The
    constructors follow the throw sites of [rag.js] and the failures of the
    two external services it calls. *)
Inductive store_failure : Type :=
  | DimensionMismatch (expected got : nat)
  | NonNumericValue
  | IndexNotFound
  | IndexAlreadyExists
  | StoreUnavailable.

Inductive js_error : Type :=
  | FetchFailed                 (** [fetch] rejects: connection refused *)
  | HttpError (status : Z)      (** [throw new Error(`HTTP error! ...`)] *)
  | JsonSyntaxError             (** [response.json()] rejects *)
  | TypeError                   (** property read on [null]/[undefined] *)
  | InvalidEmbeddingFormat      (** [getEmbedding]'s format check *)
  | PdfProcessingFailed         (** [processPdfBuffer]'s rethrow *)
  | IndexNotReady (attempts : nat)  (** [waitForIndex] exhausted *)
  | StoreError (f : store_failure). (** thrown by the Pinecone client *)

(** ** The async/exception monad

    An [async] function that may throw, run against a state [St]: it returns
    a value or an exception, and the state it leaves.  Effects performed
    before a [throw] are kept, as they are in JavaScript. *)
Definition M (St A : Type) : Type := St → (js_error + A) * St.

Definition ret {St A} (a : A) : M St A := λ s, (inr a, s).
Definition throw {St A} (e : js_error) : M St A := λ s, (inl e, s).
Definition bind {St A B} (m : M St A) (k : A → M St B) : M St B :=
  λ s, match m s with
       | (inr a, s') => k a s'
       | (inl e, s') => (inl e, s')
       end.
(** [try { m } catch (e) { h(e) }] *)
Definition catch {St A} (m : M St A) (h : js_error → M St A) : M St A :=
  λ s, match m s with
       | (inl e, s') => h e s'
       | r => r
       end.
Definition get {St} : M St St := λ s, (inr s, s).
Definition put {St} (s : St) : M St unit := λ _, (inr tt, s).
Definition modify {St} (f : St → St) : M St unit := λ s, (inr tt, f s).

Notation "'let*' x ':=' c 'in' k" := (bind c (λ x, k))
  (at level 10, x binder, c at level 100, k at level 200) : rag_scope.
Notation "c1 ';;;' c2" := (bind c1 (λ _, c2))
  (at level 100, right associativity) : rag_scope.

Open Scope rag_scope.

(** The value of a successful run, or [d]. *)
Definition from_inr {A} (d : A) (r : js_error + A) : A :=
  match r with inr a => a | inl _ => d end.

(** [for (const x of xs) { results.push(await f(i, x)) }], counting [i]. *)
Fixpoint mapM_i {St A B} (f : nat → A → M St B) (i : nat) (xs : list A) : M St (list B) :=
  match xs with
  | [] => ret []
  | x :: xs' => let* b := f i x in
                let* bs := mapM_i f (S i) xs' in
                ret (b :: bs)
  end.

(** Two computations are equivalent when they agree on every start state. *)
#[export] Instance M_equiv {St A} : Equiv (M St A) := λ m1 m2, ∀ s, m1 s = m2 s.

(** ** Array.prototype.join *)
Fixpoint js_join (sep : text) (l : list text) : text :=
  match l with
  | [] => []
  | [x] => x
  | x :: l' => x ++ sep ++ js_join sep l'
  end.

(** ** Shared lemmas *)

Create HintDb rag discriminated.
Create Rewrite HintDb monad.

Section monad_laws.
Context {St : Type}.

#[export] Instance M_equiv_equivalence {A} : Equivalence (≡@{M St A}).
  Proof.
    split.
    - by intros m s.
    - intros m1 m2 H s. by rewrite H.
    - intros m1 m2 m3 H1 H2 s. by rewrite H1, H2.
  Qed.

#[export] Instance bind_proper {A B} :
    Proper ((≡) ==> pointwise_relation A (≡) ==> (≡@{M St B})) bind.
  Proof.
    intros m1 m2 Hm k1 k2 Hk s. unfold bind. rewrite Hm.
    destruct (m2 s) as [[e|a] s']; [done | apply Hk].
  Qed.

Lemma bind_ret_l {A B} (a : A) (k : A → M St B) : bind (ret a) k ≡ k a.
  Proof. done. Qed.

Lemma bind_ret_r {A} (m : M St A) : bind m ret ≡ m.
  Proof. intros s. unfold bind. by destruct (m s) as [[]]. Qed.

Lemma bind_assoc {A B C} (m : M St A) (f : A → M St B) (g : B → M St C) :
    bind (bind m f) g ≡ bind m (λ x, bind (f x) g).
  Proof. intros s. unfold bind. by destruct (m s) as [[]]. Qed.

Lemma bind_throw {A B} e (k : A → M St B) : bind (throw e) k ≡ throw e.
  Proof. done. Qed.

(** Running a [bind]: the equation a proof unfolds with. *)
Lemma run_bind {A B} (m : M St A) (k : A → M St B) s :
    bind m k s = match m s with
                 | (inr a, s') => k a s'
                 | (inl e, s') => (inl e, s')
                 end.
  Proof. done. Qed.

Lemma run_bind_ok {A B} (m : M St A) (k : A → M St B) s a s' :
    m s = (inr a, s') → bind m k s = k a s'.
  Proof. intros H. by rewrite run_bind, H. Qed.

Lemma run_bind_err {A B} (m : M St A) (k : A → M St B) s e s' :
    m s = (inl e, s') → bind m k s = (inl e, s').
  Proof. intros H. by rewrite run_bind, H. Qed.

(** [catch (e) { ...; throw e }] with a body that only logs is the
    identity: the modelled functions drop such handlers. *)
Lemma catch_rethrow {A} (m : M St A) : catch m throw ≡ m.
  Proof. intros s. unfold catch. by destruct (m s) as [[]]. Qed.
End monad_laws.

#[export] Hint Rewrite @bind_ret_l @bind_assoc @bind_throw : monad.
#[export] Hint Resolve run_bind_ok run_bind_err : rag.

(** ** How computations move the state

    [evolves R m]: whatever [m] returns, value or exception, the state it
    leaves is related by [R] to the state it started from.  For a preorder
    [R] the property is closed under every combinator, so it is proved for
    the primitives once and then by [solve_evolves].  Invariants are the
    special case [R s s' := P s → P s']. *)
Definition evolves {St A} (R : relation St) (m : M St A) : Prop :=
  ∀ s r s', m s = (r, s') → R s s'.

Section evolves.
Context {St : Type} (R : relation St) `{!PreOrder R}.

Lemma evolves_ret {A} (a : A) : evolves R (ret a).
  Proof. intros s r s' [= _ <-]. reflexivity. Qed.

Lemma evolves_throw {A} e : evolves R (throw (A:=A) e).
  Proof. intros s r s' [= _ <-]. reflexivity. Qed.

Lemma evolves_get : evolves R get.
  Proof. intros s r s' [= _ <-]. reflexivity. Qed.

Lemma evolves_bind {A B} (m : M St A) (k : A → M St B) :
    evolves R m → (∀ a, evolves R (k a)) → evolves R (bind m k).
  Proof.
    intros Hm Hk s r s'. rewrite run_bind.
    destruct (m s) as [[e|a] s1] eqn:E; [intros [= _ <-]; by eapply Hm|].
    intros Hk'. etrans; [by eapply Hm|by eapply Hk].
  Qed.

Lemma evolves_catch {A} (m : M St A) (h : js_error → M St A) :
    evolves R m → (∀ e, evolves R (h e)) → evolves R (catch m h).
  Proof.
    intros Hm Hh s r s'. unfold catch.
    destruct (m s) as [[e|a] s1] eqn:E; [|intros [= _ <-]; by eapply Hm].
    intros Hh'. etrans; [by eapply Hm|by eapply Hh].
  Qed.

Lemma evolves_mapM_i {A B} (f : nat → A → M St B) :
    (∀ i x, evolves R (f i x)) → ∀ xs i, evolves R (mapM_i f i xs).
  Proof.
    intros Hf xs. induction xs as [|x xs IH]; intros i; cbn;
      eauto using evolves_ret, evolves_bind.
  Qed.
End evolves.

(** A projection of the state is unchanged. *)
Definition same_on {St B} (f : St → B) : relation St := λ s s', f s' = f s.

#[export] Instance same_on_preorder {St B} (f : St → B) : PreOrder (same_on f).
Proof. split; [done|]. intros s1 s2 s3 H1 H2. unfold same_on in *. congruence. Qed.

(** A continuation that leaves the state alone: the state at the end is
    the state after the first computation. *)
Lemma bind_state {St A B} (m : M St A) (k : A → M St B) s r s' :
  (∀ a, evolves (same_on id) (k a)) → bind m k s = (r, s') → ∃ r1, m s = (r1, s').
Proof.
  intros Hk. rewrite run_bind. destruct (m s) as [[e|a] s1]; [intros [= _ <-]; eauto|].
  intros H. pose proof (Hk a s1 r s' H) as Hs. unfold same_on in Hs. cbn in Hs. subst. eauto.
Qed.

(** The invariant form. *)
Definition preserves {St A} (P : St → Prop) (m : M St A) : Prop :=
  evolves (λ s s', P s → P s') m.

#[export] Instance impl_preorder {St} (P : St → Prop) : PreOrder (λ s s', P s → P s').
Proof. split; repeat intro; auto. Qed.

#[export] Hint Resolve evolves_ret evolves_throw evolves_get : rag.

Ltac solve_evolves :=
  unfold preserves in *;
  repeat match goal with
  | |- evolves ?R (bind _ _) => apply (evolves_bind R); [|intros ?]
  | |- evolves ?R (catch _ _) => apply (evolves_catch R); [|intros ?]
  | |- evolves ?R (mapM_i _ _ _) => apply (evolves_mapM_i R); intros ??
  | |- evolves _ (match ?x with _ => _ end) => destruct x
  | |- evolves _ (if ?b then _ else _) => destruct b
  end; eauto with rag typeclass_instances.

(** Close a decidable proposition about concrete data by evaluating its
    decision procedure. *)
Ltac decide_by_eval := apply (bool_decide_unpack _); vm_compute; exact I.

(** Unfold one layer of the monad in the goal. *)
Ltac mstep :=
  repeat (rewrite ?run_bind; cbn [ret throw get put modify fst snd]).

Section lists.
Context {A : Type}.

Lemma length_join (sep : text) (l : list text) :
    l ≠ [] →
    length (js_join sep l) = sum_list_with length l + length sep * (length l - 1).
  Proof.
    induction l as [|x [|y l] IH]; intros Hne; [done| |]; simpl in *; [lia|].
    rewrite !length_app, IH by done. lia.
  Qed.

Lemma join_cons (sep x : text) (l : list text) :
    l ≠ [] → js_join sep (x :: l) = x ++ sep ++ js_join sep l.
  Proof. by destruct l. Qed.

Lemma join_app_single (sep : text) (l : list text) (x : text) :
    l ≠ [] → js_join sep (l ++ [x]) = js_join sep l ++ sep ++ x.
  Proof.
    induction l as [|y l IH]; intros Hne; [done|].
    destruct (decide (l = [])) as [->|Hl]; [done|].
    rewrite <-app_comm_cons, !join_cons, IH by (done || by destruct l).
    by rewrite !app_assoc.
  Qed.

Lemma StronglySorted_map {B} (R : relation B) (f : A → B) (l : list A) :
    StronglySorted (λ a b, R (f a) (f b)) l → StronglySorted R (map f l).
  Proof.
    induction l as [|x l IH]; intros Hs; cbn; [constructor|].
    apply StronglySorted_inv in Hs as [Hs Hx]. constructor; [auto|].
    apply Forall_map. done.
  Qed.
End lists.
