(* ===== verification/Text.v ===== *)
(** * TextNormalizer: [preprocessText] of rag.js

    The four [String.prototype.replace] passes with a global regular
    expression, then [trim].  Each pass is one structural fixpoint that
    follows how a global replace scans: left to right, a match consumes
    its characters, the scan resumes after them. *)

From S2P Require Import Prelude.
Open Scope rag_scope.

Module Text.

(** ** Character classes of the regular expressions *)

(** [\s] (and what [trim] removes) on code units below 256: tab, line
    feed, vertical tab, form feed, carriage return, space, no-break space. *)
Definition is_space (c : ascii) : bool :=
  let n := nat_of_ascii c in ((9 <=? n) && (n <=? 13)) || (n =? 32) || (n =? 160).

(** [[a-z]] and [[A-Z]]: ASCII letters only. *)
Definition is_lower (c : ascii) : bool :=
  let n := nat_of_ascii c in (97 <=? n) && (n <=? 122).
Definition is_upper (c : ascii) : bool :=
  let n := nat_of_ascii c in (65 <=? n) && (n <=? 90).

(** [\d], [[0-9]] *)
Definition is_digit (c : ascii) : bool :=
  let n := nat_of_ascii c in (48 <=? n) && (n <=? 57).

(** [[.,!?]] *)
Definition is_punct (c : ascii) : bool :=
  (c =? ".")%char || (c =? ",")%char || (c =? "!")%char || (c =? "?")%char.

(** ** The passes *)

(** [.replace(/([a-z])([A-Z])/g, '$1 $2')] *)
Fixpoint split_camel (s : text) : text :=
  match s with
  | a :: t =>
      match t with
      | b :: t' => if is_lower a && is_upper b then a :: " " :: b :: split_camel t'
                   else a :: split_camel t
      | [] => [a]
      end
  | [] => []
  end%char.

(** [.replace(/\s+/g, ' ')]: [in_run] is set inside a whitespace run that
    was already replaced by its single space. *)
Fixpoint collapse_ws_from (in_run : bool) (s : text) : text :=
  match s with
  | [] => []
  | c :: t =>
      if is_space c then
        if in_run then collapse_ws_from true t else " "%char :: collapse_ws_from true t
      else c :: collapse_ws_from false t
  end.
Definition collapse_ws (s : text) : text := collapse_ws_from false s.

(** [.replace(/\s+([.,!?])/g, '$1')]: a maximal whitespace run followed by
    a punctuation mark is dropped; [pend] holds the run read so far, which
    is written back when the run ends in anything else. *)
Fixpoint strip_space_before_punct_from (pend : text) (s : text) : text :=
  match s with
  | [] => pend
  | c :: t =>
      if is_space c then strip_space_before_punct_from (pend ++ [c]) t
      else if is_punct c then c :: strip_space_before_punct_from [] t
      else pend ++ c :: strip_space_before_punct_from [] t
  end.
Definition strip_space_before_punct (s : text) : text :=
  strip_space_before_punct_from [] s.

(** [.replace(/([.,!?])([^\s])/g, '$1 $2')]: the match consumes both
    characters, so the second is never the start of the next match. *)
Fixpoint space_after_punct (s : text) : text :=
  match s with
  | p :: t =>
      match t with
      | c :: t' => if is_punct p && negb (is_space c) then p :: " " :: c :: space_after_punct t'
                   else p :: space_after_punct t
      | [] => [p]
      end
  | [] => []
  end%char.

(** [String.prototype.trim] *)
Fixpoint trim_start (s : text) : text :=
  match s with
  | c :: t => if is_space c then trim_start t else s
  | [] => []
  end.
Definition trim (s : text) : text := rev (trim_start (rev (trim_start s))).

(** ** String builtins shared by the scraping scripts *)

(** [s.startsWith(p)] *)
Fixpoint starts_with (p s : text) : bool :=
  match p, s with
  | [], _ => true
  | a :: p', b :: s' => (a =? b)%char && starts_with p' s'
  | _ :: _, [] => false
  end.

(** [s.includes(p)] *)
Fixpoint includes (s p : text) : bool :=
  starts_with p s || match s with [] => false | _ :: s' => includes s' p end.

(** [!!s]: only the empty string is falsy. *)
Definition str_truthy (s : text) : bool := negb (bool_decide (s = [])).

(** [preprocessText(text)] *)
Definition preprocessText (s : text) : text :=
  trim (space_after_punct (strip_space_before_punct (collapse_ws (split_camel s)))).

(** ** Properties *)

Lemma trim_start_head (s : text) (c : ascii) : head (trim_start s) = Some c → is_space c = false.
Proof.
  induction s as [|d s IH]; cbn; [done|].
  destruct (is_space d) eqn:Hd; [done|]. cbn. by intros [= <-].
Qed.

Lemma trim_start_suffix (s : text) : ∃ p, s = p ++ trim_start s.
Proof.
  induction s as [|d s IH]; cbn; [by exists []|].
  destruct (is_space d); [|by exists []]. destruct IH as [p Hp]. exists (d :: p). cbn. by f_equal.
Qed.

Lemma head_rev_last {A} (l : list A) : head (rev l) = last l.
Proof.
  induction l as [|x l IH] using rev_ind; [done|]. by rewrite rev_app_distr, last_snoc.
Qed.

Lemma last_app_ne {A} (p l : list A) : l ≠ [] → last (p ++ l) = last l.
Proof.
  intros Hl. rewrite last_app. destruct (last l) eqn:E; [done|]. by apply last_None in E.
Qed.

Lemma trim_start_elem (s : text) c : c ∈ trim_start s → c ∈ s.
Proof. destruct (trim_start_suffix s) as [p Hp]. intros Hc. rewrite Hp. set_solver. Qed.

Lemma trim_elem (s : text) c : c ∈ trim s → c ∈ s.
Proof.
  unfold trim. intros H. apply list_elem_of_In in H. rewrite <-in_rev in H.
  apply list_elem_of_In, trim_start_elem, list_elem_of_In in H. rewrite <-in_rev in H.
  by apply list_elem_of_In, trim_start_elem in H.
Qed.

Lemma digit_not_space c : is_digit c = true → is_space c = false.
Proof.
  unfold is_digit, is_space. generalize (nat_of_ascii c) as n. intros n H.
  apply andb_prop in H as [H1 H2]. apply Nat.leb_le in H1, H2.
  destruct (Nat.leb_spec0 9 n), (Nat.leb_spec0 n 13), (Nat.eqb_spec n 32), (Nat.eqb_spec n 160);
    cbn; done || lia.
Qed.

(** The decimal digits of [`${n}`]: at least one, all digits. *)
Definition all_digits (s : string) : Prop := Forall (λ c, is_digit c = true) (lit s).

Lemma pretty_N_go_digits (x : N) (s : string) :
  all_digits s → all_digits (pretty_N_go x s) ∧ (s ≠ ""%string → pretty_N_go x s ≠ ""%string).
Proof.
  revert s. induction (N.lt_wf_0 x) as [x _ IH]; intros s Hs.
  destruct (decide (x = 0)%N) as [->|Hx]; [by rewrite pretty_N_go_0|].
  rewrite pretty_N_go_step by lia.
  destruct (IH (x `div` 10)%N ltac:(apply N.div_lt; lia) (String (pretty_N_char (x `mod` 10)) s))
    as [Hd Hne].
  { unfold all_digits in *. cbn. constructor; [|done]. unfold pretty_N_char. repeat case_match; reflexivity. }
  split; [done|]. intros _. by apply Hne.
Qed.

Lemma nat_to_text_digits (n : nat) : Forall (λ c, is_digit c = true) (nat_to_text n) ∧ nat_to_text n ≠ [].
Proof.
  unfold nat_to_text. change (pretty n) with (pretty_N (N.of_nat n)). unfold pretty_N.
  destruct (decide _) as [_|Hx]; [split; [repeat constructor|done]|].
  rewrite pretty_N_go_step by lia.
  destruct (pretty_N_go_digits (N.of_nat n `div` 10) (String (pretty_N_char (N.of_nat n `mod` 10)) ""))
    as [Hd Hne].
  { unfold all_digits. cbn. constructor; [|done]. unfold pretty_N_char. repeat case_match; reflexivity. }
  split; [done|]. specialize (Hne ltac:(done)). intros H. apply Hne.
  by destruct (pretty_N_go _ _).
Qed.

Lemma str_truthy_nil : str_truthy [] = false.
Proof. done. Qed.

Lemma str_truthy_ne (s : text) : s ≠ [] → str_truthy s = true.
Proof. intros H. unfold str_truthy. by rewrite bool_decide_eq_false_2. Qed.

Lemma trim_head (s : text) c : head (trim s) = Some c → is_space c = false.
Proof.
  unfold trim. intros Hh. rewrite head_rev_last in Hh.
  destruct (trim_start_suffix (rev (trim_start s))) as [p Hp].
  destruct (trim_start (rev (trim_start s))) as [|d y] eqn:Ey; [done|].
  rewrite <-(last_app_ne p) in Hh by done. rewrite <-Hp, <-head_rev_last, rev_involutive in Hh.
  by apply trim_start_head in Hh.
Qed.

Lemma trim_last (s : text) c : last (trim s) = Some c → is_space c = false.
Proof. unfold trim. rewrite <-head_rev_last, rev_involutive. apply trim_start_head. Qed.

Lemma trim_start_id (s : text) : (∀ c, head s = Some c → is_space c = false) → trim_start s = s.
Proof. destruct s as [|c s]; [done|]. intros H. cbn. by rewrite (H c eq_refl). Qed.

(** A text that starts and ends with a non-space is its own [trim]. *)
Lemma trim_id (s : text) :
  (∀ c, head s = Some c → is_space c = false) → (∀ c, last s = Some c → is_space c = false) →
  trim s = s.
Proof.
  intros Hh Hl. unfold trim. rewrite (trim_start_id s Hh).
  rewrite trim_start_id; [apply rev_involutive|]. intros c. rewrite head_rev_last. apply Hl.
Qed.

(** The spec's example of section 8: runs of spaces collapse, the
    space before a punctuation mark goes, a space follows each mark. *)
Example preprocessText_example :
  preprocessText (lit " a  b,c .d") = lit "a b, c. d"
  ∧ preprocessText (lit "helloWorld.Yes") = lit "hello World. Yes".
Proof. split; vm_compute; reflexivity. Qed.

End Text.
