(* ===== verification/Normal.v ===== *)
(** * [preprocessText] is idempotent

    The spec (section 8) asks that normalizing twice is normalizing once.
    The two punctuation passes of [preprocessText] do not commute with
    themselves one by one: the space [space_after_punct] puts between two
    marks (["a.,b"] becomes ["a. ,b"]) is a space before a mark, which the
    next [strip_space_before_punct] removes and the next
    [space_after_punct] puts back.  The proof therefore goes through
    [punct_spacing], one left-to-right function that equals the two
    passes on text without two adjacent spaces, and whose fixed points
    are kept by [trim].  The file also shows that normalization changes
    only whitespace ([nonspace]). *)

From S2P Require Import Prelude Text.
Open Scope rag_scope.

Module Normal.
Import Text.

(** ** Shapes of text *)

(** No two adjacent characters [a], [b] with [R a b]. *)
Fixpoint adj_free (R : ascii → ascii → bool) (s : text) : bool :=
  match s with
  | a :: ((b :: _) as t) => negb (R a b) && adj_free R t
  | _ => true
  end.

(** No two adjacent whitespace characters. *)
Definition single_spaced : text → bool := adj_free (λ a b, is_space a && is_space b).

(** Every whitespace character is a plain space.  With [single_spaced],
    the shape [.replace(/\s+/g, ' ')] leaves. *)
Definition plain_spaces (s : text) : Prop := Forall (λ c, is_space c = true → c = " "%char) s.

(** No lower-case ASCII letter right before an upper-case one: the shape
    [.replace(/([a-z])([A-Z])/g, '$1 $2')] leaves. *)
Definition camel_free : text → bool := adj_free (λ a b, is_lower a && is_upper b).

(** The characters of a text other than whitespace, in order. *)
Definition nonspace (s : text) : text := List.filter (λ c, negb (is_space c)) s.

(** ** The two punctuation passes as one function

    On single-spaced text, a space before a mark goes; a mark followed by
    a non-space gets a space, the character after it being consumed by
    the match; a mark followed by a space keeps it, and the character
    after that space is consumed too (the space before it, if it is a
    mark, having been dropped). *)
Fixpoint punct_spacing (s : text) : text :=
  match s with
  | [] => []
  | a :: t =>
      if is_space a then
        match t with
        | p :: _ => if is_punct p then punct_spacing t else a :: punct_spacing t
        | [] => [a]
        end
      else if is_punct a then
        match t with
        | [] => [a]
        | c :: t' =>
            if is_space c then
              a :: c :: match t' with [] => [] | x :: t'' => x :: punct_spacing t'' end
            else a :: " "%char :: c :: punct_spacing t'
        end
      else a :: punct_spacing t
  end.

(** ** Character classes and the passes, one step at a time *)

Lemma text_len_ind (P : text → Prop) :
  (∀ s, (∀ t, length t < length s → P t) → P s) → ∀ s, P s.
Proof.
  intros H. assert (Hn : ∀ n s, length s < n → P s).
  { intros n. induction n as [|n IHn]; intros s Hs; [lia|]. apply H. intros t Ht. apply IHn. lia. }
  intros s. apply (Hn (S (length s))). lia.
Qed.

Lemma punct_not_space c : is_punct c = true → is_space c = false.
Proof.
  unfold is_punct.
  destruct (Ascii.eqb_spec c "."), (Ascii.eqb_spec c ","), (Ascii.eqb_spec c "!"),
    (Ascii.eqb_spec c "?"); by subst.
Qed.

Lemma space_not_punct c : is_space c = true → is_punct c = false.
Proof. intros Hs. destruct (is_punct c) eqn:Hp; [|done]. by rewrite punct_not_space in Hs. Qed.

Lemma adj_free_tail R a t : adj_free R (a :: t) → adj_free R t.
Proof. destruct t; cbn; [done|]. by intros [_ ?]%andb_True. Qed.

Lemma adj_free_cons R a b t :
  adj_free R (a :: b :: t) = negb (R a b) && adj_free R (b :: t).
Proof. done. Qed.

Lemma sap_nonpunct a r : is_punct a = false → space_after_punct (a :: r) = a :: space_after_punct r.
Proof. intros Ha. destruct r; cbn; [done|]. by rewrite Ha. Qed.

Lemma sap_punct a c r : is_punct a = true → is_space c = false →
  space_after_punct (a :: c :: r) = a :: " "%char :: c :: space_after_punct r.
Proof. intros Ha Hc. cbn. by rewrite Ha, Hc. Qed.

Lemma sap_space a c r : is_space c = true →
  space_after_punct (a :: c :: r) = a :: c :: space_after_punct r.
Proof.
  intros Hc. pose proof (space_not_punct c Hc).
  destruct r; cbn; rewrite ?Hc, ?H; cbn; by rewrite ?andb_false_r.
Qed.

Lemma strip_nonspace d t : is_space d = false →
  strip_space_before_punct (d :: t) = d :: strip_space_before_punct t.
Proof. intros Hd. unfold strip_space_before_punct. cbn. rewrite Hd. by destruct (is_punct d). Qed.

Lemma strip_space_punct c d t : is_space c = true → is_punct d = true →
  strip_space_before_punct (c :: d :: t) = d :: strip_space_before_punct t.
Proof. intros Hc Hd. unfold strip_space_before_punct. cbn. by rewrite Hc, Hd, punct_not_space. Qed.

Lemma strip_space_other c d t : is_space c = true → is_space d = false → is_punct d = false →
  strip_space_before_punct (c :: d :: t) = c :: d :: strip_space_before_punct t.
Proof. intros Hc Hd Hp. unfold strip_space_before_punct. cbn. by rewrite Hc, Hd, Hp. Qed.

Lemma ps_nil_1 a : punct_spacing [a] = [a].
Proof. cbn. by destruct (is_space a), (is_punct a). Qed.

Lemma ps_space_punct a p t : is_space a = true → is_punct p = true →
  punct_spacing (a :: p :: t) = punct_spacing (p :: t).
Proof. intros Ha Hp. cbn [punct_spacing]. by rewrite Ha, Hp. Qed.

Lemma ps_space_other a p t : is_space a = true → is_punct p = false →
  punct_spacing (a :: p :: t) = a :: punct_spacing (p :: t).
Proof. intros Ha Hp. cbn [punct_spacing]. by rewrite Ha, Hp. Qed.

Lemma ps_punct_space_1 a c : is_space a = false → is_punct a = true → is_space c = true →
  punct_spacing [a; c] = [a; c].
Proof. intros Ha Hp Hc. cbn. by rewrite Ha, Hp, Hc. Qed.

Lemma ps_punct_space a c x t : is_space a = false → is_punct a = true → is_space c = true →
  punct_spacing (a :: c :: x :: t) = a :: c :: x :: punct_spacing t.
Proof. intros Ha Hp Hc. cbn [punct_spacing]. by rewrite Ha, Hp, Hc. Qed.

Lemma ps_punct_other a c t : is_space a = false → is_punct a = true → is_space c = false →
  punct_spacing (a :: c :: t) = a :: " "%char :: c :: punct_spacing t.
Proof. intros Ha Hp Hc. cbn [punct_spacing]. by rewrite Ha, Hp, Hc. Qed.

Lemma ps_other a t : is_space a = false → is_punct a = false →
  punct_spacing (a :: t) = a :: punct_spacing t.
Proof. intros Ha Hp. cbn [punct_spacing]. by rewrite Ha, Hp. Qed.

Lemma adj_free_app_r R p t : adj_free R (p ++ t) → adj_free R t.
Proof. induction p as [|a p IH]; cbn [app]; [done|]. intros H. apply IH. by eapply adj_free_tail. Qed.

Lemma Forall_suffix {A} (P : A → Prop) p l : Forall P (p ++ l) → Forall P l.
Proof. by intros [_ ?]%Forall_app. Qed.

Lemma single_spaced_next a b t :
  single_spaced (a :: b :: t) → is_space a = true → is_space b = false.
Proof. unfold single_spaced. rewrite adj_free_cons. intros [H _]%andb_True Ha. rewrite Ha in H. by destruct (is_space b). Qed.

(** The recursion scheme of [punct_spacing], one case per branch. *)
Lemma punct_spacing_ind (P : text → Prop) :
  P [] →
  (∀ a, P [a]) →
  (∀ a p t, is_space a = true → is_punct p = true → P (p :: t) → P (a :: p :: t)) →
  (∀ a p t, is_space a = true → is_punct p = false → P (p :: t) → P (a :: p :: t)) →
  (∀ a c, is_space a = false → is_punct a = true → is_space c = true → P [a; c]) →
  (∀ a c x t, is_space a = false → is_punct a = true → is_space c = true → P t →
     P (a :: c :: x :: t)) →
  (∀ a c t, is_space a = false → is_punct a = true → is_space c = false → P t →
     P (a :: c :: t)) →
  (∀ a t, is_space a = false → is_punct a = false → P t → P (a :: t)) →
  ∀ z, P z.
Proof.
  intros H0 H1 Hsp Hso Hpc1 Hpc Hpo Ho z. induction z as [z IH] using text_len_ind.
  destruct z as [|a t]; [done|].
  destruct (is_space a) eqn:Ha; [|destruct (is_punct a) eqn:Hpa].
  - destruct t as [|p t]; [done|].
    destruct (is_punct p) eqn:Hp; [apply Hsp|apply Hso]; try done; apply IH; cbn; lia.
  - destruct t as [|c t]; [done|].
    destruct (is_space c) eqn:Hc; [|apply Hpo; try done; apply IH; cbn; lia].
    destruct t as [|x t]; [by apply Hpc1|]. apply Hpc; try done. apply IH. cbn. lia.
  - apply Ho; try done. apply IH. cbn. lia.
Qed.

(** An induction hypothesis applied to the suffix after [pre]. *)
Ltac on_suffix IH pre :=
  apply IH; [cbn; lia | by apply (adj_free_app_r _ pre) | by apply (Forall_suffix _ pre)].

(** On text where whitespace is single plain spaces, the two passes are
    [punct_spacing]. *)
Lemma passes_punct_spacing (z : text) :
  single_spaced z → plain_spaces z →
  space_after_punct (strip_space_before_punct z) = punct_spacing z.
Proof.
  induction z as [z IH] using text_len_ind. intros Hss Hsp.
  destruct z as [|a t]; [done|].
  destruct (is_space a) eqn:Ha; [|destruct (is_punct a) eqn:Hpa].
  - destruct t as [|p t0]; [by rewrite ps_nil_1; cbn; rewrite Ha|].
    pose proof (single_spaced_next _ _ _ Hss Ha) as Hp.
    destruct (is_punct p) eqn:Hpp.
    + rewrite strip_space_punct, ps_space_punct, <-strip_nonspace by done. on_suffix IH [a].
    + rewrite strip_space_other, ps_space_other, sap_nonpunct, <-strip_nonspace
        by auto using space_not_punct.
      f_equal. on_suffix IH [a].
  - rewrite strip_nonspace by done.
    destruct t as [|c t']; [by rewrite ps_nil_1|].
    destruct (is_space c) eqn:Hc.
    + destruct t' as [|x t''].
      * rewrite ps_punct_space_1 by done. unfold strip_space_before_punct. cbn. rewrite Hc. cbn.
        by rewrite Hc, andb_false_r.
      * pose proof (single_spaced_next _ _ _ (adj_free_tail _ _ _ Hss) Hc) as Hx.
        rewrite ps_punct_space by done.
        destruct (is_punct x) eqn:Hpx.
        -- rewrite strip_space_punct, sap_punct by done.
           rewrite (Forall_inv (Forall_inv_tail Hsp) Hc).
           do 3 f_equal. on_suffix IH [a; c; x].
        -- rewrite strip_space_other, sap_space, sap_nonpunct by done.
           do 3 f_equal. on_suffix IH [a; c; x].
    + rewrite strip_nonspace, sap_punct, ps_punct_other by done. do 3 f_equal. on_suffix IH [a; c].
  - rewrite strip_nonspace, sap_nonpunct, ps_other by done. f_equal. on_suffix IH [a].
Qed.

Lemma adj_free_cons2 R a b t : adj_free R (a :: b :: t) ↔ R a b = false ∧ adj_free R (b :: t).
Proof. rewrite adj_free_cons, andb_True. destruct (R a b); naive_solver. Qed.

Lemma adj_free_app_l R u q : adj_free R (u ++ q) → adj_free R u.
Proof.
  induction u as [|a u IH]; [done|]. destruct u as [|b u]; [done|].
  cbn [app] in *. rewrite !adj_free_cons2. naive_solver.
Qed.

(** ** [punct_spacing] is idempotent and keeps the shapes *)

Ltac ps_simpl := repeat progress rewrite ?ps_nil_1, ?ps_space_punct, ?ps_space_other,
  ?ps_punct_space_1, ?ps_punct_space, ?ps_punct_other, ?ps_other
  by (done || by apply space_not_punct).

Lemma punct_spacing_idem z : single_spaced z → punct_spacing (punct_spacing z) = punct_spacing z.
Proof.
  induction z as [| a | a p t Ha Hp IH | a p t Ha Hp IH | a c Ha Hpa Hc | a c x t Ha Hpa Hc IH
    | a c t Ha Hpa Hc IH | a t Ha Hpa IH] using punct_spacing_ind; intros Hz; ps_simpl; try done.
  - apply IH. by eapply adj_free_tail.
  - pose proof (single_spaced_next _ _ _ Hz Ha) as Hp'. rewrite (ps_other p) in * by done.
    ps_simpl. f_equal. rewrite <-(ps_other p) by done. apply IH. by eapply adj_free_tail.
  - do 3 f_equal. apply IH. by apply (adj_free_app_r _ [a; c; x]).
  - do 3 f_equal. apply IH. by apply (adj_free_app_r _ [a; c]).
  - f_equal. apply IH. by eapply adj_free_tail.
Qed.

(** The first character of the result is the first of the input, or a
    mark that a dropped space preceded. *)
Lemma punct_spacing_head z b :
  head (punct_spacing z) = Some b → head z = Some b ∨ is_punct b = true.
Proof.
  induction z as [| a | a p t Ha Hp IH | a p t Ha Hp IH | a c Ha Hpa Hc | a c x t Ha Hpa Hc IH
    | a c t Ha Hpa Hc IH | a t Ha Hpa IH] using punct_spacing_ind; ps_simpl;
    cbn; try by intros [= ->]; auto.
  intros Hb. destruct (IH Hb) as [[= ->]|]; auto.
Qed.

Section shapes.
Variable R : ascii → ascii → bool.
Hypothesis R_punct : ∀ a p, is_punct p = true → R a p = false.
Hypothesis R_punct_space : ∀ a, is_punct a = true → R a " "%char = false.
Hypothesis R_space_other : ∀ c, is_space c = false → R " "%char c = false.

Lemma adj_free_cons_ps x u :
  adj_free R (x :: u) → adj_free R (punct_spacing u) → adj_free R (x :: punct_spacing u).
Proof.
  intros Hu HG. destruct (punct_spacing u) as [|b r] eqn:E; [done|]. apply adj_free_cons2. split; [|done].
  destruct (punct_spacing_head u b) as [Hb|Hb]; [by rewrite E| |by apply R_punct].
  destruct u as [|b' u]; [done|]. injection Hb as ->. by apply adj_free_cons2 in Hu as [? _].
Qed.

(** [punct_spacing] adds no pair [R] forbids. *)
Lemma adj_free_punct_spacing z : adj_free R z → adj_free R (punct_spacing z).
Proof.
  induction z as [| a | a p t Ha Hp IH | a p t Ha Hp IH | a c Ha Hpa Hc | a c x t Ha Hpa Hc IH
    | a c t Ha Hpa Hc IH | a t Ha Hpa IH] using punct_spacing_ind; intros Hz; ps_simpl; try done.
  - apply IH. by eapply adj_free_tail.
  - apply adj_free_cons_ps; [done|]. apply IH. by eapply adj_free_tail.
  - apply adj_free_cons2 in Hz as [? Hz]. apply adj_free_cons2 in Hz as [? Hz].
    apply adj_free_cons2. split; [done|]. apply adj_free_cons2. split; [done|].
    apply adj_free_cons_ps; [done|]. apply IH. by eapply adj_free_tail.
  - apply adj_free_cons2 in Hz as [? Hz].
    apply adj_free_cons2. split; [auto|]. apply adj_free_cons2. split; [auto|].
    apply adj_free_cons_ps; [done|]. apply IH. by eapply adj_free_tail.
  - apply adj_free_cons_ps; [done|]. apply IH. by eapply adj_free_tail.
Qed.
End shapes.

(** [punct_spacing] adds no character but plain spaces. *)
Lemma Forall_punct_spacing (P : ascii → Prop) z :
  P " "%char → Forall P z → Forall P (punct_spacing z).
Proof.
  intros Hsp.
  induction z as [| a | a p t Ha Hp IH | a p t Ha Hp IH | a c Ha Hpa Hc | a c x t Ha Hpa Hc IH
    | a c t Ha Hpa Hc IH | a t Ha Hpa IH] using punct_spacing_ind; ps_simpl; rewrite ?Forall_cons;
    naive_solver.
Qed.

(** A trailing space is left as it is. *)
Lemma punct_spacing_snoc_space w s :
  is_space s = true → punct_spacing (w ++ [s]) = punct_spacing w ++ [s].
Proof.
  intros Hs.
  induction w as [| a | a p t Ha Hp IH | a p t Ha Hp IH | a c Ha Hpa Hc | a c x t Ha Hpa Hc IH
    | a c t Ha Hpa Hc IH | a t Ha Hpa IH] using punct_spacing_ind; cbn [app] in *; ps_simpl;
    rewrite ?IH; try done.
  destruct (is_space a) eqn:Ha; [|destruct (is_punct a) eqn:Hpa]; by ps_simpl.
Qed.

(** Fixed points of [punct_spacing] stay fixed when [trim] removes the
    whitespace at either end. *)
Lemma punct_spacing_fixed_tail c t :
  is_space c = true → punct_spacing (c :: t) = c :: t → punct_spacing t = t.
Proof.
  intros Hc. destruct t as [|p t]; [done|]. destruct (is_punct p) eqn:Hp; ps_simpl; [|by intros [=]].
  intros E. destruct (punct_spacing_head (p :: t) c) as [[= ->]|Hc']; [by rewrite E| |];
    by rewrite space_not_punct in *.
Qed.

Lemma punct_spacing_fixed_trim_start w :
  punct_spacing w = w → punct_spacing (trim_start w) = trim_start w.
Proof.
  induction w as [|c t IH]; [done|]. cbn [trim_start]. destruct (is_space c) eqn:Hc; [|done].
  intros E. apply IH. by eapply punct_spacing_fixed_tail.
Qed.

Lemma punct_spacing_fixed_trim_end w :
  punct_spacing w = w → punct_spacing (rev (trim_start (rev w))) = rev (trim_start (rev w)).
Proof.
  induction w as [|c w IH] using rev_ind; [done|]. rewrite rev_unit. cbn [trim_start].
  destruct (is_space c) eqn:Hc; [|by rewrite <-rev_unit, rev_involutive].
  rewrite punct_spacing_snoc_space by done. intros E. apply IH. by apply app_inj_tail in E as [? _].
Qed.

Lemma punct_spacing_fixed_trim w : punct_spacing w = w → punct_spacing (trim w) = trim w.
Proof. intros E. by apply punct_spacing_fixed_trim_end, punct_spacing_fixed_trim_start. Qed.

(** ** The first two passes *)

Lemma adj_free_cons_head R a r :
  (∀ h, head r = Some h → R a h = false) → adj_free R r → adj_free R (a :: r).
Proof. destruct r as [|h r]; [done|]. intros H Hr. apply adj_free_cons2. auto. Qed.

Lemma split_camel_cons2 a b t : split_camel (a :: b :: t) =
  if is_lower a && is_upper b then a :: " "%char :: b :: split_camel t else a :: split_camel (b :: t).
Proof. done. Qed.

Lemma split_camel_head s : head (split_camel s) = head s.
Proof. destruct s as [|a [|b t]]; [done|done|]. rewrite split_camel_cons2. by case_match. Qed.

Lemma upper_not_lower c : is_upper c = true → is_lower c = false.
Proof.
  unfold is_upper, is_lower. generalize (nat_of_ascii c). intros n [H1 H2]%andb_prop.
  apply Nat.leb_le in H1, H2. apply andb_false_iff. left. apply Nat.leb_gt. lia.
Qed.

Lemma camel_free_split_camel s : camel_free (split_camel s).
Proof.
  induction s as [s IH] using text_len_ind. destruct s as [|a [|b t]]; [done|done|].
  rewrite split_camel_cons2. destruct (is_lower a && is_upper b) eqn:Hab.
  - apply andb_prop in Hab as [_ Hb]. apply adj_free_cons2. split; [by rewrite andb_false_r|].
    apply adj_free_cons2. split; [done|]. apply adj_free_cons_head; [|apply IH; cbn; lia].
    intros h _. by rewrite upper_not_lower.
  - apply adj_free_cons_head; [|apply IH; cbn; lia]. rewrite split_camel_head. by intros h [= <-].
Qed.

Lemma split_camel_id y : camel_free y → split_camel y = y.
Proof.
  induction y as [|a t IH]; [done|]. destruct t as [|b t]; [done|].
  intros [Hab H]%adj_free_cons2. rewrite split_camel_cons2, Hab. f_equal. by apply IH.
Qed.

Lemma collapse_true_head y h : head (collapse_ws_from true y) = Some h → is_space h = false.
Proof.
  induction y as [|c y IH]; [done|]. cbn. destruct (is_space c) eqn:Hc; [done|]. by intros [= <-].
Qed.

Lemma collapse_false_head y h :
  head (collapse_ws_from false y) = Some h → h = " "%char ∨ head y = Some h.
Proof. destruct y as [|c y]; [done|]. cbn. destruct (is_space c); intros [= <-]; auto. Qed.

(** [.replace(/\s+/g, ' ')] leaves single plain spaces, and adds no pair
    that involves no space. *)
Lemma collapse_shape b y : single_spaced (collapse_ws_from b y) ∧ plain_spaces (collapse_ws_from b y).
Proof.
  revert b. induction y as [|c y IH]; intros b; [split; [done|constructor]|].
  cbn [collapse_ws_from]. destruct (IH true) as [Hs Hp], (IH false) as [Hs' Hp'].
  destruct (is_space c) eqn:Hc; [destruct b|]; [done| |].
  - split; [|by constructor]. apply adj_free_cons_head; [|done].
    intros h Hh. by rewrite (collapse_true_head _ _ Hh), andb_false_r.
  - split; [|constructor; [by rewrite Hc|done]]. apply adj_free_cons_head; [|done].
    intros h _. by rewrite Hc.
Qed.

Lemma collapse_adj_free R b y :
  (∀ a, R a " "%char = false) → (∀ a, R " "%char a = false) →
  adj_free R y → adj_free R (collapse_ws_from b y).
Proof.
  intros Hl Hr. revert b. induction y as [|c y IH]; intros b Hy; [done|].
  cbn [collapse_ws_from]. assert (Hy' := adj_free_tail _ _ _ Hy).
  destruct (is_space c) eqn:Hc; [destruct b|]; [by apply IH|apply adj_free_cons_head; auto|].
  apply adj_free_cons_head; [|by apply IH]. intros h [->|Hh]%collapse_false_head; [done|].
  destruct y as [|h' y]; [done|]. injection Hh as ->. by apply adj_free_cons2 in Hy as [? _].
Qed.

Lemma collapse_from_id b y : single_spaced y → plain_spaces y →
  (b = true → ∀ h, head y = Some h → is_space h = false) → collapse_ws_from b y = y.
Proof.
  revert b. induction y as [|c y IH]; intros b Hs Hp Hb; [done|].
  apply Forall_cons in Hp as [Hc' Hp]. assert (Hs' := adj_free_tail _ _ _ Hs). cbn.
  destruct (is_space c) eqn:Hc; [|f_equal; by apply IH].
  destruct b; [by rewrite (Hb eq_refl c eq_refl) in Hc|]. rewrite <-(Hc' eq_refl) at 1.
  f_equal. apply IH; [done..|]. intros _ h Hh. destruct y as [|d y]; [done|]. injection Hh as ->.
  by apply (single_spaced_next c _ y).
Qed.

Lemma collapse_id y : single_spaced y → plain_spaces y → collapse_ws y = y.
Proof. intros Hs Hp. by apply collapse_from_id. Qed.

Lemma punct_not_upper c : is_punct c = true → is_upper c = false.
Proof.
  unfold is_punct.
  destruct (Ascii.eqb_spec c "."), (Ascii.eqb_spec c ","), (Ascii.eqb_spec c "!"),
    (Ascii.eqb_spec c "?"); by subst.
Qed.

Lemma camel_free_collapse b y : camel_free y → camel_free (collapse_ws_from b y).
Proof. apply collapse_adj_free; [intros a; cbv beta; by destruct (is_lower a)|done]. Qed.

Lemma single_spaced_punct_spacing z : single_spaced z → single_spaced (punct_spacing z).
Proof.
  apply adj_free_punct_spacing.
  - intros a p Hp. cbv beta. by rewrite (punct_not_space p Hp), andb_false_r.
  - intros a Ha. cbv beta. by rewrite punct_not_space.
  - intros c Hc. cbv beta. by rewrite Hc.
Qed.

Lemma camel_free_punct_spacing z : camel_free z → camel_free (punct_spacing z).
Proof.
  apply adj_free_punct_spacing.
  - intros a p Hp. cbv beta. by rewrite (punct_not_upper p Hp), andb_false_r.
  - intros a _. by destruct (is_lower a).
  - done.
Qed.

(** ** [trim] keeps the shapes, and is idempotent *)

Lemma trim_infix w : ∃ p q, w = p ++ trim w ++ q.
Proof.
  destruct (trim_start_suffix w) as [p Hp], (trim_start_suffix (rev (trim_start w))) as [q Hq].
  exists p, (rev q). rewrite Hp at 1. f_equal. unfold trim.
  rewrite <-(rev_involutive (trim_start w)) at 1. by rewrite Hq at 1; rewrite rev_app_distr.
Qed.

Lemma adj_free_trim R w : adj_free R w → adj_free R (trim w).
Proof.
  destruct (trim_infix w) as (p & q & E). intros H. rewrite E in H.
  by apply adj_free_app_r, adj_free_app_l in H.
Qed.

Lemma Forall_trim (P : ascii → Prop) w : Forall P w → Forall P (trim w).
Proof. rewrite !Forall_forall. intros H c Hc. by apply H, trim_elem. Qed.

Lemma trim_idem w : trim (trim w) = trim w.
Proof. apply trim_id; [apply trim_head|apply trim_last]. Qed.

(** ** Idempotence *)

(** The punctuation passes of [preprocessText] act as [punct_spacing]. *)
Lemma preprocessText_punct_spacing s :
  preprocessText s = trim (punct_spacing (collapse_ws (split_camel s))).
Proof. unfold preprocessText. destruct (collapse_shape false (split_camel s)). by rewrite passes_punct_spacing. Qed.

(** The output of [preprocessText] has single plain spaces, no camel-case
    boundary left, and is a fixed point of [punct_spacing]. *)
Lemma preprocessText_normal s :
  let x := preprocessText s in
  single_spaced x ∧ plain_spaces x ∧ camel_free x ∧ punct_spacing x = x.
Proof.
  cbv zeta. rewrite (preprocessText_punct_spacing s). unfold collapse_ws.
  destruct (collapse_shape false (split_camel s)) as [Hss Hps].
  assert (Hcf := camel_free_collapse false _ (camel_free_split_camel s)).
  split_and!.
  - by apply adj_free_trim, single_spaced_punct_spacing.
  - by apply Forall_trim, Forall_punct_spacing.
  - by apply adj_free_trim, camel_free_punct_spacing.
  - apply punct_spacing_fixed_trim, punct_spacing_idem, Hss.
Qed.

Lemma preprocessText_idem s : preprocessText (preprocessText s) = preprocessText s.
Proof.
  destruct (preprocessText_normal s) as (Hss & Hps & Hcf & Hx).
  unfold preprocessText at 1. rewrite split_camel_id, collapse_id, passes_punct_spacing, Hx by done.
  rewrite (preprocessText_punct_spacing s). apply trim_idem.
Qed.

(** C27. Normalizing twice is normalizing once: [preprocessText] is
    idempotent on every text. *)
Theorem preprocessText_idempotent s : preprocessText (preprocessText s) = preprocessText s.
Proof. apply preprocessText_idem. Qed.


(** ** Normalization changes only whitespace *)

Lemma nonspace_app a b : nonspace (a ++ b) = nonspace a ++ nonspace b.
Proof. unfold nonspace. apply List.filter_app. Qed.

Lemma nonspace_rev a : nonspace (rev a) = rev (nonspace a).
Proof.
  induction a as [|c a IH]; [done|]. cbn [rev]. rewrite nonspace_app, IH. unfold nonspace at 2 3. cbn.
  destruct (is_space c); cbn; by rewrite ?app_nil_r.
Qed.

Lemma nonspace_spaces (p : text) : Forall (λ c, is_space c = true) p → nonspace p = [].
Proof. induction 1 as [|c p Hc _ IH]; [done|]. unfold nonspace in *. cbn. by rewrite Hc. Qed.

Lemma nonspace_split_camel s : nonspace (split_camel s) = nonspace s.
Proof.
  induction s as [s IH] using text_len_ind. destruct s as [|a [|b t]]; [done|done|].
  rewrite split_camel_cons2. assert (IHt := IH t ltac:(cbn; lia)).
  assert (IHbt := IH (b :: t) ltac:(cbn; lia)). unfold nonspace in *.
  case_match; cbn in *; rewrite ?IHt, ?IHbt; [|done]. by destruct (is_space a), (is_space b).
Qed.

Lemma nonspace_collapse b s : nonspace (collapse_ws_from b s) = nonspace s.
Proof.
  revert b. induction s as [|c s IH]; intros b; [done|]. unfold nonspace in *. cbn.
  destruct (is_space c) eqn:Hc; [destruct b|]; cbn; by rewrite ?Hc, IH.
Qed.

Lemma nonspace_strip pend s :
  Forall (λ c, is_space c = true) pend → nonspace (strip_space_before_punct_from pend s) = nonspace s.
Proof.
  revert pend. induction s as [|c s IH]; intros pend Hp; cbn [strip_space_before_punct_from].
  { by apply nonspace_spaces. }
  destruct (is_space c) eqn:Hc; [|destruct (is_punct c)].
  - rewrite IH by (apply Forall_app; auto). unfold nonspace. cbn. by rewrite Hc.
  - unfold nonspace in *. cbn. rewrite Hc, IH; auto.
  - rewrite nonspace_app, nonspace_spaces by done. unfold nonspace in *. cbn. rewrite Hc, IH; auto.
Qed.

Lemma nonspace_space_after_punct s : nonspace (space_after_punct s) = nonspace s.
Proof.
  induction s as [s IH] using text_len_ind. destruct s as [|p [|c t]]; [done|done|].
  assert (IHt := IH t ltac:(cbn; lia)). assert (IHct := IH (c :: t) ltac:(cbn; lia)).
  unfold nonspace in *. cbn [space_after_punct]. case_match; cbn in *; rewrite ?IHt, ?IHct; [|done].
  by destruct (is_space p), (is_space c).
Qed.

Lemma nonspace_trim_start s : nonspace (trim_start s) = nonspace s.
Proof. induction s as [|c s IH]; [done|]. cbn [trim_start]. destruct (is_space c) eqn:Hc; [|done]. unfold nonspace in *. cbn. by rewrite Hc. Qed.

Lemma nonspace_trim s : nonspace (trim s) = nonspace s.
Proof. unfold trim. by rewrite nonspace_rev, nonspace_trim_start, nonspace_rev, rev_involutive, nonspace_trim_start. Qed.

(** C28. Normalization changes only whitespace: [preprocessText] keeps
    every other character of the text, in order; what it leaves is single
    plain spaces, with no lower-case letter right before an upper-case
    one and no whitespace at either end. *)
Theorem preprocessText_shape s :
  let x := preprocessText s in
  nonspace x = nonspace s
  ∧ single_spaced x ∧ plain_spaces x ∧ camel_free x
  ∧ (∀ c, head x = Some c ∨ last x = Some c → is_space c = false).
Proof.
  destruct (preprocessText_normal s) as (Hss & Hps & Hcf & _). split_and!; try done.
  - unfold preprocessText, strip_space_before_punct, collapse_ws.
    rewrite nonspace_trim, nonspace_space_after_punct, nonspace_strip, nonspace_collapse,
      nonspace_split_camel by constructor. done.
  - unfold preprocessText. intros c [Hh|Hl]; [by eapply trim_head|by eapply trim_last].
Qed.

End Normal.
