(* ===== verification/Scraper.v ===== *)
(** * The news scraper and crawler: newsScraper.js and crawler.js

    The parts of the two data-acquisition scripts that decide something:
    [fetchWithRetry] with its retry and backoff schedule, the content
    cleaning chain that both scripts apply to an article's text, and the
    link collection of [getArticleLinks].  HTTP ([axios.get]) is a script
    of replies consumed one per request; HTML parsing ([cheerio]) is a
    function from a page to what the selectors find on it. *)

From S2P Require Import Prelude Text Normal.
Open Scope rag_scope.

Module Scraper.
Import Text Normal.

(** ** The network as the scripts see it *)

(** The replies the next requests get, in order (a page or an error), the
    URLs requested so far, and the delays slept so far. *)
Record net := mk_net {
  n_replies : list (js_error + text);
  n_requests : list text;
  n_sleeps : list nat;
}.

(** [await axios.get(url, {headers})]: the next reply; with none left the
    request fails. *)
Definition axios_get (url : text) : M net text :=
  let* n := get in
  match n_replies n with
  | [] => put (mk_net [] (n_requests n ++ [url]) (n_sleeps n)) ;;; throw FetchFailed
  | r :: rs =>
      put (mk_net rs (n_requests n ++ [url]) (n_sleeps n)) ;;;
      match r with inl e => throw e | inr page => ret page end
  end.

(** [await new Promise(resolve => setTimeout(resolve, ms))] *)
Definition sleep_ms (ms : nat) : M net unit :=
  modify (λ n, mk_net (n_replies n) (n_requests n) (n_sleeps n ++ [ms])).

(** ** [fetchWithRetry(url, maxRetries = 3)]

    [retry_from url maxRetries i k] is the loop from iteration [i] with [k]
    iterations left.  The value [None] is the [undefined] the function
    returns when the loop body never runs. *)
Fixpoint retry_from (url : text) (maxRetries i k : nat) : M net (option text) :=
  match k with
  | 0 => ret None
  | S k' =>
      catch (let* page := axios_get url in ret (Some page))
        (λ e, if i =? maxRetries - 1 then throw e
              else sleep_ms (1000 * (i + 1)) ;;; retry_from url maxRetries (S i) k')
  end.

Definition fetchWithRetry (url : text) (maxRetries : nat) : M net (option text) :=
  retry_from url maxRetries 0 maxRetries.

(** The delays slept before attempts [i+1 .. i+k]: [1000 * (j + 1)]. *)
Definition backoff_delays (i k : nat) : list nat := map (λ j, 1000 * (j + 1)) (seq i k).

(** ** The content cleaning of [getArticleContent] and [fetchArticleContent]

    Both scripts clean an article's text with the same chain:
    [.trim().replace(/\s+/g, ' ').replace(/\s+([.,!?])/g, '$1')
     .replace(/([.,!?])([^\s])/g, '$1 $2').replace(/[^\w\s.,!?-]/g, '').trim()].
    The middle three passes are those of [preprocessText]. *)

(** [\w]: ASCII letters, digits and the underscore. *)
Definition is_word (c : ascii) : bool :=
  is_lower c || is_upper c || is_digit c || (c =? "_")%char.

(** What [/[^\w\s.,!?-]/g] leaves in place. *)
Definition keep_char (c : ascii) : bool :=
  is_word c || is_space c || is_punct c || (c =? "-")%char.

Definition remove_special (s : text) : text := List.filter keep_char s.

Definition clean_content (s : text) : text :=
  trim (remove_special (space_after_punct (strip_space_before_punct (collapse_ws (trim s))))).

(** ** [getArticleLinks(url)]

    [dom page sel] is what cheerio finds on [page] for the selector [sel]:
    the [href] attribute of each matched element, [None] when absent. *)

Definition article_selectors : list text :=
  map lit
    ["article a"; ".list-content a"; ".media__link"; ".media__title a"; "h2 a, h3 a"].

(** [if (link && link.includes('detik.com') && !link.includes('#'))] *)
Definition wanted (l : text) : bool :=
  str_truthy l && includes l (lit "detik.com")
  && negb (includes l (lit "#")).

Definition link_wanted (link : option text) : option text :=
  match link with Some l => if wanted l then Some l else None | None => None end.

(** [links.add(link)]: a [Set] keeps the first insertion order and ignores
    a repeated element. *)
Definition set_add (x : text) (l : list text) : list text :=
  if decide (x ∈ l) then l else l ++ [x].

(** [$(selector).each((_, element) => ...)] over one selector's elements. *)
Definition add_links (acc : list text) (hrefs : list (option text)) : list text :=
  foldl (λ acc h, match link_wanted h with Some l => set_add l acc | None => acc end) acc hrefs.

(** [articleSelectors.forEach(...)] starting from [new Set()]. *)
Definition collect_links (hrefs : list (list (option text))) : list text :=
  foldl add_links [] hrefs.

Definition getArticleLinks (dom : text → text → list (option text)) (url : text) : M net (list text) :=
  catch
    (let* response := fetchWithRetry url 3 in
     match response with
     | None => throw TypeError  (** [response.data] of [undefined] *)
     | Some page => ret (collect_links (map (dom page) article_selectors))
     end)
    (λ _, ret []).

(** ** [getArticleContent(url)]

    [texts page sel] is what cheerio finds on [page], after the unwanted
    elements ([script], [style], [.ads], ...) were removed, for the
    selector [sel]: the text of each matched element, in document order. *)

Record article := mk_article { a_title : text; a_date : text; a_content : text; a_url : text }.

Definition content_selectors : list text :=
  map lit ["div.detail__body-text"; "div.itp_bodycontent"; "div.detail__body"; "div.detail-text"; "article"].

(** [.first().text()] of a selection: the first element's text, or [''] *)
Definition first_text (ts : list text) : text := match ts with t :: _ => t | [] => [] end.

(** The loop over [contentSelectors]: the first selector that matches
    gives the content, [element.text()] being the texts of all its
    elements, cleaned; none matching leaves [content = '']. *)
Definition find_content (selectors : list text) (q : text → list text) : text :=
  match List.find (λ sel, negb (bool_decide (q sel = []))) selectors with
  | Some sel => clean_content (concat (q sel))
  | None => []
  end.

(** [null] is [None]. *)
Definition getArticleContent (texts : text → text → list text) (url : text) : M net (option article) :=
  catch
    (let* response := fetchWithRetry url 3 in
     match response with
     | None => throw TypeError
     | Some page =>
         let q := texts page in
         ret (Some (mk_article (trim (first_text (q (lit "h1.detail__title, h1.title, .article-title"))))
                               (trim (first_text (q (lit "div.detail__date, .date"))))
                               (find_content content_selectors q) url))
     end)
    (λ _, ret None).

(** ** [scrapeDetikNews(outputDir)]

    The links of every section, deduplicated by a [Set]; then each link in
    turn: its article is kept when its content has more than 100
    characters, and the loop waits 500 ms.  The text written to the output
    file is returned; [fs.mkdir] and [fs.writeFile] are not modelled. *)

Definition DETIK_SECTIONS : list text := [lit "https://news.detik.com"].

(** [for (const section of DETIK_SECTIONS) { links.forEach(link => allLinks.add(link)) }] *)
Fixpoint gather_links (hrefs : text → text → list (option text)) (sections : list text) (acc : list text)
    : M net (list text) :=
  match sections with
  | [] => ret acc
  | s :: ss => let* links := getArticleLinks hrefs s in gather_links hrefs ss (foldl (λ a l, set_add l a) acc links)
  end.

(** [for (const link of allLinks) { ... }] *)
Fixpoint scrape_articles (texts : text → text → list text) (links : list text) : M net (list article) :=
  match links with
  | [] => ret []
  | link :: rest =>
      let* art := getArticleContent texts link in
      sleep_ms 500 ;;;
      let* others := scrape_articles texts rest in
      ret (match art with
           | Some a => if 100 <? length (a_content a) then a :: others else others
           | None => others
           end)
  end.

(** One element of [articles.map((article, index) => ...)]. *)
Definition scrape_entry (index : nat) (a : article) : text :=
  lit "--- Article " ++ nat_to_text (index + 1) ++ lit " ---" ++ nl ++
  lit "Title: " ++ a_title a ++ nl ++ lit "Link: " ++ a_url a ++ nl ++
  lit "Date: " ++ a_date a ++ nl ++ lit "Content: " ++ a_content a ++ nl.

(** The template literal of lines 159-170. *)
Definition scrape_file (crawledAt : text) (articles : list article) : text :=
  lit "Page URL: " ++ js_join (lit ", ") DETIK_SECTIONS ++ nl ++
  lit "Total Articles Found: " ++ nat_to_text (length articles) ++ nl ++
  lit "Crawled at: " ++ crawledAt ++ nl ++ nl ++
  js_join nl (imap scrape_entry articles).

Definition scrapeDetikNews (hrefs : text → text → list (option text)) (texts : text → text → list text)
    (crawledAt : text) : M net text :=
  let* allLinks := gather_links hrefs DETIK_SECTIONS [] in
  let* articles := scrape_articles texts allLinks in
  ret (scrape_file crawledAt articles).

(** ** The retry loop *)

Lemma backoff_delays_S i k : backoff_delays i (S k) = 1000 * (i + 1) :: backoff_delays (S i) k.
Proof. done. Qed.

Lemma backoff_delays_length i k : length (backoff_delays i k) = k.
Proof. unfold backoff_delays. by rewrite length_map, length_seq. Qed.

(** One failed attempt that is not the last: the error is swallowed, the
    loop sleeps [1000 * (i + 1)] and goes on. *)
Lemma retry_from_fail url m i k e rs reqs sl :
  i + S k = m → 0 < k →
  retry_from url m i (S k) (mk_net (inl e :: rs) reqs sl) =
  retry_from url m (S i) k (mk_net rs (reqs ++ [url]) (sl ++ [1000 * (i + 1)])).
Proof.
  intros Hm Hk. cbn. rewrite (proj2 (Nat.eqb_neq _ _)) by lia. done.
Qed.

(** A run of failed attempts, none of them the last. *)
Lemma retry_fail_prefix url m errs rest i k reqs sl :
  length errs < k → i + k = m →
  retry_from url m i k (mk_net (map inl errs ++ rest) reqs sl) =
  retry_from url m (i + length errs) (k - length errs)
    (mk_net rest (reqs ++ replicate (length errs) url) (sl ++ backoff_delays i (length errs))).
Proof.
  revert i k reqs sl. induction errs as [|e errs IH]; intros i k reqs sl Hlen Hm.
  - rewrite Nat.add_0_r, Nat.sub_0_r. cbn [map app length replicate]. by rewrite !app_nil_r.
  - cbn [length map app] in *. destruct k as [|k]; [lia|].
    rewrite retry_from_fail, IH by lia.
    rewrite backoff_delays_S, <-!app_assoc, Nat.sub_succ. cbn [replicate app].
    by replace (i + S (length errs)) with (S i + length errs) by lia.
Qed.

(** [axios.get], run: the first reply is consumed, the request recorded. *)
Lemma run_axios_get url n :
  axios_get url n =
    (match n_replies n with [] => inl FetchFailed | inl e :: _ => inl e | inr p :: _ => inr p end,
     mk_net (drop 1 (n_replies n)) (n_requests n ++ [url]) (n_sleeps n)).
Proof. destruct n as [[|[e|p] rs] reqs sl]; done. Qed.

(** One iteration of the loop, run. *)
Lemma retry_from_S url m i k n :
  retry_from url m i (S k) n =
    let n1 := mk_net (drop 1 (n_replies n)) (n_requests n ++ [url]) (n_sleeps n) in
    match fst (axios_get url n) with
    | inr p => (inr (Some p), n1)
    | inl e =>
        if i =? m - 1 then (inl e, n1)
        else retry_from url m (S i) k (mk_net (n_replies n1) (n_requests n1) (n_sleeps n1 ++ [1000 * (i + 1)]))
    end.
Proof.
  cbn [retry_from]. unfold catch, bind at 1. rewrite run_axios_get. cbn zeta.
  destruct (n_replies n) as [|[e|p] rs]; cbn [fst]; [| |done]; by destruct (i =? m - 1).
Qed.

Lemma retry_from_success url m i k p rs reqs sl :
  retry_from url m i (S k) (mk_net (inr p :: rs) reqs sl) = (inr (Some p), mk_net rs (reqs ++ [url]) sl).
Proof. done. Qed.

Lemma retry_from_last url m e rs reqs sl :
  0 < m → retry_from url m (m - 1) 1 (mk_net (inl e :: rs) reqs sl) = (inl e, mk_net rs (reqs ++ [url]) sl).
Proof. intros Hm. rewrite retry_from_S. cbn. by rewrite Nat.eqb_refl. Qed.

(** Every run of the loop from iteration [i] with [k] iterations left
    makes [a <= k] requests, [a = 0] only when [k = 0], sleeps the delays
    of the [a - 1] retries, and returns [undefined] only when [k = 0]. *)
Lemma retry_from_attempts url m i k n :
  i + k = m →
  ∃ a, a ≤ k ∧ (a = 0 ↔ k = 0) ∧
    snd (retry_from url m i k n) =
      mk_net (drop a (n_replies n)) (n_requests n ++ replicate a url) (n_sleeps n ++ backoff_delays i (a - 1)) ∧
    (fst (retry_from url m i k n) = inr None ↔ k = 0).
Proof.
  revert i n. induction k as [|k IH]; intros i [rs reqs sl] Hm.
  { exists 0. cbn. by rewrite !app_nil_r. }
  rewrite retry_from_S. cbn [n_replies n_requests n_sleeps].
  destruct (fst (axios_get url _)) as [e|p].
  2:{ exists 1. cbn. rewrite app_nil_r. split_and!; [lia|done|done|split; [congruence|lia]]. }
  destruct (i =? m - 1) eqn:Hi.
  { exists 1. cbn. rewrite app_nil_r. split_and!; [lia|done|done|split; [congruence|lia]]. }
  apply Nat.eqb_neq in Hi. destruct k as [|k]; [lia|].
  destruct (IH (S i) (mk_net (drop 1 rs) (reqs ++ [url]) (sl ++ [1000 * (i + 1)]))) as (a & Ha & Ha0 & Hst & Hres);
    [lia|].
  exists (S a). rewrite Hst, Hres. cbn [n_replies n_requests n_sleeps].
  destruct a as [|a]; [lia|]. rewrite drop_drop, <-!app_assoc. cbn [replicate app].
  replace (S (S a) - 1) with (S a) by lia. rewrite backoff_delays_S, Nat.sub_succ, Nat.sub_0_r.
  split_and!; [lia|lia|done|lia].
Qed.

(** ** The link set *)

Lemma set_add_elem x y l : x ∈ set_add y l ↔ x = y ∨ x ∈ l.
Proof. unfold set_add. case_decide; set_solver. Qed.

Lemma set_add_NoDup y l : NoDup l → NoDup (set_add y l).
Proof.
  unfold set_add. case_decide; [done|]. intros Hl.
  apply NoDup_app. split_and!; [done|set_solver|apply NoDup_singleton].
Qed.

(** The links gathered from one selector's elements. *)
Lemma add_links_spec acc hrefs :
  NoDup acc →
  NoDup (add_links acc hrefs) ∧
  ∀ x, x ∈ add_links acc hrefs ↔ x ∈ acc ∨ (Some x ∈ hrefs ∧ wanted x = true).
Proof.
  unfold add_links. revert acc. induction hrefs as [|h hrefs IH]; intros acc Hacc; cbn [foldl].
  { split; [done|]. set_solver. }
  destruct h as [l|]; cbn [link_wanted]; [destruct (wanted l) eqn:Hw|].
  - destruct (IH (set_add l acc)) as [Hnd Hin]; [by apply set_add_NoDup|].
    split; [done|]. intros x. rewrite Hin, set_add_elem, elem_of_cons.
    split; [intros [[->|?]|[??]]|intros [?|[[[= ->]|?] ?]]]; naive_solver.
  - destruct (IH acc Hacc) as [Hnd Hin]. split; [done|]. intros x. rewrite Hin, elem_of_cons.
    split; [intros [?|[??]]|intros [?|[[[= ->]|?] ?]]]; naive_solver congruence.
  - destruct (IH acc Hacc) as [Hnd Hin]. split; [done|]. intros x. rewrite Hin, elem_of_cons. naive_solver.
Qed.

Lemma collect_links_from acc hss :
  NoDup acc →
  NoDup (foldl add_links acc hss) ∧
  ∀ x, x ∈ foldl add_links acc hss ↔ x ∈ acc ∨ ∃ hs, hs ∈ hss ∧ Some x ∈ hs ∧ wanted x = true.
Proof.
  revert acc. induction hss as [|hs hss IH]; intros acc Hacc; cbn [foldl].
  { split; [done|]. set_solver. }
  destruct (add_links_spec acc hs Hacc) as [Hnd Hin].
  destruct (IH _ Hnd) as [Hnd' Hin']. split; [done|]. intros x. rewrite Hin', Hin.
  setoid_rewrite elem_of_cons. naive_solver.
Qed.

Lemma getArticleLinks_ok dom url n :
  ∃ links, fst (getArticleLinks dom url n) = inr links ∧ NoDup links ∧
    ∀ l, l ∈ links → wanted l = true.
Proof.
  unfold getArticleLinks, catch, bind.
  destruct (fetchWithRetry url 3 n) as [[e|[page|]] n']; cbn;
    try (exists []; split_and!; [done|constructor|set_solver]).
  destruct (collect_links_from [] (map (dom page) article_selectors)) as [Hnd Hin]; [constructor|].
  eexists. split_and!; [done|done|]. intros l Hl. apply Hin in Hl. set_solver.
Qed.

(** ** The scraping loop *)

Lemma getArticleContent_ok texts url n :
  ∃ o n', getArticleContent texts url n = (inr o, n') ∧ ∀ a, o = Some a → a_url a = url.
Proof.
  unfold getArticleContent, catch, bind.
  destruct (fetchWithRetry url 3 n) as [[e|[page|]] n']; cbn;
    do 2 eexists; (split; [reflexivity|intros a Ha]); by simplify_eq.
Qed.

(** The articles kept are those of some of the links, in the links' order,
    each with more than 100 characters of content. *)
Lemma scrape_articles_ok texts links n :
  ∃ arts n', scrape_articles texts links n = (inr arts, n') ∧
    map a_url arts `sublist_of` links ∧ ∀ a, a ∈ arts → 100 < length (a_content a).
Proof.
  revert n. induction links as [|l links IH]; intros n; cbn [scrape_articles].
  { do 2 eexists. split_and!; [done|constructor|set_solver]. }
  destruct (getArticleContent_ok texts l n) as (o & n1 & Ho & Hurl).
  rewrite run_bind, Ho. rewrite run_bind. cbn [sleep_ms modify].
  destruct (IH (mk_net (n_replies n1) (n_requests n1) (n_sleeps n1 ++ [500]))) as (arts & n2 & Hrun & Hsub & Hlen).
  rewrite run_bind, Hrun.
  destruct o as [a|]; [destruct (100 <? length (a_content a)) eqn:Hc|];
    (do 2 eexists; split; [reflexivity|]).
  - split; [cbn; rewrite (Hurl a eq_refl); by apply sublist_skip|].
    intros a' [->|?]%elem_of_cons; [by apply Nat.ltb_lt|auto].
  - split; [by apply sublist_cons|done].
  - split; [by apply sublist_cons|done].
Qed.

Lemma gather_links_ok hrefs sections acc n :
  NoDup acc → (∀ l, l ∈ acc → wanted l = true) →
  ∃ links n', gather_links hrefs sections acc n = (inr links, n') ∧ NoDup links ∧
    ∀ l, l ∈ links → wanted l = true.
Proof.
  revert acc n. induction sections as [|s ss IH]; intros acc n Hnd Hw; cbn [gather_links]; [eauto|].
  rewrite run_bind. destruct (getArticleLinks_ok hrefs s n) as (ls & Hls & _ & Hwl).
  destruct (getArticleLinks hrefs s n) as [r n1]; cbn in Hls; subst r. apply IH.
  - clear -Hnd. revert acc Hnd. induction ls as [|l ls IH']; intros acc Hnd; cbn; [done|].
    apply IH', set_add_NoDup, Hnd.
  - clear -Hw Hwl. revert acc Hw. induction ls as [|l ls IH']; intros acc Hw; cbn; [done|].
    apply IH'; [intros; apply Hwl; set_solver|]. intros x [->|?]%set_add_elem; [apply Hwl; set_solver|auto].
Qed.

(** C35. [scrapeDetikNews] never rejects (the file I/O aside); the file it
    writes lists each article once, each from a wanted link and with more
    than 100 characters of content. *)
Theorem scrapeDetikNews_spec hrefs texts crawledAt n :
  ∃ articles n', scrapeDetikNews hrefs texts crawledAt n = (inr (scrape_file crawledAt articles), n')
    ∧ NoDup (map a_url articles)
    ∧ ∀ a, a ∈ articles → 100 < length (a_content a) ∧ wanted (a_url a) = true.
Proof.
  unfold scrapeDetikNews. rewrite run_bind.
  destruct (gather_links_ok hrefs DETIK_SECTIONS [] n) as (links & n1 & Hg & Hnd & Hw); [constructor|set_solver|].
  rewrite Hg, run_bind. destruct (scrape_articles_ok texts links n1) as (arts & n2 & Hs & Hsub & Hlen).
  rewrite Hs. exists arts, n2. split_and!; [done|by eapply sublist_NoDup|].
  intros a Ha. split; [auto|]. apply Hw. eapply elem_of_sublist; [|exact Hsub]. by apply list_elem_of_fmap_2.
Qed.

(** C29. [fetchWithRetry] is bounded: it makes at most [maxRetries]
    requests, sleeps only between them, with the delays [1000 * (j + 1)]
    of the retries it made, and resolves to [undefined] exactly when
    [maxRetries] is 0 (the loop body never runs). *)
Theorem fetchWithRetry_attempts url maxRetries n :
  ∃ a, a ≤ maxRetries ∧
    n_requests (snd (fetchWithRetry url maxRetries n)) = n_requests n ++ replicate a url ∧
    n_sleeps (snd (fetchWithRetry url maxRetries n)) = n_sleeps n ++ backoff_delays 0 (a - 1) ∧
    (fst (fetchWithRetry url maxRetries n) = inr None ↔ maxRetries = 0).
Proof.
  destruct (retry_from_attempts url maxRetries 0 maxRetries n) as (a & Ha & _ & Hst & Hres); [done|].
  exists a. unfold fetchWithRetry. by rewrite Hst.
Qed.

(** C30. When the first [length errs] requests fail and fewer than
    [maxRetries] did, the next successful reply is the result: one request
    per attempt, and a linear backoff [1000, 2000, ...] between them. *)
Theorem fetchWithRetry_success url maxRetries errs page rest reqs sl :
  length errs < maxRetries →
  fetchWithRetry url maxRetries (mk_net (map inl errs ++ inr page :: rest) reqs sl) =
    (inr (Some page),
     mk_net rest (reqs ++ replicate (S (length errs)) url) (sl ++ backoff_delays 0 (length errs))).
Proof.
  intros Hlen. unfold fetchWithRetry. rewrite retry_fail_prefix by lia.
  destruct (maxRetries - length errs) as [|k] eqn:Hk; [lia|].
  rewrite retry_from_success, <-app_assoc. by rewrite replicate_S_end.
Qed.

(** C31. When all [maxRetries] requests fail, the error of the last one
    is thrown, after [maxRetries] requests and [maxRetries - 1] sleeps. *)
Theorem fetchWithRetry_exhausted url errs e rest reqs sl :
  fetchWithRetry url (S (length errs)) (mk_net (map inl (errs ++ [e]) ++ rest) reqs sl) =
    (inl e, mk_net rest (reqs ++ replicate (S (length errs)) url) (sl ++ backoff_delays 0 (length errs))).
Proof.
  unfold fetchWithRetry. rewrite map_app, <-app_assoc. cbn [map app].
  rewrite retry_fail_prefix by lia. rewrite Nat.add_0_l.
  replace (S (length errs) - length errs) with 1 by lia.
  rewrite retry_from_S, run_axios_get. cbn [fst n_replies n_requests n_sleeps drop].
  rewrite Nat.sub_succ, Nat.sub_0_r, Nat.eqb_refl, <-app_assoc. by rewrite replicate_S_end.
Qed.

(** The cleaned content holds only word characters, whitespace, the
    marks [.,!?] and [-]. *)
Theorem clean_content_chars (s : text) c : c ∈ clean_content s → keep_char c = true.
Proof. unfold clean_content, remove_special. intros Hc%trim_elem%list_elem_of_In. by apply List.filter_In in Hc as [_ ->]. Qed.

Lemma word_not_space c : is_word c = true → is_space c = false.
Proof. destruct c as [[] [] [] [] [] [] [] []]; vm_compute; intros H; (reflexivity || discriminate). Qed.

Lemma word_not_punct c : is_word c = true → is_punct c = false.
Proof. destruct c as [[] [] [] [] [] [] [] []]; vm_compute; intros H; (reflexivity || discriminate). Qed.

Lemma removed_char c : keep_char c = false → is_space c = false ∧ is_punct c = false.
Proof. unfold keep_char. intros H. repeat (apply orb_false_iff in H as [H ?]). auto. Qed.

Lemma punct_kept c : is_punct c = true → keep_char c = true.
Proof. intros H. unfold keep_char. by rewrite H, orb_true_r, orb_true_l. Qed.

(** Each pass of the cleaning chain leaves a prefix of word characters
    as it is. *)
Lemma clean_passes_words (u r : text) :
  Forall (λ c, is_word c = true) u →
  collapse_ws (u ++ r) = u ++ collapse_ws r
  ∧ strip_space_before_punct (u ++ r) = u ++ strip_space_before_punct r
  ∧ space_after_punct (u ++ r) = u ++ space_after_punct r
  ∧ remove_special (u ++ r) = u ++ remove_special r.
Proof.
  induction 1 as [|c u Hc _ (IH1 & IH2 & IH3 & IH4)]; [done|].
  pose proof (word_not_space c Hc) as Hs. pose proof (word_not_punct c Hc) as Hp. cbn [app]. split_and!.
  - unfold collapse_ws in *. cbn. by rewrite Hs, IH1.
  - by rewrite strip_nonspace, IH2.
  - by rewrite sap_nonpunct, IH3.
  - unfold remove_special in *. cbn. unfold keep_char at 1. by rewrite Hc, IH4.
Qed.

(** C37. Removing the special characters comes after the punctuation
    passes, so it undoes them: for every run of word characters [u],
    every character [x] the removal drops and every mark [m], the text
    ["u x" ++ m] is cleaned into ["u " ++ m], with a space before the
    mark. *)
Theorem clean_content_space_before_mark (u : text) (x m : ascii) :
  u ≠ [] → Forall (λ c, is_word c = true) u → keep_char x = false → is_punct m = true →
  clean_content (u ++ [" "%char; x; m]) = u ++ [" "%char; m].
Proof.
  intros Hne Hu Hx Hm. destruct (removed_char x Hx) as [Hxs Hxp].
  pose proof (punct_not_space m Hm) as Hms.
  assert (Hends : ∀ r, last r = Some m → trim (u ++ r) = u ++ r).
  { intros r Hr. apply trim_id.
    - destruct u as [|c u]; [done|]. intros c' [= <-]. apply word_not_space. by inversion Hu.
    - intros c'. rewrite last_app_ne by (by destruct r). rewrite Hr. by intros [= <-]. }
  unfold clean_content. rewrite Hends by done.
  destruct (clean_passes_words u [" "%char; x; m] Hu) as (-> & _).
  replace (collapse_ws [" "%char; x; m]) with [" "%char; x; m]
    by (unfold collapse_ws; cbn; rewrite ?Hxs, ?Hms; by destruct (is_space " "%char)).
  destruct (clean_passes_words u [" "%char; x; m] Hu) as (_ & -> & _).
  rewrite strip_space_other by (done || reflexivity). rewrite strip_nonspace by done.
  destruct (clean_passes_words u (" "%char :: x :: m :: strip_space_before_punct []) Hu) as (_ & _ & -> & _).
  rewrite sap_nonpunct by reflexivity. rewrite sap_nonpunct by done. cbn.
  destruct (clean_passes_words u [" "%char; x; m] Hu) as (_ & _ & _ & ->).
  unfold remove_special. cbn. rewrite Hx, (punct_kept m Hm).
  replace (keep_char " "%char) with true by reflexivity. by rewrite Hends.
Qed.

Lemma clean_content_space_before_mark_witness :
  clean_content (lit "naik " ++ [ascii_of_nat 169] ++ lit ".") = lit "naik .".
Proof.
  apply (clean_content_space_before_mark (lit "naik") (ascii_of_nat 169) "."%char);
    [discriminate|repeat constructor|reflexivity|reflexivity].
Defined.

(** C36. [getArticleLinks] never rejects, and what it returns lists each
    link once, every one of them non-empty, on [detik.com] and without a
    fragment [#], whatever the network and the page do. *)
Theorem getArticleLinks_spec dom url n :
  ∃ links, fst (getArticleLinks dom url n) = inr links ∧ NoDup links ∧
    ∀ l, l ∈ links → wanted l = true.
Proof. apply getArticleLinks_ok. Qed.

(** When the section page is fetched, the links are exactly the
    wanted [href]s that the five selectors find on it. *)
Theorem getArticleLinks_page dom url page rest reqs sl l :
  ∃ links, fst (getArticleLinks dom url (mk_net (inr page :: rest) reqs sl)) = inr links ∧
    (l ∈ links ↔ ∃ sel, sel ∈ article_selectors ∧ Some l ∈ dom page sel ∧ wanted l = true).
Proof.
  destruct (collect_links_from [] (map (dom page) article_selectors)) as [_ Hin]; [constructor|].
  eexists. split; [reflexivity|]. unfold collect_links. rewrite Hin. split.
  - intros [Hnil|(hs & Hhs & Hx & Hw)]; [set_solver|].
    apply list_elem_of_fmap in Hhs as (sel & -> & Hsel). eauto.
  - intros (sel & Hsel & Hx & Hw). right. exists (dom page sel).
    split_and!; [apply list_elem_of_fmap; eauto|done|done].
Qed.

Lemma fetchWithRetry_success_witness :
  let url := lit "https://news.detik.com" in
  let page := lit "<html></html>" in
  length [HttpError 503] < 3 ∧
  fetchWithRetry url 3 (mk_net (map inl [HttpError 503] ++ inr page :: []) [] []) =
    (inr (Some page), mk_net [] ([] ++ replicate 2 url) ([] ++ backoff_delays 0 1)).
Proof. cbv zeta. split; [cbn; lia|]. apply (fetchWithRetry_success _ 3 [HttpError 503]). cbn; lia. Defined.

End Scraper.
