(* ===== verification/Convert.v ===== *)
(** * The article converter: convert_data.js, and the file it reads

    [extractArticles] turns the text file written by crawler.js into the
    list of documents that are fed to [addDocuments].  The file format is
    modelled from [crawlWebsite] (crawler.js), which writes it; the main
    block of convert_data.js maps [extractArticles] and a whitespace
    collapse over the file's text.  The theorem of this file computes what
    the converter extracts from any file the crawler writes. *)

From S2P Require Import Prelude Text.
Open Scope rag_scope.

Module Convert.
Import Text.

(** ** [rawText.split('\n')] *)
Fixpoint split_nl_from (cur : text) (s : text) : list text :=
  match s with
  | [] => [cur]
  | c :: t => if (c =? ascii_of_nat 10)%char then cur :: split_nl_from [] t
              else split_nl_from (cur ++ [c]) t
  end.
Definition split_lines (s : text) : list text := split_nl_from [] s.

(** [line.match(/^\d+ Komentar/)]: [seen] is set once a digit was read. *)
Fixpoint komentar_from (seen : bool) (s : text) : bool :=
  match s with
  | c :: t => if is_digit c then komentar_from true t
              else seen && starts_with (lit " Komentar") s
  | [] => false
  end.
Definition matches_komentar (s : text) : bool := komentar_from false s.

(** ** [extractArticles(rawText)] *)

Record extract_state := mk_extract { articles : list text; currentArticle : text }.

(** [if (currentArticle) articles.push(currentArticle.trim())] *)
Definition push_current (st : extract_state) : list text :=
  if str_truthy (currentArticle st) then articles st ++ [trim (currentArticle st)] else articles st.

(** One iteration of [for (let line of lines)]. *)
Definition extract_step (st : extract_state) (raw : text) : extract_state :=
  let line := trim raw in
  if negb (str_truthy line) then st
  else if starts_with (lit "--- Article") line then mk_extract (push_current st) []
  else if starts_with (lit "Page Title:") line || starts_with (lit "URL:") line
          || starts_with (lit "Articles Found:") line || matches_komentar line then st
  else mk_extract (articles st)
         ((if str_truthy (currentArticle st) then currentArticle st ++ [" "%char] else currentArticle st)
          ++ line).

Definition extractArticles (rawText : text) : list text :=
  push_current (foldl extract_step (mk_extract [] []) (split_lines rawText)).

(** [documents: articles.map(article => article.replace(/\s+/g, ' ').trim())] *)
Definition convert_documents (rawData : text) : list text :=
  map (λ a, trim (collapse_ws a)) (extractArticles rawData).

(** ** The file [crawlWebsite] writes *)

Record crawled := mk_crawled { c_title : text; c_link : text; c_content : text }.

(** One element of [articles.map((article, index) => ...)]. *)
Definition crawl_entry (index : nat) (a : crawled) : text :=
  lit "--- Article " ++ nat_to_text (index + 1) ++ lit " ---" ++ nl ++
  lit "Title: " ++ c_title a ++ nl ++
  lit "Link: " ++ c_link a ++ nl ++
  lit "Content: " ++ c_content a ++ nl.

(** The template literal of [crawlWebsite], lines 152-162. *)
Definition crawl_file (url crawledAt : text) (arts : list crawled) : text :=
  lit "Page URL: " ++ url ++ nl ++
  lit "Total Articles Found: " ++ nat_to_text (length arts) ++ nl ++
  lit "Crawled at: " ++ crawledAt ++ nl ++ nl ++
  js_join nl (imap crawl_entry arts).

(** ** The lines of a file *)

(** A field the crawler writes on one line: non-empty, no newline, no
    whitespace at either end. *)
Definition field_ok (f : text) : Prop := f ≠ [] ∧ trim f = f ∧ ascii_of_nat 10 ∉ f.

#[export] Instance field_ok_dec f : Decision (field_ok f).
Proof. unfold field_ok. apply _. Defined.

Definition fields_ok (a : crawled) : Prop :=
  field_ok (c_title a) ∧ field_ok (c_link a) ∧ field_ok (c_content a).

#[export] Instance fields_ok_dec a : Decision (fields_ok a).
Proof. unfold fields_ok. apply _. Defined.

(** What the converter makes of one article of the file. *)
Definition article_doc (a : crawled) : text :=
  lit "Title: " ++ c_title a ++ lit " Link: " ++ c_link a ++ lit " Content: " ++ c_content a.

(** What it makes of the file's header. *)
Definition header_doc (url crawledAt : text) (n : nat) : text :=
  lit "Page URL: " ++ url ++ lit " Total Articles Found: " ++ nat_to_text n ++ lit " Crawled at: " ++ crawledAt.

(** A line that starts with [P] is neither empty, nor a marker, nor
    skipped, whatever follows [P]. *)
Definition content_prefix (P : text) : bool :=
  match P with c :: _ => negb (is_space c) && negb (is_digit c) | [] => false end &&
  forallb (λ m, negb (starts_with m P) && negb (starts_with P m))
    (map lit ["--- Article"; "Page Title:"; "URL:"; "Articles Found:"]).

Lemma split_nl_from_app cur x rest :
  ascii_of_nat 10 ∉ x → split_nl_from cur (x ++ nl ++ rest) = (cur ++ x) :: split_nl_from [] rest.
Proof.
  revert cur. induction x as [|c x IH]; intros cur Hx; cbn.
  - by rewrite app_nil_r.
  - destruct (Ascii.eqb_spec c (ascii_of_nat 10)) as [->|Hc]; [set_solver|].
    rewrite IH by set_solver. by rewrite <-app_assoc.
Qed.

Lemma starts_with_app_false p P f :
  starts_with p P = false → starts_with P p = false → starts_with p (P ++ f) = false.
Proof.
  revert P. induction p as [|a p IH]; intros [|b P]; cbn; try done.
  rewrite (Ascii.eqb_sym b a). destruct (a =? b)%char; cbn; [apply IH|done].
Qed.

Lemma field_ok_last f : field_ok f → ∀ c, last f = Some c → is_space c = false.
Proof. intros (_ & Htrim & _) c. rewrite <-Htrim. apply trim_last. Qed.

Lemma nat_to_text_no_nl n : ascii_of_nat 10 ∉ nat_to_text n.
Proof.
  destruct (nat_to_text_digits n) as [Hd _]. rewrite Forall_forall in Hd.
  intros Hin. by specialize (Hd _ Hin).
Qed.

Lemma split_nl_from_cur cur x rest :
  ascii_of_nat 10 ∉ x → split_nl_from cur (x ++ rest) = split_nl_from (cur ++ x) rest.
Proof.
  revert cur. induction x as [|c x IH]; intros cur Hx; cbn; [by rewrite app_nil_r|].
  destruct (Ascii.eqb_spec c (ascii_of_nat 10)) as [->|Hc]; [set_solver|].
  rewrite IH by set_solver. by rewrite <-app_assoc.
Qed.

Lemma split_nl_from_nl cur rest : split_nl_from cur (nl ++ rest) = cur :: split_nl_from [] rest.
Proof. done. Qed.

Lemma nat_to_text_field_ok n : field_ok (nat_to_text n).
Proof.
  destruct (nat_to_text_digits n) as [Hd Hne]. rewrite Forall_forall in Hd.
  split_and!; [done| |apply nat_to_text_no_nl].
  apply trim_id; intros c Hc; apply digit_not_space, Hd;
    [by apply head_Some_elem_of|by apply last_Some_elem_of].
Qed.

(** [currentArticle] with the separating space [+= ' '] when non-empty. *)
Definition with_space (cur : text) : text :=
  if str_truthy cur then cur ++ [" "%char] else cur.

Lemma extract_step_empty st : extract_step st [] = st.
Proof. done. Qed.

Lemma with_space_nil : with_space [] = [].
Proof. done. Qed.

Lemma with_space_ne cur : cur ≠ [] → with_space cur = cur ++ [" "%char].
Proof. intros H. unfold with_space. by rewrite str_truthy_ne. Qed.

(** A content line [P ++ f] is appended to the current article. *)
Lemma extract_line_content st P f :
  content_prefix P = true → field_ok f →
  extract_step st (P ++ f) = mk_extract (articles st) (with_space (currentArticle st) ++ P ++ f).
Proof.
  intros HP Hf. destruct P as [|c P]; [discriminate|].
  apply andb_prop in HP as [Hc Hm]. apply andb_prop in Hc as [Hsp Hdig].
  apply negb_true_iff in Hsp, Hdig.
  assert (Hs : ∀ m, m ∈ map lit ["--- Article"; "Page Title:"; "URL:"; "Articles Found:"] →
            starts_with m ((c :: P) ++ f) = false).
  { intros m Hin%list_elem_of_In. rewrite forallb_forall in Hm.
    apply Hm, andb_prop in Hin as [H1 H2]. apply negb_true_iff in H1, H2.
    by apply starts_with_app_false. }
  assert (Htrim : trim ((c :: P) ++ f) = (c :: P) ++ f).
  { apply trim_id; [by intros ? [= <-]|]. rewrite last_app_ne by (destruct Hf; done).
    by apply field_ok_last. }
  unfold extract_step. rewrite Htrim, str_truthy_ne by done. cbn [negb].
  rewrite !Hs by set_solver. unfold matches_komentar. cbn [app komentar_from]. by rewrite Hdig.
Qed.

(** The line [--- Article k ---] ends the current article. *)
Lemma extract_line_marker st k :
  extract_step st (lit "--- Article " ++ nat_to_text k ++ lit " ---") = mk_extract (push_current st) [].
Proof.
  assert (Htrim : trim (lit "--- Article " ++ nat_to_text k ++ lit " ---")
                  = lit "--- Article " ++ nat_to_text k ++ lit " ---").
  { apply trim_id; [by intros ? [= <-]|]. rewrite app_assoc, last_app_ne by done. by intros ? [= <-]. }
  unfold extract_step. rewrite Htrim, str_truthy_ne by done. done.
Qed.

Lemma not_elem_of_existsb (c : ascii) (l : text) : existsb (λ d, (d =? c)%char) l = false → c ∉ l.
Proof.
  induction l as [|d l IH]; cbn; [set_solver|]. intros [Hd Hl]%orb_false_elim.
  rewrite elem_of_cons. intros [->|Hin]; [by rewrite Ascii.eqb_refl in Hd|by apply IH].
Qed.

Ltac nl_free :=
  first [ assumption | apply nat_to_text_no_nl | (apply not_elem_of_existsb; vm_compute; reflexivity) ].
Ltac split_lines_step := first [ rewrite split_nl_from_nl | rewrite split_nl_from_cur by nl_free ].

(** The four lines of one entry of the file. *)
Lemma split_entry i a rest :
  fields_ok a →
  split_nl_from [] (crawl_entry i a ++ rest) =
    [lit "--- Article " ++ nat_to_text (i + 1) ++ lit " ---"; lit "Title: " ++ c_title a;
     lit "Link: " ++ c_link a; lit "Content: " ++ c_content a] ++ split_nl_from [] rest.
Proof.
  intros ((?&?&?) & (?&?&?) & (?&?&?)). unfold crawl_entry. rewrite <-!app_assoc.
  repeat split_lines_step. by rewrite <-!app_assoc.
Qed.

Lemma article_doc_trim a : fields_ok a → trim (article_doc a) = article_doc a.
Proof.
  intros (_ & _ & Hc). apply trim_id; [by intros ? [= <-]|].
  unfold article_doc. rewrite !app_assoc, last_app_ne by (destruct Hc; done).
  by apply field_ok_last.
Qed.

(** The four lines of an entry make one article out of the next one. *)
Lemma extract_entry st i a :
  fields_ok a →
  foldl extract_step st
    [lit "--- Article " ++ nat_to_text (i + 1) ++ lit " ---"; lit "Title: " ++ c_title a;
     lit "Link: " ++ c_link a; lit "Content: " ++ c_content a]
  = mk_extract (push_current st) (article_doc a).
Proof.
  intros (Ht & Hl & Hc). cbn [foldl]. rewrite extract_line_marker.
  rewrite !extract_line_content by (done || reflexivity). cbn [articles currentArticle].
  rewrite with_space_nil, app_nil_l, !with_space_ne by (intros [Hx _]%app_eq_nil; discriminate).
  unfold article_doc. by rewrite <-!app_assoc.
Qed.

Lemma push_current_article arts a :
  fields_ok a → push_current (mk_extract arts (article_doc a)) = arts ++ [article_doc a].
Proof.
  intros Ha. unfold push_current. cbn [currentArticle articles].
  rewrite str_truthy_ne by (intros [Hx _]%app_eq_nil; discriminate). by rewrite article_doc_trim.
Qed.

(** The entries of the file, from any state of the loop: each entry adds
    its article, after the article being built. *)
Lemma extract_entries st g arts :
  Forall fields_ok arts →
  push_current (foldl extract_step st
    (split_nl_from [] (js_join nl (imap (λ i a, crawl_entry (g i) a) arts))))
  = push_current st ++ map article_doc arts.
Proof.
  revert st g. induction arts as [|a arts IH]; intros st g Hok.
  { cbn. by rewrite app_nil_r. }
  apply Forall_cons in Hok as [Ha Hok]. rewrite imap_cons.
  destruct arts as [|b arts].
  - cbn [imap js_join]. rewrite <-(app_nil_r (crawl_entry _ a)), split_entry, foldl_app, extract_entry by done.
    cbn [split_nl_from foldl]. by rewrite extract_step_empty, push_current_article.
  - rewrite join_cons by (by rewrite imap_cons).
    rewrite split_entry, foldl_app, extract_entry, split_nl_from_nl by done. cbn [foldl].
    rewrite extract_step_empty.
    rewrite (IH _ (λ i, g (S i))) by done. by rewrite push_current_article, <-app_assoc.
Qed.

(** The header lines of the file. *)
Lemma split_header url crawledAt arts :
  field_ok url → field_ok crawledAt →
  split_nl_from [] (crawl_file url crawledAt arts) =
    [lit "Page URL: " ++ url; lit "Total Articles Found: " ++ nat_to_text (length arts);
     lit "Crawled at: " ++ crawledAt; []] ++ split_nl_from [] (js_join nl (imap crawl_entry arts)).
Proof.
  intros (?&?&?) (?&?&?). unfold crawl_file. rewrite <-?app_assoc.
  repeat split_lines_step. by rewrite <-!app_assoc.
Qed.

(** The header lines make one article. *)
Lemma extract_header url crawledAt n :
  field_ok url → field_ok crawledAt →
  foldl extract_step (mk_extract [] [])
    [lit "Page URL: " ++ url; lit "Total Articles Found: " ++ nat_to_text n;
     lit "Crawled at: " ++ crawledAt; []]
  = mk_extract [] (header_doc url crawledAt n).
Proof.
  intros Hu Ht. pose proof (nat_to_text_field_ok n). cbn [foldl].
  rewrite !extract_line_content by (done || reflexivity). rewrite extract_step_empty. cbn [articles currentArticle].
  rewrite with_space_nil, app_nil_l, !with_space_ne by (intros [Hx _]%app_eq_nil; discriminate).
  unfold header_doc. by rewrite <-!app_assoc.
Qed.

Lemma push_current_header url crawledAt n :
  field_ok crawledAt →
  push_current (mk_extract [] (header_doc url crawledAt n)) = [header_doc url crawledAt n].
Proof.
  intros Ht. unfold push_current. cbn [currentArticle articles].
  rewrite str_truthy_ne by (intros [Hx _]%app_eq_nil; discriminate).
  rewrite trim_id; [done|by intros ? [= <-]|].
  unfold header_doc. rewrite !app_assoc, last_app_ne by (destruct Ht; done). by apply field_ok_last.
Qed.

(** C32. What the converter extracts from a file the crawler wrote: the
    file's header ([Page URL], [Total Articles Found], [Crawled at]) comes
    out as a first document, because the lines [extractArticles] skips
    ([Page Title:], [URL:], [Articles Found:]) are not the lines the crawler
    writes; then one document per article, its [Title:], [Link:] and
    [Content:] lines joined with spaces, labels included. *)
Theorem extractArticles_crawl_file url crawledAt arts :
  field_ok url → field_ok crawledAt → Forall fields_ok arts →
  extractArticles (crawl_file url crawledAt arts)
  = header_doc url crawledAt (length arts) :: map article_doc arts.
Proof.
  intros Hu Ht Harts. unfold extractArticles, split_lines.
  rewrite split_header, foldl_app, extract_header by done.
  rewrite (extract_entries _ (λ i, i)) by done. by rewrite push_current_header.
Qed.

Lemma extractArticles_crawl_file_witness :
  let url := lit "https://www.detik.com/" in
  let at_ := lit "2025-01-10T13:56:25.601Z" in
  let arts := [mk_crawled (lit "Banjir di Jakarta") (lit "https://news.detik.com/berita/d-1")
                          (lit "Hujan deras sejak pagi.")] in
  field_ok url ∧ field_ok at_ ∧ Forall fields_ok arts ∧
  extractArticles (crawl_file url at_ arts) = header_doc url at_ (length arts) :: map article_doc arts.
Proof.
  cbv zeta. split_and!; [decide_by_eval..|].
  apply extractArticles_crawl_file; decide_by_eval.
Defined.

End Convert.
