(* ===== verification/Crawler.v ===== *)
(** * The crawler: crawler.js

    [crawlWebsite] reads the article elements of one page, keeps those
    with a title and a link, fetches every article's content concurrently
    ([Promise.all]) and writes the text file [Convert.crawl_file]
    describes.  cheerio's DOM is an oracle: the elements a selector
    matches, and for each element what [find(sel).first()] gives; so is
    [new URL(link, url)], which may throw, ending the loops and the
    crawl.  The article fetches are issued in document order; each pushes
    its article when it resolves, so the order of the file is the order
    of completion, an explicit argument here. *)

From S2P Require Import Prelude Text Scraper Convert.
Open Scope rag_scope.

Module Crawler.
Import Text Scraper Convert.

(** ** [fetchArticleContent(url)] *)

(** Its selectors differ from the scraper's. *)
Definition crawler_content_selectors : list text :=
  map lit ["div.detail__body-text"; "div.itp_bodycontent"; "div.article-content"; "div.content-text"; "article"].

(** One [axios.get] (no retry); the first matching selector's text,
    cleaned; [''] when nothing matches or the request fails. *)
Definition fetchArticleContent (texts : text → text → list text) (url : text) : M net text :=
  catch (let* page := axios_get url in ret (find_content crawler_content_selectors (texts page)))
        (λ _, ret []).

(** ** The article elements of the main page *)

(** An element of the page: [$element.find(sel).first()], as its text and
    its [href] attribute, or [None] when nothing matches. *)
Record element := mk_element { el_find : text → option (text * option text) }.

Definition titleSelectors : list text := map lit ["h1"; "h2"; "h3"; ".title"; ".article-title"].
Definition linkSelectors : list text := map lit ["a"; "a.article-link"; "a.title-link"].
Definition articleSelectors : list text :=
  map lit ["article"; ".article-box"; ".news-item"; ".l_content article"] ++
  [lit "[data-component-name=" ++ [ascii_of_nat 34] ++ lit "newsfeed-item" ++ [ascii_of_nat 34] ++ lit "]"].

(** [for (const s of selectors) { const e = find(s).first(); if (e.length > 0) { ...; break; } }] *)
Fixpoint first_match (el : element) (sels : list text) : option (text * option text) :=
  match sels with
  | [] => None
  | s :: ss => match el_find el s with Some r => Some r | None => first_match el ss end
  end.

Section candidates.
(** [new URL(articleLink, url).toString()]; [None] when [new URL] throws
    (the link and the base do not make a valid URL). *)
Variable resolve : text → text → option text.

(** [articleTitle] and [articleLink] of one element; [undefined] (an
    element without [href]) is [''] here, both being falsy. *)
Definition element_title (el : element) : text :=
  match first_match el titleSelectors with Some (t, _) => trim t | None => [] end.

Definition element_link (url : text) (el : element) : js_error + text :=
  match first_match el linkSelectors with
  | Some (_, Some l) =>
      if str_truthy l && negb (starts_with (lit "http") l)
      then match resolve l url with Some r => inr r | None => inl TypeError end
      else inr l
  | _ => inr []
  end.

(** The body of the [.each] callback: [if (articleTitle && articleLink)]
    the element gives a fetch; an invalid link throws out of the loops. *)
Definition candidate (url : text) (el : element) : js_error + option (text * text) :=
  let t := element_title el in
  match element_link url el with
  | inl e => inl e
  | inr l => inr (if str_truthy t && str_truthy l then Some (t, l) else None)
  end.

(** The callbacks over the elements, in order: the candidates met before
    the first exception, and that exception. *)
Fixpoint scan (url : text) (els : list element) : list (text * text) * option js_error :=
  match els with
  | [] => ([], None)
  | el :: els' =>
      match candidate url el with
      | inl e => ([], Some e)
      | inr o => let r := scan url els' in
                 (match o with Some c => c :: r.1 | None => r.1 end, r.2)
      end
  end.
End candidates.

(** [for (const selector of articleSelectors) $(selector).each(...)]: the
    elements each selector matches, in selector then document order. *)
Definition article_elements (elements : text → list element) : list element :=
  concat (map elements articleSelectors).

(** ** [crawlWebsite(url)] *)

(** The fetches, issued in order; each result is the content. *)
Fixpoint fetch_all (texts : text → text → list text) (cands : list (text * text)) : M net (list text) :=
  match cands with
  | [] => ret []
  | c :: cs => let* x := fetchArticleContent texts c.2 in
               let* xs := fetch_all texts cs in ret (x :: xs)
  end.

(** [.then(content => { if (content) articles.push({title, link, content}) })] *)
Definition kept (cands : list (text * text)) (contents : list text) : list crawled :=
  omap (λ cc, if str_truthy cc.2 then Some (mk_crawled cc.1.1 cc.1.2 cc.2) else None) (zip cands contents).

(** The pushes in the order the fetches complete: [order] lists the kept
    articles by position, first completed first. *)
Definition in_order {A} (order : list nat) (xs : list A) : list A := omap (λ i, xs !! i) order.

(** The text [crawlWebsite] writes.  The main page's fetch failing, or an
    invalid link throwing in the loops (after the fetches of the
    candidates before it were issued), is rethrown.  [fs.mkdir], the file
    name and [fs.writeFile] are I/O. *)
Definition crawlWebsite (resolve : text → text → option text) (elements : text → text → list element)
    (texts : text → text → list text) (order : list nat) (crawledAt : text) (url : text) : M net text :=
  let* page := axios_get url in
  let r := scan resolve url (article_elements (elements page)) in
  let* contents := fetch_all texts r.1 in
  match r.2 with
  | Some e => throw e
  | None => ret (crawl_file url crawledAt (in_order order (kept r.1 contents)))
  end.

(** What one fetch of [fetchArticleContent] yields for the reply it
    gets: the cleaned content of a page, [''] for an error or no reply. *)
Definition reply_content (texts : text → text → list text) (r : option (js_error + text)) : text :=
  match r with Some (inr p) => find_content crawler_content_selectors (texts p) | _ => [] end.

(** ** Properties *)

Lemma str_truthy_true (s : text) : str_truthy s = true → s ≠ [].
Proof. intros H ->. discriminate. Qed.

(** Every candidate has a non-empty title and link. *)
Lemma scan_nonempty resolve url els c :
  c ∈ (scan resolve url els).1 → c.1 ≠ [] ∧ c.2 ≠ [].
Proof.
  induction els as [|el els IH]; cbn; [by intros ?%elem_of_nil|].
  destruct (candidate resolve url el) as [e|o] eqn:Hc; cbn; [by intros ?%elem_of_nil|].
  destruct o as [c'|]; [|done]. intros [->|]%elem_of_cons; [|auto].
  unfold candidate in Hc. destruct (element_link _ _ _) as [|l]; [done|].
  destruct (str_truthy (element_title el)) eqn:Ht, (str_truthy l) eqn:Hl; cbn in Hc; simplify_eq.
  split; by apply str_truthy_true.
Qed.

(** When no link is invalid, the loops run to the end. *)
Lemma scan_ok resolve url els :
  (∀ el, el ∈ els → ∃ o, candidate resolve url el = inr o) →
  scan resolve url els = (omap (λ el, from_inr None (candidate resolve url el)) els, None).
Proof.
  induction els as [|el els IH]; intros Hok; [done|]. cbn.
  destruct (Hok el (list_elem_of_here _ _)) as [o ->]. cbn.
  rewrite IH by (intros el' ?; apply Hok; by right). by destruct o.
Qed.

Lemma fetch_all_ok texts cands n :
  ∃ contents n', fetch_all texts cands n = (inr contents, n') ∧ length contents = length cands.
Proof.
  revert n. induction cands as [|c cs IH]; intros n; cbn [fetch_all]; [by do 2 eexists|].
  rewrite run_bind. unfold fetchArticleContent at 1, catch, bind at 1.
  destruct (axios_get c.2 n) as [[e|page] n1]; cbn;
    destruct (IH n1) as (xs & n2 & Hrun & Hlen); rewrite run_bind, Hrun; cbn;
    do 2 eexists; (split; [reflexivity|]); cbn; lia.
Qed.

(** The kept articles are candidates, in their order, with content. *)
Lemma kept_cons c cs x xs :
  kept (c :: cs) (x :: xs) =
    (if str_truthy x then [mk_crawled c.1 c.2 x] else []) ++ kept cs xs.
Proof. unfold kept. cbn. by destruct (str_truthy x). Qed.

Lemma kept_spec cands contents :
  map (λ a, (c_title a, c_link a)) (kept cands contents) `sublist_of` cands ∧
  ∀ a, a ∈ kept cands contents → c_content a ≠ [].
Proof.
  revert contents. induction cands as [|c cs IH]; intros [|x xs];
    try (split; [apply sublist_nil_l|set_solver]).
  destruct (IH xs) as [Hsub Hne]. rewrite kept_cons. destruct (str_truthy x) eqn:Hx; cbn [app].
  - split; [destruct c; by apply sublist_skip|].
    intros a [->|?]%elem_of_cons; [by apply str_truthy_true|auto].
  - split; [by apply sublist_cons|auto].
Qed.

Lemma omap_S_seq {A} (f : nat → option A) (l : list nat) : omap f (S <$> l) = omap (f ∘ S) l.
Proof. induction l as [|i l IH]; [done|]. cbn. rewrite IH. done. Qed.

Lemma in_order_seq {A} (xs : list A) : in_order (seq 0 (length xs)) xs = xs.
Proof.
  unfold in_order. induction xs as [|x xs IH]; [done|]. cbn [length seq].
  rewrite <-fmap_S_seq. simpl. f_equal. etrans; [apply omap_S_seq|]. exact IH.
Qed.

(** Whatever order the fetches complete in, the file lists the same
    articles. *)
Lemma in_order_perm {A} (order : list nat) (xs : list A) :
  order ≡ₚ seq 0 (length xs) → in_order order xs ≡ₚ xs.
Proof. intros Ho. unfold in_order. rewrite Ho. by rewrite <-(in_order_seq xs) at 2. Qed.

Lemma run_fetchArticleContent texts url n :
  fetchArticleContent texts url n =
    (inr (reply_content texts (head (n_replies n))),
     mk_net (drop 1 (n_replies n)) (n_requests n ++ [url]) (n_sleeps n)).
Proof. destruct n as [[|[e|p] rs] reqs sl]; done. Qed.

(** The fetches take the next replies, one per candidate, in order. *)
Lemma fetch_all_run texts cands rs reqs sl :
  fetch_all texts cands (mk_net rs reqs sl) =
    (inr (map (λ i, reply_content texts (rs !! i)) (seq 0 (length cands))),
     mk_net (drop (length cands) rs) (reqs ++ map snd cands) sl).
Proof.
  revert rs reqs. induction cands as [|c cs IH]; intros rs reqs; [by rewrite app_nil_r|].
  cbn [fetch_all]. rewrite run_bind, run_fetchArticleContent. cbn [n_replies n_requests n_sleeps].
  rewrite run_bind, IH. cbn. rewrite drop_drop, <-app_assoc.
  assert (Hm : map (λ i, reply_content texts (drop 1 rs !! i)) (seq 0 (length cs))
               = map (λ i, reply_content texts (rs !! i)) (seq 1 (length cs))).
  { rewrite <-fmap_S_seq, <-list_fmap_compose. apply list_fmap_ext. intros k i _. cbn.
    by rewrite lookup_drop. }
  rewrite Hm. unfold ret. by destruct rs.
Qed.

(** C33. When the page is fetched, [crawlWebsite] issues the fetches of
    the candidate articles of the page, in document order, each taking
    the next reply.  Unless an invalid link threw in the loops (then that
    exception is rethrown, after the fetches of the candidates before
    it), it writes, in the order the fetches completed, exactly the
    candidates whose fetched content is not empty, with that content;
    each has a title, a link and content. *)
Theorem crawlWebsite_spec resolve elements texts order crawledAt url page rs reqs sl :
  let r := scan resolve url (article_elements (elements page)) in
  let contents := map (λ i, reply_content texts (rs !! i)) (seq 0 (length r.1)) in
  crawlWebsite resolve elements texts order crawledAt url (mk_net (inr page :: rs) reqs sl)
    = (match r.2 with
       | Some e => inl e
       | None => inr (crawl_file url crawledAt (in_order order (kept r.1 contents)))
       end,
       mk_net (drop (length r.1) rs) (reqs ++ url :: map snd r.1) sl)
  ∧ (∀ a, a ∈ kept r.1 contents → c_title a ≠ [] ∧ c_link a ≠ [] ∧ c_content a ≠ []).
Proof.
  intros r contents. split.
  - unfold crawlWebsite. rewrite run_bind, run_axios_get. cbn [n_replies drop n_requests n_sleeps].
    rewrite drop_0, run_bind, fetch_all_run, <-app_assoc. fold r. by destruct r.2.
  - destruct (kept_spec r.1 contents) as [Hsub Hne]. intros a Ha.
    assert (Hc : (c_title a, c_link a) ∈ r.1).
    { eapply elem_of_sublist; [|exact Hsub]. apply list_elem_of_fmap. eauto. }
    apply scan_nonempty in Hc as [??]. auto.
Qed.

(** A one-element list is a sublist of any list holding its element. *)
Lemma sublist_singleton_elem {A} (x : A) l : x ∈ l → [x] `sublist_of` l.
Proof.
  intros (l1 & l2 & ->)%list_elem_of_split. apply sublist_inserts_l, sublist_skip, sublist_nil_l.
Qed.

(** C34. Nothing removes duplicates: when no link of the page is invalid,
    an article element matched both by [article] and by
    [.l_content article] (an [<article>] inside [.l_content]) is a
    candidate twice, so it is fetched twice and, when it has content,
    written twice. *)
Theorem crawlWebsite_duplicates resolve url (elements : text → list element) el c :
  (∀ el', el' ∈ article_elements elements → ∃ o, candidate resolve url el' = inr o) →
  el ∈ elements (lit "article") → el ∈ elements (lit ".l_content article") →
  candidate resolve url el = inr (Some c) →
  [c; c] `sublist_of` (scan resolve url (article_elements elements)).1.
Proof.
  intros Hok H1 H4 Hc. rewrite scan_ok by done. cbn [fst]. unfold article_elements, articleSelectors.
  rewrite fmap_app. cbn [fmap list_fmap map concat]. rewrite concat_app. cbn [concat].
  rewrite <-!app_assoc, !omap_app. change [c; c] with ([c] ++ [c]). apply sublist_app.
  - apply sublist_singleton_elem, list_elem_of_omap. exists el. by rewrite Hc.
  - do 2 apply sublist_inserts_l. apply sublist_singleton_elem, elem_of_app. left.
    apply list_elem_of_omap. exists el. by rewrite Hc.
Qed.

Section duplicate.
Definition dup_element : element :=
  mk_element (λ s, if bool_decide (s = lit "h2") then Some (lit "Banjir", None)
                   else if bool_decide (s = lit "a") then Some (lit "Banjir", Some (lit "/berita/d-1"))
                   else None).
Definition dup_elements : text → list element :=
  λ sel, if bool_decide (sel = lit "article") || bool_decide (sel = lit ".l_content article")
         then [dup_element] else [].
Definition dup_resolve : text → text → option text := λ l base, Some (base ++ l).

Lemma crawlWebsite_duplicates_witness :
  let c := (lit "Banjir", lit "https://www.detik.com/berita/d-1") in
  [c; c] `sublist_of` (scan dup_resolve (lit "https://www.detik.com") (article_elements dup_elements)).1.
Proof.
  apply (crawlWebsite_duplicates dup_resolve (lit "https://www.detik.com") dup_elements dup_element).
  - vm_compute. intros el' Hel. inversion Hel as [|? ? ? Hel']; subst; [by eexists|].
    inversion Hel' as [|? ? ? Hel'']; subst; [by eexists|]. inversion Hel''.
  - vm_compute. left.
  - vm_compute. left.
  - vm_compute. reflexivity.
Defined.
End duplicate.

End Crawler.
