(* ===== verification/Chunker.v ===== *)
(** * Chunker: [splitIntoChunks] of rag.js

    The sentence split [cleanText.split(/[.!?]+/)], the greedy loop over
    the sentences with its [chunks]/[currentChunk] state, and the final
    flush.  A reference definition, [group_from], states the grouping as a
    recursive function on the list of non-empty sentences; the loop is
    proved equal to it, and the content, order and size properties are
    proved on the reference. *)

From S2P Require Import Prelude Text.
Open Scope rag_scope.

Module Chunker.
Import Text.

(** [const CHUNK_SIZE = 1000] *)
Definition CHUNK_SIZE : nat := 1000.

(** [[.!?]] *)
Definition is_delim (c : ascii) : bool :=
  (c =? ".")%char || (c =? "!")%char || (c =? "?")%char.

(** The separator [". "] the loop puts between two sentences. *)
Definition sep : text := ["."; " "]%char.

(** Prepend a character to the first segment of a split. *)
Definition cons_head (c : ascii) (segs : list text) : list text :=
  match segs with
  | seg :: rest => (c :: seg) :: rest
  | [] => [[c]]
  end.

(** [s.split(/[.!?]+/)]: a run of delimiters is one separator; [in_run]
    is set right after a delimiter.  A leading or trailing run gives an
    empty first or last segment, as in JavaScript. *)
Fixpoint split_sentences_from (in_run : bool) (s : text) : list text :=
  match s with
  | [] => [[]]
  | c :: t =>
      if is_delim c then
        if in_run then split_sentences_from true t else [] :: split_sentences_from true t
      else cons_head c (split_sentences_from false t)
  end.
Definition split_sentences (s : text) : list text := split_sentences_from false s.

(** The loop's two variables. *)
Record chunk_state := mk_chunk_state { chunks : list text; currentChunk : text }.

(** One iteration of [for (const sentence of sentences)]. *)
Definition chunk_step (size : nat) (st : chunk_state) (sentence : text) : chunk_state :=
  let trimmedSentence := trim sentence in
  if negb (str_truthy trimmedSentence) then st
  else if length (currentChunk st) + length trimmedSentence + 1 <=? size then
    mk_chunk_state (chunks st)
      (currentChunk st ++ (if str_truthy (currentChunk st) then sep else [])
                       ++ trimmedSentence)
  else
    mk_chunk_state
      (if str_truthy (currentChunk st) then chunks st ++ [currentChunk st ++ ["."%char]]
       else chunks st)
      trimmedSentence.

(** [if (currentChunk) chunks.push(currentChunk + '.'); return chunks;] *)
Definition flush (st : chunk_state) : list text :=
  if str_truthy (currentChunk st) then chunks st ++ [currentChunk st ++ ["."%char]]
  else chunks st.

(** [splitIntoChunks(text, size)] *)
Definition splitIntoChunks (s : text) (size : nat) : list text :=
  let cleanText := preprocessText s in
  flush (fold_left (chunk_step size) (split_sentences cleanText) (mk_chunk_state [] [])).

(** ** Reference grouping *)

(** The sentences the loop keeps: trimmed, empty ones dropped. *)
Definition segments (s : text) : list text :=
  filter (λ x, x ≠ []) (map trim (split_sentences (preprocessText s))).

(** A chunk is its sentences joined with [". "] and a final ["."]. *)
Definition render (g : list text) : text := js_join sep g ++ ["."%char].

(** Greedy grouping: [cur] is the group being built. *)
Fixpoint group_from (size : nat) (cur : list text) (segs : list text) : list (list text) :=
  match segs with
  | [] => match cur with [] => [] | _ => [cur] end
  | x :: rest =>
      if length (js_join sep cur) + length x + 1 <=? size
      then group_from size (cur ++ [x]) rest
      else match cur with [] => [] | _ => [cur] end ++ group_from size [x] rest
  end.

(** ** Lemmas on the loop and the reference *)

Abbreviation nonempty := (Forall (λ x : text, x ≠ [])).

Lemma join_sep_nil (cur : list text) : nonempty cur → js_join sep cur = [] ↔ cur = [].
Proof.
  intros Hne. split; [|by intros ->].
  destruct cur as [|x [|y l]]; intros H; [done| |]; simpl in H.
  - inversion Hne. congruence.
  - unfold sep in H. by destruct x.
Qed.

(** The state after the sentences already read: the chunks emitted so far
    render the closed groups [done], [currentChunk] renders the open one. *)
Lemma fold_chunk_step size (sents : list text) (done : list (list text)) (cur : list text) :
  nonempty cur →
  flush (fold_left (chunk_step size) sents (mk_chunk_state (map render done) (js_join sep cur)))
  = map render (done ++ group_from size cur (filter (λ x, x ≠ []) (map trim sents))).
Proof.
  revert done cur. induction sents as [|x sents IH]; intros done cur Hcur.
  - unfold flush; cbn. destruct cur as [|y cur]; [by rewrite app_nil_r|].
    rewrite str_truthy_ne by (rewrite join_sep_nil; done). by rewrite map_app.
  - cbn [fold_left map]. unfold chunk_step at 2.
    destruct (decide (trim x = [])) as [Hx|Hx].
    { rewrite filter_cons_False by auto. rewrite Hx. cbn. by apply IH. }
    rewrite filter_cons_True by done. rewrite str_truthy_ne by done. cbn [negb group_from chunks currentChunk].
    destruct (_ <=? size) eqn:Hle.
    + replace (js_join sep cur ++ (if str_truthy (js_join sep cur) then sep else []) ++ trim x)
        with (js_join sep (cur ++ [trim x])).
      * apply IH. apply Forall_app. auto.
      * destruct cur as [|y cur]; [done|].
        rewrite str_truthy_ne by (rewrite join_sep_nil; done). by apply join_app_single.
    + destruct cur as [|y cur].
      * apply (IH done [trim x]). auto.
      * rewrite str_truthy_ne by (rewrite join_sep_nil; done).
        replace (map render done ++ [js_join sep (y :: cur) ++ ["."%char]])
          with (map render (done ++ [y :: cur])) by (by rewrite map_app).
        rewrite (IH _ [trim x]) by auto. by rewrite <-app_assoc.
Qed.

Lemma concat_group_from size (cur segs : list text) :
  concat (group_from size cur segs) = cur ++ segs.
Proof.
  revert cur. induction segs as [|x segs IH]; intros cur; cbn.
  - destruct cur; cbn; by rewrite ?app_nil_r.
  - destruct (_ <=? size).
    + rewrite IH. by rewrite <-app_assoc.
    + rewrite concat_app, IH. destruct cur; cbn; by rewrite ?app_nil_r.
Qed.

Lemma group_from_nonempty size (cur segs : list text) :
  Forall (λ g, g ≠ []) (group_from size cur segs).
Proof.
  revert cur. induction segs as [|x segs IH]; intros cur; cbn.
  - destruct cur; auto.
  - destruct (_ <=? size); [done|]. apply Forall_app. split; [|done]. destruct cur; auto.
Qed.

(** A group of two sentences or more is at most [size + 1] characters
    before its final dot. *)
Lemma group_from_bound size (cur segs : list text) :
  (2 ≤ length cur → length (js_join sep cur) ≤ size + 1) →
  Forall (λ g, 2 ≤ length g → length (js_join sep g) ≤ size + 1) (group_from size cur segs).
Proof.
  revert cur. induction segs as [|x segs IH]; intros cur Hcur; cbn.
  - destruct cur; auto.
  - destruct (_ <=? size) eqn:Hle.
    + apply IH. intros Hlen. apply Nat.leb_le in Hle.
      destruct cur as [|y cur]; [simpl in Hlen; lia|].
      rewrite join_app_single, !length_app by done. change (length sep) with 2. lia.
    + apply Forall_app. split; [destruct cur; auto|]. apply IH. simpl; lia.
Qed.

(** ** Properties of [splitIntoChunks] *)

Lemma splitIntoChunks_groups (s : text) (size : nat) :
  splitIntoChunks s size = map render (group_from size [] (segments s)).
Proof.
  unfold splitIntoChunks, segments.
  rewrite <-(app_nil_l (group_from _ _ _)), <-(fold_chunk_step size _ [] []) by constructor.
  done.
Qed.

(** C1. The loop of [splitIntoChunks] computes the greedy grouping: the
    chunks are the groups of [group_from], rendered. *)
Theorem splitIntoChunks_spec (s : text) (size : nat) :
  splitIntoChunks s size = map render (group_from size [] (segments s)).
Proof. apply splitIntoChunks_groups. Qed.

(** C2. No content is dropped, duplicated or reordered: the chunks are the
    non-empty trimmed sentences of the normalized text, in order, grouped
    into non-empty groups, each joined with [". "] and closed by ["."]. *)
Theorem splitIntoChunks_content (s : text) (size : nat) :
  ∃ groups, splitIntoChunks s size = map render groups
          ∧ concat groups = segments s
          ∧ Forall (λ g, g ≠ []) groups.
Proof.
  exists (group_from size [] (segments s)). split_and!.
  - apply splitIntoChunks_groups.
  - by rewrite concat_group_from.
  - apply group_from_nonempty.
Qed.

(** C3. Every chunk is at most [size + 2] characters long, or is one
    sentence of the text followed by ["."].  (The loop tests
    [currentChunk.length + sentence.length + 1 <= size] but then adds
    two characters of separator and, at the flush, one final dot.) *)
Theorem splitIntoChunks_bound (s : text) (size : nat) (c : text) :
  c ∈ splitIntoChunks s size →
  length c ≤ size + 2 ∨ ∃ x, x ∈ segments s ∧ c = x ++ ["."%char].
Proof.
  rewrite splitIntoChunks_groups. intros (g & -> & Hg)%list_elem_of_fmap.
  pose proof (proj1 (Forall_forall _ _) (group_from_bound size [] (segments s) ltac:(simpl; lia)) g Hg) as Hb.
  pose proof (proj1 (Forall_forall _ _) (group_from_nonempty size [] (segments s)) g Hg) as Hne.
  destruct g as [|x [|y g]]; [done| |].
  - right. exists x. split; [|done].
    pose proof (concat_group_from size [] (segments s)) as Hc. simpl in Hc.
    rewrite <-Hc, list_elem_of_In. apply in_concat.
    exists [x]. split; [by apply list_elem_of_In | by left].
  - left. unfold render. rewrite length_app. simpl length at 2. specialize (Hb ltac:(simpl; lia)). lia.
Qed.

Lemma splitIntoChunks_bound_witness :
  let c := String.list_ascii_of_string "ab. cd." in
  c ∈ splitIntoChunks (String.list_ascii_of_string "ab. cd") 5 ∧
  (length c ≤ 5 + 2 ∨ ∃ x, x ∈ segments (String.list_ascii_of_string "ab. cd") ∧ c = x ++ ["."%char]).
Proof. split; [vm_compute; left | apply splitIntoChunks_bound; vm_compute; left]. Defined.

Lemma segments_nonempty (s x : text) : x ∈ segments s → x ≠ [].
Proof. unfold segments. by intros [? _]%list_elem_of_filter. Qed.

(** C4. The bound of C3 is reached, so the spec's "every chunk is at most
    maxSize unless one sentence alone exceeds it" does not hold: for
    every text of two sentences [x] and [y] with
    [length x + length y + 1 = size], each sentence is shorter than
    [size], both pass the loop's test together, and the one chunk
    ["x. y."] is [size + 2] characters long. *)
Theorem splitIntoChunks_exceeds_size (s : text) (size : nat) (x y : text) :
  segments s = [x; y] → length x + length y + 1 = size →
  splitIntoChunks s size = [x ++ sep ++ y ++ ["."%char]]
  ∧ length (x ++ sep ++ y ++ ["."%char]) = size + 2
  ∧ length x < size ∧ length y < size.
Proof.
  intros Hs Hsize.
  assert (x ≠ [] ∧ y ≠ []) as [Hx Hy]
    by (split; apply (segments_nonempty s); rewrite Hs; set_solver).
  assert (0 < length x ∧ 0 < length y) as [??]
    by (split; [destruct x|destruct y]; cbn; (done || lia)).
  rewrite splitIntoChunks_groups, Hs. simpl.
  rewrite !(proj2 (Nat.leb_le _ size)) by lia.
  split_and!; [cbn; by rewrite <-!app_assoc|rewrite !length_app; simpl; rewrite ?length_app; simpl; lia|lia|lia].
Qed.

Lemma splitIntoChunks_exceeds_size_witness :
  splitIntoChunks (lit "ab. cd") 5 = [lit "ab. cd."].
Proof.
  destruct (splitIntoChunks_exceeds_size (lit "ab. cd") 5 (lit "ab") (lit "cd")
              ltac:(vm_compute; reflexivity) ltac:(reflexivity)) as [H _].
  exact H.
Defined.

End Chunker.
