(* ===== verification/Ollama.v ===== *)
(** * EmbeddingClient and GenerationClient: the Ollama calls of rag.js

    [getEmbedding] (the POST to [/api/embeddings] and its response check)
    and the generation half of [askQuestion] (the prompt template, the POST
    to [/api/generate], the read of [result.response]).  Both are written
    against an abstract [fetch] effect, a [Section] variable: the functional
    behaviour on every branch holds whatever the service answers. *)

From S2P Require Import Prelude.
Open Scope rag_scope.

Module Ollama.

#[local] Set Warnings "-register-all".

(** ** JSON values and HTTP responses *)

(** The values [response.json()] produces.  Numbers are kept as integers:
    the program never computes on them, it only passes them on. *)
Inductive json : Type :=
  | JNull
  | JBool (b : bool)
  | JNum (n : Z)
  | JStr (s : text)
  | JArr (xs : list json)
  | JObj (fields : list (string * json)).

(** A [fetch] [Response]: its status and its body, [None] when the body is
    not valid JSON. *)
Record http_response := mk_response { status : Z; body : option json }.

(** [response.ok] *)
Definition resp_ok (r : http_response) : bool :=
  (200 <=? status r)%Z && (status r <=? 299)%Z.

(** The value of key [k] in an object literal: [JSON.parse] keeps the last
    of duplicate keys. *)
Fixpoint assoc_last (fs : list (string * json)) (k : string) : option json :=
  match fs with
  | [] => None
  | (k', v) :: fs' =>
      match assoc_last fs' k with
      | Some w => Some w
      | None => if bool_decide (k = k') then Some v else None
      end
  end.

(** JavaScript truthiness of a property read ([None] is [undefined]). *)
Definition truthy (o : option json) : bool :=
  match o with
  | None | Some JNull | Some (JBool false) | Some (JNum 0) | Some (JStr []) => false
  | _ => true
  end.

(** [Array.isArray] *)
Definition is_array (o : option json) : bool :=
  match o with Some (JArr _) => true | _ => false end.

(** [String(v)] as [Array.prototype.join] applies it to an element:
    [null] and [undefined] give the empty string, arrays are joined with
    [","], objects print as ["[object Object]"]. *)
Definition Z_to_text (n : Z) : text :=
  String.list_ascii_of_string
    (match n with
     | Zneg p => "-" +:+ pretty (Npos p)
     | _ => pretty (Z.to_N n)
     end).

Fixpoint js_to_string (v : json) : text :=
  match v with
  | JNull => []
  | JBool b => String.list_ascii_of_string (if b then "true" else "false")
  | JNum n => Z_to_text n
  | JStr s => s
  | JArr xs =>
      (fix go (xs : list json) : text :=
         match xs with
         | [] => []
         | [x] => js_to_string x
         | x :: xs' => js_to_string x ++ [","%char] ++ go xs'
         end) xs
  | JObj _ => String.list_ascii_of_string "[object Object]"
  end.

Definition opt_to_string (o : option json) : text :=
  match o with Some v => js_to_string v | None => [] end.

(** [`${v}`]: as [String(v)], except that [null] prints as ["null"]. *)
Definition template_string (v : json) : text :=
  match v with JNull => lit "null" | _ => js_to_string v end.

(** The requests the program sends. *)
Definition MODEL_EMBEDDING : string := "llama3.2".
Definition MODEL_GENERATION : string := "llama3.2".

Inductive ollama_request : Type :=
  | EmbeddingsReq (model : string) (prompt : json)
  | GenerateReq (model : string) (prompt : text) (stream : bool).

(** ** The calls, over a [fetch] effect *)

Section client.
Context {W : Type}.
(** [await fetch(`${OLLAMA_API}/api/...`, {method: 'POST', ...})]: a
    response, or [FetchFailed] when the connection fails. *)
Variable fetch : ollama_request → M W http_response.

(** [await response.json()] *)
Definition response_json (r : http_response) : M W json :=
    match body r with Some v => ret v | None => throw JsonSyntaxError end.

(** [v.k]: reading a property of [null] throws. *)
Definition get_prop (v : json) (k : string) : M W (option json) :=
    match v with
    | JNull => throw TypeError
    | JObj fs => ret (assoc_last fs k)
    | _ => ret None
    end.

(** [getEmbedding(text)]; the [catch] only logs and rethrows.  The
    argument is whatever the caller passes: [JSON.stringify] sends it
    as the [prompt] as it is. *)
Definition getEmbedding (t : json) : M W (list json) :=
    let* response := fetch (EmbeddingsReq MODEL_EMBEDDING t) in
    if negb (resp_ok response) then throw (HttpError (status response)) else
    let* data := response_json response in
    let* embedding := get_prop data "embedding" in
    if negb (truthy embedding) || negb (is_array embedding)
    then throw InvalidEmbeddingFormat
    else match embedding with Some (JArr xs) => ret xs | _ => throw InvalidEmbeddingFormat end.

  (** ** The prompt of [askQuestion] *)

(** The 107-dash rule of the template. *)
Definition rule : text := repeat "-"%char 107.

Definition buildPrompt (context question : text) : text :=
    nl ++ lit "System Prompt:" ++ nl
    ++ lit "You are a AI journalist that answers questions based on the provided context" ++ nl
    ++ rule ++ nl ++ lit "Context:" ++ nl ++ context ++ nl
    ++ rule ++ nl ++ lit "Question:" ++ nl ++ question ++ nl
    ++ rule ++ nl.

(** The generation request of [askQuestion]: POST, [response.ok] check,
    [response.json()], then [result.response] (which may be [undefined]:
    the code does not check it). *)
Definition generate (prompt : text) : M W (option json) :=
    let* response := fetch (GenerateReq MODEL_GENERATION prompt false) in
    if negb (resp_ok response) then throw (HttpError (status response)) else
    let* result := response_json response in
    get_prop result "response".

  (** ** Properties *)

(** A 2xx answer whose [embedding] is an array is returned as it is. *)
Lemma getEmbedding_array (t : json) (w w' : W) (r : http_response) (fs : list (string * json)) xs :
    fetch (EmbeddingsReq MODEL_EMBEDDING t) w = (inr r, w') →
    resp_ok r = true → body r = Some (JObj fs) → assoc_last fs "embedding" = Some (JArr xs) →
    getEmbedding t w = (inr xs, w').
  Proof.
    intros Hf Hok Hb He. unfold getEmbedding. rewrite run_bind, Hf, Hok. cbn.
    unfold response_json. rewrite Hb. cbn. by rewrite He.
  Qed.

(** C22. [getEmbedding] returns [xs] exactly when the service answered a
    2xx status with a JSON object whose (last) [embedding] key holds the
    array [xs]; the elements of [xs] are not inspected. *)
Theorem getEmbedding_ok (t : json) (w w' : W) (xs : list json) :
    getEmbedding t w = (inr xs, w') ↔
    ∃ r fs, fetch (EmbeddingsReq MODEL_EMBEDDING t) w = (inr r, w')
          ∧ resp_ok r = true ∧ body r = Some (JObj fs)
          ∧ assoc_last fs "embedding" = Some (JArr xs).
  Proof.
    unfold getEmbedding. rewrite run_bind.
    destruct (fetch _ w) as [[e|r] w1].
    { split; [done|]. intros (? & ? & [=] & _). }
    split.
    - destruct (resp_ok r) eqn:Hok; [|done]. cbn.
      unfold response_json. destruct (body r) as [v|] eqn:Hb; [|done]. destruct v; try done. cbn.
      destruct (assoc_last _ _) as [v|] eqn:He; [|done].
      destruct v; cbn; try case_match; cbn; intros Hres; inversion Hres; subst; eauto 10.
    - intros (r' & fs & [= <- <-] & Hok & Hb & He).
      rewrite Hok. cbn. unfold response_json. rewrite Hb. cbn. by rewrite He.
  Qed.

(** C23. A non-2xx answer is an [HttpError] carrying its status, thrown
    after the request and before the body is read. *)
Theorem getEmbedding_http_error (t : json) (w w' : W) (r : http_response) :
    fetch (EmbeddingsReq MODEL_EMBEDDING t) w = (inr r, w') →
    resp_ok r = false →
    getEmbedding t w = (inl (HttpError (status r)), w').
  Proof. intros Hf Hok. unfold getEmbedding. rewrite run_bind, Hf, Hok. done. Qed.

(** Whatever [fetch] preserves, the two calls preserve. *)
Lemma getEmbedding_evolves (R : relation W) `{!PreOrder R} (t : json) :
    (∀ req, evolves R (fetch req)) → evolves R (getEmbedding t).
  Proof. intros Hf. unfold getEmbedding, response_json, get_prop. solve_evolves. Qed.

Lemma generate_evolves (R : relation W) `{!PreOrder R} (prompt : text) :
    (∀ req, evolves R (fetch req)) → evolves R (generate prompt).
  Proof. intros Hf. unfold generate, response_json, get_prop. solve_evolves. Qed.

(** The two calls change the world only through their one [fetch]. *)
Lemma getEmbedding_state (t : json) w r w' :
    getEmbedding t w = (r, w') → ∃ r1, fetch (EmbeddingsReq MODEL_EMBEDDING t) w = (r1, w').
  Proof.
    apply bind_state. intros resp. unfold response_json, get_prop. solve_evolves.
  Qed.

Lemma generate_state (prompt : text) w r w' :
    generate prompt w = (r, w') → ∃ r1, fetch (GenerateReq MODEL_GENERATION prompt false) w = (r1, w').
  Proof.
    apply bind_state. intros resp. unfold response_json, get_prop. solve_evolves.
  Qed.
End client.

Definition const_fetch (r : http_response) : ollama_request → M unit http_response :=
  λ _, ret r.

Lemma getEmbedding_http_error_witness :
  getEmbedding (const_fetch (mk_response 503 None)) (JStr []) tt = (inl (HttpError 503), tt).
Proof. apply (getEmbedding_http_error (const_fetch (mk_response 503 None)) (JStr []) tt tt (mk_response 503 None)); reflexivity. Defined.

End Ollama.
