(* ===== verification/VectorStore.v ===== *)
(** * VectorStore: the Pinecone index as an interface, and a model of it

    The program reaches Pinecone through [index.namespace(userId)] and its
    three data-plane calls [upsert], [query] and [deleteAll].  The class
    [VectorStore] lists those calls together with [vs_records], the
    records each namespace holds; the class [VectorStoreLaws] states what
    the spec (section 4.5) promises of them.  The pipeline of [Rag.v] is
    proved against these two classes only.  [PineconeModel] implements
    them with a [gmap] per namespace and discharges the laws. *)

From S2P Require Import Prelude Ollama.
From stdpp Require Import sorting.
Open Scope rag_scope.

Module VectorStore.
Import Ollama.

(** A metadata object: the keys in order, as the object literal has them. *)
Abbreviation metadata := (list (string * json)).

(** [{ id, values, metadata }] as [upsert] receives it. *)
Record vrecord := mk_vrecord { rec_id : string; rec_values : list json; rec_metadata : metadata }.

(** One element of [queryResult.matches]. *)
Record vmatch := mk_vmatch { match_id : string; match_score : Z; match_metadata : metadata }.

(** The numbers of a vector, when all its entries are numbers. *)
Fixpoint to_nums (v : list json) : option (list Z) :=
  match v with
  | [] => Some []
  | JNum n :: v' => (n ::.) <$> to_nums v'
  | _ :: _ => None
  end.

Class VectorStore (St : Type) := {
  vs_upsert : string → vrecord → St → store_failure + St;
  vs_query : string → list json → nat → St → store_failure + list vmatch;
  vs_deleteAll : string → St → store_failure + St;
  (** The records of a namespace, by id. *)
  vs_records : St → string → gmap string vrecord;
  (** The dimension the index was created with. *)
  vs_dim : St → nat;
}.

(** A vector the index accepts: numbers, as many as its dimension. *)
Definition valid_vector `{VectorStore St} (st : St) (v : list json) : Prop :=
  length v = vs_dim st ∧ is_Some (to_nums v).

(** Match scores in non-increasing order. *)
Definition by_score (a b : vmatch) : Prop := (match_score b ≤ match_score a)%Z.

Class VectorStoreLaws (St : Type) `{VectorStore St} := {
  vs_upsert_here ns r st st' :
    vs_upsert ns r st = inr st' → vs_records st' ns = <[rec_id r := r]> (vs_records st ns);
  vs_upsert_other ns ns' r st st' :
    vs_upsert ns r st = inr st' → ns' ≠ ns → vs_records st' ns' = vs_records st ns';
  vs_upsert_dim ns r st st' : vs_upsert ns r st = inr st' → vs_dim st' = vs_dim st;
  vs_upsert_ok ns r st : valid_vector st (rec_values r) → ∃ st', vs_upsert ns r st = inr st';
  vs_deleteAll_here ns st st' : vs_deleteAll ns st = inr st' → vs_records st' ns = ∅;
  vs_deleteAll_other ns ns' st st' :
    vs_deleteAll ns st = inr st' → ns' ≠ ns → vs_records st' ns' = vs_records st ns';
  vs_deleteAll_dim ns st st' : vs_deleteAll ns st = inr st' → vs_dim st' = vs_dim st;
  vs_deleteAll_ok ns st : ∃ st', vs_deleteAll ns st = inr st';
  vs_query_topK ns v k st ms : vs_query ns v k st = inr ms → length ms ≤ k;
  vs_query_sorted ns v k st ms : vs_query ns v k st = inr ms → StronglySorted by_score ms;
  vs_query_from ns v k st ms m :
    vs_query ns v k st = inr ms → m ∈ ms →
    ∃ r, vs_records st ns !! match_id m = Some r ∧ match_metadata m = rec_metadata r;
  vs_query_ok ns v k st : valid_vector st v → ∃ ms, vs_query ns v k st = inr ms;
}.

#[export] Instance by_score_dec a b : Decision (by_score a b) := Z.le_dec _ _.
#[export] Instance by_score_total : Total by_score.
Proof. intros a b. unfold by_score. lia. Qed.
#[export] Instance by_score_trans : Transitive by_score.
Proof. intros a b c. unfold by_score. lia. Qed.

(** ** A model of the Pinecone index *)

Module PineconeModel.

(** The index's dimension, its similarity metric (cosine in the program,
    any function of two vectors here) and the records of each namespace. *)
Record pc_state := mk_pc {
  pc_dim : nat;
  pc_metric : list Z → list Z → Z;
  pc_ns : gmap string (gmap string vrecord);
}.

(** A namespace that was never written to is empty. *)
Definition pc_records (st : pc_state) (ns : string) : gmap string vrecord :=
  default ∅ (pc_ns st !! ns).

Definition pc_with_ns (st : pc_state) (m : gmap string (gmap string vrecord)) : pc_state :=
  mk_pc (pc_dim st) (pc_metric st) m.

(** [upsert]: a vector of another dimension, or with a non-number, is
    refused; otherwise the record is inserted or replaced. *)
Definition pc_upsert (ns : string) (r : vrecord) (st : pc_state) : store_failure + pc_state :=
  if bool_decide (length (rec_values r) = pc_dim st) then
    match to_nums (rec_values r) with
    | Some _ => inr (pc_with_ns st (<[ns := <[rec_id r := r]> (pc_records st ns)]> (pc_ns st)))
    | None => inl NonNumericValue
    end
  else inl (DimensionMismatch (pc_dim st) (length (rec_values r))).

(** [deleteAll]: idempotent, the namespace is simply emptied. *)
Definition pc_deleteAll (ns : string) (st : pc_state) : store_failure + pc_state :=
  inr (pc_with_ns st (delete ns (pc_ns st))).

Definition score_of (st : pc_state) (q : list Z) (r : vrecord) : Z :=
  match to_nums (rec_values r) with Some xs => pc_metric st q xs | None => 0%Z end.

Definition matches_of (st : pc_state) (ns : string) (q : list Z) : list vmatch :=
  (λ ir, mk_vmatch ir.1 (score_of st q ir.2) (rec_metadata ir.2)) <$> map_to_list (pc_records st ns).

(** [query({vector, topK, includeMetadata: true})]: the [topK] records
    of highest score, best first. *)
Definition pc_query (ns : string) (v : list json) (k : nat) (st : pc_state)
    : store_failure + list vmatch :=
  if bool_decide (length v = pc_dim st) then
    match to_nums v with
    | Some q => inr (take k (merge_sort by_score (matches_of st ns q)))
    | None => inl NonNumericValue
    end
  else inl (DimensionMismatch (pc_dim st) (length v)).

#[export] Instance pinecone_store : VectorStore pc_state := {
  vs_upsert := pc_upsert;
  vs_query := pc_query;
  vs_deleteAll := pc_deleteAll;
  vs_records := pc_records;
  vs_dim := pc_dim;
}.

Lemma pc_upsert_inv ns r st st' :
  pc_upsert ns r st = inr st' →
  st' = pc_with_ns st (<[ns := <[rec_id r := r]> (pc_records st ns)]> (pc_ns st)).
Proof. unfold pc_upsert. case_bool_decide; [|done]. by case_match; intros [=]. Qed.

Lemma pc_query_inv ns v k st ms :
  pc_query ns v k st = inr ms → ∃ q, ms = take k (merge_sort by_score (matches_of st ns q)).
Proof. unfold pc_query. case_bool_decide; [|done]. case_match; intros [=]; eauto. Qed.

Lemma pc_query_from st ns q k m :
  m ∈ take k (merge_sort by_score (matches_of st ns q)) →
  ∃ r, pc_records st ns !! match_id m = Some r ∧ match_metadata m = rec_metadata r.
Proof.
  intros (i & Hi & _)%elem_of_take. apply list_elem_of_lookup_2 in Hi.
  rewrite (merge_sort_Permutation by_score) in Hi.
  apply list_elem_of_fmap in Hi as ([id r] & -> & Hir). apply elem_of_map_to_list in Hir.
  eauto.
Qed.

#[export] Instance pinecone_laws : VectorStoreLaws pc_state.
Proof.
  split; cbn.
  - intros ns r st st' ->%pc_upsert_inv. unfold pc_records at 1. cbn. by rewrite lookup_insert_eq.
  - intros ns ns' r st st' ->%pc_upsert_inv ?. unfold pc_records. cbn. by rewrite lookup_insert_ne.
  - by intros ns r st st' ->%pc_upsert_inv.
  - intros ns r st [Hlen [xs Hxs]]. unfold pc_upsert. rewrite bool_decide_eq_true_2, Hxs by done. eauto.
  - intros ns st st' [= <-]. unfold pc_records. cbn. by rewrite lookup_delete_eq.
  - intros ns ns' st st' [= <-] ?. unfold pc_records. cbn. by rewrite lookup_delete_ne.
  - by intros ns st st' [= <-].
  - eauto.
  - intros ns v k st ms (q & ->)%pc_query_inv. rewrite length_take. lia.
  - intros ns v k st ms (q & ->)%pc_query_inv.
    apply (StronglySorted_app_1_l _ _ (drop k (merge_sort by_score (matches_of st ns q)))).
    rewrite take_drop. apply (StronglySorted_merge_sort by_score).
  - intros ns v k st ms m (q & ->)%pc_query_inv. apply pc_query_from.
  - intros ns v k st [Hlen [xs Hxs]]. unfold pc_query. rewrite bool_decide_eq_true_2, Hxs by done. eauto.
Qed.

End PineconeModel.

End VectorStore.
