(* ===== verification/World.v ===== *)
(** * The process and its services: the state the pipelines run against

    rag.js holds one Pinecone client and calls Ollama over HTTP; the
    pipelines are [async] functions that await these calls one at a time.
    [world] is what those calls read and change: the vector store (any
    implementation of the [VectorStore] interface), the control plane of
    the shared index, the Ollama and pdf-parse services as functions, the
    clock behind [Date.now()], and the trace of every external call in the
    order it was awaited.  Each primitive below is one awaited call. *)

From S2P Require Import Prelude Ollama VectorStore.
Open Scope rag_scope.

Module World.
Import Ollama VectorStore.

(** The control plane of the index [rag-docs-llama]: absent, being
    created (ready after [polls] more [describeIndex] calls), or ready. *)
Inductive index_status : Type :=
  | NoIndex
  | Initializing (polls : nat)
  | IndexReady.

(** The external calls, as the trace records them. *)
Inductive event : Type :=
  | EvFetch (req : ollama_request)
  | EvUpsert (ns id : string)
  | EvQuery (ns : string) (topK : nat)
  | EvDeleteAll (ns : string)
  | EvDescribe
  | EvCreate (dim : nat)
  | EvSleep (ms : nat).

Record world (St : Type) := mk_world {
  w_store : St;
  w_index : index_status;
  w_describe_faults : nat;  (** how many next [describeIndex] calls fail *)
  w_init_polls : nat;       (** polls a new index needs before it is ready *)
  w_ollama : ollama_request → option http_response;
  w_pdf : text → option text;  (** pdf-parse: the text, or a parse error *)
  w_latency : nat;          (** milliseconds each external call takes *)
  w_clock : nat;            (** [Date.now()] *)
  w_trace : list event;
}.
Arguments mk_world {St}.
Arguments w_store {St}. Arguments w_index {St}. Arguments w_describe_faults {St}.
Arguments w_init_polls {St}. Arguments w_ollama {St}. Arguments w_pdf {St}.
Arguments w_latency {St}. Arguments w_clock {St}. Arguments w_trace {St}.

Section primitives.
Context {St : Type} `{VectorStore St}.
Abbreviation W := (world St).

Definition set_store (w : W) (st : St) : W :=
    mk_world st (w_index w) (w_describe_faults w) (w_init_polls w) (w_ollama w)
      (w_pdf w) (w_latency w) (w_clock w) (w_trace w).
Definition set_index (w : W) (i : index_status) (faults : nat) : W :=
    mk_world (w_store w) i faults (w_init_polls w) (w_ollama w)
      (w_pdf w) (w_latency w) (w_clock w) (w_trace w).
(** An external call [ev] is recorded and takes [dt] milliseconds. *)
Definition record (w : W) (ev : event) (dt : nat) : W :=
    mk_world (w_store w) (w_index w) (w_describe_faults w) (w_init_polls w) (w_ollama w)
      (w_pdf w) (w_latency w) (w_clock w + dt) (w_trace w ++ [ev]).

Definition call (ev : event) : M W unit := modify (λ w, record w ev (w_latency w)).

(** [Date.now()] *)
Definition now : M W nat := let* w := get in ret (w_clock w).

(** [await new Promise(resolve => setTimeout(resolve, ms))] *)
Definition sleep (ms : nat) : M W unit := modify (λ w, record w (EvSleep ms) ms).

(** [await fetch(OLLAMA_API + ..., ...)] *)
Definition fetch_ollama (req : ollama_request) : M W http_response :=
    call (EvFetch req) ;;;
    let* w := get in
    match w_ollama w req with Some r => ret r | None => throw FetchFailed end.

Definition lift_store {A} (r : store_failure + A) : M W A :=
    match r with inl f => throw (StoreError f) | inr a => ret a end.

(** [await index.namespace(ns).upsert([r])] *)
Definition store_upsert (ns : string) (r : vrecord) : M W unit :=
    call (EvUpsert ns (rec_id r)) ;;;
    let* w := get in
    let* st := lift_store (vs_upsert ns r (w_store w)) in
    put (set_store w st).

(** [await index.namespace(ns).query({vector, topK, includeMetadata: true})] *)
Definition store_query (ns : string) (v : list json) (topK : nat) : M W (list vmatch) :=
    call (EvQuery ns topK) ;;;
    let* w := get in
    lift_store (vs_query ns v topK (w_store w)).

(** [await index.namespace(ns).deleteAll()] *)
Definition store_deleteAll (ns : string) : M W unit :=
    call (EvDeleteAll ns) ;;;
    let* w := get in
    let* st := lift_store (vs_deleteAll ns (w_store w)) in
    put (set_store w st).

(** [await pinecone.describeIndex(INDEX_NAME)], reduced to
    [description.status?.ready]. *)
Definition describeIndex : M W bool :=
    call EvDescribe ;;;
    let* w := get in
    match w_describe_faults w with
    | S k => put (set_index w (w_index w) k) ;;; throw (StoreError StoreUnavailable)
    | 0 =>
        match w_index w with
        | NoIndex => throw (StoreError IndexNotFound)
        | Initializing 0 | IndexReady => put (set_index w IndexReady 0) ;;; ret true
        | Initializing (S n) => put (set_index w (Initializing n) 0) ;;; ret false
        end
    end.

(** [await pinecone.createIndex({name, dimension, metric, spec})] *)
Definition createIndex (dim : nat) : M W unit :=
    call (EvCreate dim) ;;;
    let* w := get in
    match w_index w with
    | NoIndex => put (set_index w (Initializing (w_init_polls w)) (w_describe_faults w))
    | _ => throw (StoreError IndexAlreadyExists)
    end.
End primitives.

(** ** The primitives, run *)

Create Rewrite HintDb world.

Section run.
Context {St : Type} `{VectorStore St}.
Implicit Types (w : world St).

Lemma run_call ev w : call ev w = (inr tt, record w ev (w_latency w)).
  Proof. done. Qed.

Lemma run_now w : now w = (inr (w_clock w), w).
  Proof. done. Qed.

Lemma run_sleep ms w : sleep ms w = (inr tt, record w (EvSleep ms) ms).
  Proof. done. Qed.

Lemma run_fetch_ollama req w :
    fetch_ollama req w =
      (match w_ollama w req with Some r => inr r | None => inl FetchFailed end,
       record w (EvFetch req) (w_latency w)).
  Proof. unfold fetch_ollama. cbn. by destruct (w_ollama w req). Qed.

Lemma run_store_upsert ns r w :
    store_upsert ns r w =
      let w1 := record w (EvUpsert ns (rec_id r)) (w_latency w) in
      match vs_upsert ns r (w_store w) with
      | inl f => (inl (StoreError f), w1)
      | inr st => (inr tt, set_store w1 st)
      end.
  Proof. unfold store_upsert. cbn. by destruct (vs_upsert ns r (w_store w)). Qed.

Lemma run_store_query ns v k w :
    store_query ns v k w =
      (match vs_query ns v k (w_store w) with inl f => inl (StoreError f) | inr ms => inr ms end,
       record w (EvQuery ns k) (w_latency w)).
  Proof. unfold store_query. cbn. by destruct (vs_query ns v k (w_store w)). Qed.

Lemma run_store_deleteAll ns w :
    store_deleteAll ns w =
      let w1 := record w (EvDeleteAll ns) (w_latency w) in
      match vs_deleteAll ns (w_store w) with
      | inl f => (inl (StoreError f), w1)
      | inr st => (inr tt, set_store w1 st)
      end.
  Proof. unfold store_deleteAll. cbn. by destruct (vs_deleteAll ns (w_store w)). Qed.
End run.

#[export] Hint Rewrite @run_call @run_now @run_sleep @run_fetch_ollama
  @run_store_upsert @run_store_query @run_store_deleteAll : world.

(** ** What the primitives leave unchanged *)

(** The records of namespace [ns] are the same. *)
Definition ns_unchanged `{VectorStore St} (ns : string) (w w' : world St) : Prop :=
  vs_records (w_store w') ns = vs_records (w_store w) ns.

#[export] Instance ns_unchanged_preorder `{VectorStore St} ns : PreOrder (ns_unchanged (St:=St) ns).
Proof. split; [done|]. intros w1 w2 w3 H1 H2. unfold ns_unchanged in *. congruence. Qed.

Section unchanged.
Context {St : Type} `{VectorStoreLaws St}.

Lemma call_ns ns ev : evolves (ns_unchanged ns) (call ev).
  Proof. by intros w r w' [= _ <-]. Qed.

Lemma now_ns ns : evolves (ns_unchanged ns) now.
  Proof. by intros w r w' [= _ <-]. Qed.

Lemma sleep_ns ns ms : evolves (ns_unchanged ns) (sleep ms).
  Proof. by intros w r w' [= _ <-]. Qed.

Lemma fetch_ollama_ns ns req : evolves (ns_unchanged ns) (fetch_ollama req).
  Proof. intros w r w'. rewrite run_fetch_ollama. by intros [= _ <-]. Qed.

Lemma store_query_ns ns ns' v k : evolves (ns_unchanged ns') (store_query ns v k).
  Proof. intros w r w'. rewrite run_store_query. by intros [= _ <-]. Qed.

Lemma store_upsert_ns ns ns' r : ns' ≠ ns → evolves (ns_unchanged ns') (store_upsert ns r).
  Proof.
    intros Hne w res w'. rewrite run_store_upsert. cbn.
    destruct (vs_upsert ns r (w_store w)) eqn:E; intros [= _ <-]; [done|].
    unfold ns_unchanged. cbn. by eapply vs_upsert_other.
  Qed.

Lemma store_deleteAll_ns ns ns' : ns' ≠ ns → evolves (ns_unchanged ns') (store_deleteAll ns).
  Proof.
    intros Hne w res w'. rewrite run_store_deleteAll. cbn.
    destruct (vs_deleteAll ns (w_store w)) eqn:E; intros [= _ <-]; [done|].
    unfold ns_unchanged. cbn. by eapply vs_deleteAll_other.
  Qed.

Lemma describeIndex_ns ns : evolves (ns_unchanged ns) (describeIndex (St:=St)).
  Proof.
    intros [st i f p o pdf lat c tr] r w'. unfold describeIndex. cbn.
    destruct f; [destruct i as [|[|n]|]|]; by intros [= _ <-].
  Qed.

Lemma createIndex_ns ns dim : evolves (ns_unchanged ns) (createIndex (St:=St) dim).
  Proof. intros [st i f p o pdf lat c tr] r w'. unfold createIndex. cbn. destruct i; by intros [= _ <-]. Qed.
End unchanged.

#[export] Hint Resolve call_ns now_ns sleep_ns fetch_ollama_ns store_query_ns
  store_upsert_ns store_deleteAll_ns describeIndex_ns createIndex_ns : rag.

(** ** A concrete environment, for the witnesses *)

(** The dot product, the cosine of two unit vectors. *)
Fixpoint dot (a b : list Z) : Z :=
  match a, b with
  | x :: a', y :: b' => (x * y + dot a' b')%Z
  | _, _ => 0%Z
  end.

(** An Ollama that embeds a prompt [p] as [[length p; 1]] (the length of its string form) and answers
    every generation with ["ok"]. *)
Definition embed_len : ollama_request → option http_response := λ req,
  match req with
  | EmbeddingsReq _ p =>
      Some (mk_response 200 (Some (JObj [("embedding", JArr [JNum (Z.of_nat (length (js_to_string p))); JNum 1])])))
  | GenerateReq _ _ _ => Some (mk_response 200 (Some (JObj [("response", JStr (lit "ok"))])))
  end.

(** Pinecone with a [dim]-dimensional index and no records, an Ollama
    answering with [ollama], calls taking 5 ms, the clock at 0. *)
Definition example_world (dim : nat) (idx : index_status) (faults polls : nat)
    (ollama : ollama_request → option http_response) : world PineconeModel.pc_state :=
  mk_world (PineconeModel.mk_pc dim dot ∅) idx faults polls ollama (λ _, None) 5 0 [].

End World.
