(* ===== verification/Lifecycle.v ===== *)
(** * NamespaceLifecycle: [waitForIndex] and [createUserIndex] of rag.js

    The readiness poll and the "ensure the shared index exists" protocol.
    The control plane of the index is a state machine, [cp_step]; every
    operation moves it along [rtc cp_step].  The poll is proved to return
    [true] as soon as the index becomes ready within its attempts, and to
    throw [IndexNotReady] after exactly [maxAttempts] describes and as many
    2-second sleeps otherwise. *)

From S2P Require Import Prelude Ollama VectorStore World.
Open Scope rag_scope.

Module Lifecycle.
Import Ollama VectorStore World.

(** [INDEX_NAME] and the [createIndex] arguments of [createUserIndex]. *)
Definition INDEX_NAME : string := "rag-docs-llama".
Definition INDEX_DIMENSION : nat := 4096.
(** [setTimeout(resolve, 2000)] and the default [maxAttempts = 10]. *)
Definition POLL_INTERVAL : nat := 2000.
Definition MAX_ATTEMPTS : nat := 10.

(** The [{ success, message }] objects the functions return. *)
Record op_result := mk_op { success : bool; message : text }.

Section lifecycle.
Context {St : Type} `{VectorStore St}.
Abbreviation W := (world St).

(** The [for] loop of [waitForIndex], [remaining] attempts left: a
    describe error is caught and logged, a not-ready index waits too. *)
Fixpoint wait_loop (maxAttempts remaining : nat) : M W bool :=
    match remaining with
    | 0 => throw (IndexNotReady maxAttempts)
    | S r =>
        let* ready := catch describeIndex (λ _, ret false) in
        if ready then ret true
        else sleep POLL_INTERVAL ;;; wait_loop maxAttempts r
    end.

(** [waitForIndex(maxAttempts)] *)
Definition waitForIndex (maxAttempts : nat) : M W bool := wait_loop maxAttempts maxAttempts.

(** [createUserIndex(userId)]: any failure of [describeIndex] is taken
    to mean that the index does not exist.  The outer [catch] only logs
    and rethrows. *)
Definition createUserIndex (userId : string) : M W op_result :=
    catch
      (describeIndex ;;;
       ret (mk_op true (lit "Index ready for user " ++ String.list_ascii_of_string userId)))
      (λ _,
        createIndex INDEX_DIMENSION ;;;
        waitForIndex MAX_ATTEMPTS ;;;
        ret (mk_op true (lit "Created index and ready for user " ++ String.list_ascii_of_string userId))).
End lifecycle.

(** ** The control plane as a state machine *)

Inductive cp_step : index_status → index_status → Prop :=
  | cp_create polls : cp_step NoIndex (Initializing polls)
  | cp_poll n : cp_step (Initializing (S n)) (Initializing n)
  | cp_ready : cp_step (Initializing 0) IndexReady.

Definition index_evolves {St} (w w' : world St) : Prop := rtc cp_step (w_index w) (w_index w').

#[export] Instance index_evolves_preorder {St} : PreOrder (@index_evolves St).
Proof. split; [intros w; apply rtc_refl|intros ??? H1 H2; unfold index_evolves in *; by etrans]. Qed.

(** How many [describeIndex] calls until one answers "ready". *)
Definition polls_to_ready {St} (w : world St) : option nat :=
  match w_index w with
  | NoIndex => None
  | Initializing n => Some (w_describe_faults w + n)
  | IndexReady => Some (w_describe_faults w)
  end.

(** The trace of [k] unsuccessful attempts. *)
Definition poll_trace (k : nat) : list event := concat (repeat [EvDescribe; EvSleep POLL_INTERVAL] k).

(** ** One attempt of the poll *)

(** The control plane after one [describeIndex] call. *)
Definition next_index {St} (w : world St) : index_status :=
  match w_describe_faults w, w_index w with
  | S _, i => i
  | 0, NoIndex => NoIndex
  | 0, Initializing (S n) => Initializing n
  | 0, _ => IndexReady
  end.

Section attempt.
Context {St : Type} `{VectorStore St}.
Implicit Types (w : world St).

Lemma attempt_spec w :
    catch describeIndex (λ _, ret false) w =
      (inr (bool_decide (polls_to_ready w = Some 0)),
       set_index (record w EvDescribe (w_latency w)) (next_index w) (pred (w_describe_faults w))).
  Proof.
    destruct w as [st i f p o pdf lat c tr]. unfold polls_to_ready, next_index; cbn.
    destruct f, i as [|[|n]|]; cbn; reflexivity.
  Qed.

Lemma polls_to_ready_next w k :
    polls_to_ready w = Some (S k) →
    polls_to_ready (set_index (record w EvDescribe (w_latency w)) (next_index w)
                      (pred (w_describe_faults w))) = Some k.
  Proof.
    destruct w as [st i f p o pdf lat c tr]. unfold polls_to_ready, next_index; cbn.
    destruct f, i as [|[|n]|]; cbn; intros [= <-]; f_equal; lia.
  Qed.

Lemma polls_to_ready_next_None w :
    polls_to_ready w = None →
    polls_to_ready (set_index (record w EvDescribe (w_latency w)) (next_index w)
                      (pred (w_describe_faults w))) = None.
  Proof. destruct w as [st i f p o pdf lat c tr]. unfold polls_to_ready, next_index. by destruct f, i. Qed.
End attempt.

(** ** Properties of the poll *)

Section poll.
Context {St : Type} `{VectorStore St}.
Implicit Types (w : world St).

Lemma wait_loop_ready m r w k :
    polls_to_ready w = Some k → k < r →
    ∃ w', wait_loop m r w = (inr true, w')
        ∧ w_trace w' = w_trace w ++ poll_trace k ++ [EvDescribe]
        ∧ w_clock w' = w_clock w + k * (w_latency w + POLL_INTERVAL) + w_latency w
        ∧ w_index w' = IndexReady.
  Proof.
    revert w r. induction k as [|k IH]; intros w r Hk Hr; destruct r as [|r]; [lia| |lia|].
    - cbn [wait_loop]. rewrite run_bind, attempt_spec, Hk, bool_decide_eq_true_2 by done.
      eexists. split_and!; [done|done|cbn; lia|].
      destruct w as [st i f p o pdf lat c tr]. unfold polls_to_ready in Hk.
      destruct f, i as [|[|n]|]; cbn in *; congruence || lia.
    - cbn [wait_loop]. rewrite run_bind, attempt_spec, Hk, bool_decide_eq_false_2 by done.
      cbn. set (w1 := set_index _ _ _).
      destruct (IH (record w1 (EvSleep POLL_INTERVAL) POLL_INTERVAL) r
                  (polls_to_ready_next w k Hk) ltac:(lia)) as (w' & Hrun & Htr & Hc & Hi).
      rewrite Hrun. eexists. split_and!; [done| |rewrite Hc; cbn; lia|done].
      rewrite Htr. cbn. by rewrite <-!app_assoc.
  Qed.

Lemma wait_loop_exhausted m r w :
    (∀ k, polls_to_ready w = Some k → r ≤ k) →
    ∃ w', wait_loop m r w = (inl (IndexNotReady m), w')
        ∧ w_trace w' = w_trace w ++ poll_trace r
        ∧ w_clock w' = w_clock w + r * (w_latency w + POLL_INTERVAL).
  Proof.
    revert w. induction r as [|r IH]; intros w Hr.
    - eexists. split_and!; [done|by rewrite app_nil_r|lia].
    - cbn [wait_loop]. rewrite run_bind, attempt_spec.
      rewrite bool_decide_eq_false_2 by (intros Hk; specialize (Hr 0 Hk); lia).
      cbn. set (w1 := set_index _ _ _).
      edestruct (IH (record w1 (EvSleep POLL_INTERVAL) POLL_INTERVAL)) as (w' & Hrun & Htr & Hc).
      2:{ rewrite Hrun. eexists. split_and!; [done| |rewrite Hc; cbn; lia].
          rewrite Htr. cbn. by rewrite <-!app_assoc. }
      intros k Hk. change (polls_to_ready w1 = Some k) in Hk. subst w1. destruct (polls_to_ready w) as [[|k']|] eqn:E.
      + specialize (Hr 0 eq_refl). lia.
      + specialize (Hr _ eq_refl). cbn in Hk.
        rewrite (polls_to_ready_next w k' E) in Hk. injection Hk as <-. lia.
      + cbn in Hk. by rewrite (polls_to_ready_next_None w E) in Hk.
  Qed.
End poll.

Lemma wait_loop_outcome `{VectorStore St} (m r : nat) (w : world St) :
  (wait_loop m r w).1 = inr true ∨ (wait_loop m r w).1 = inl (IndexNotReady m).
Proof.
  revert w. induction r as [|r IH]; intros w; [by right|].
  cbn [wait_loop]. rewrite run_bind, attempt_spec.
  case_bool_decide; [by left|]. cbn. apply IH.
Qed.

(** ** The control plane moves only along [cp_step] *)

Section index_evolution.
Context {St : Type} `{VectorStore St}.

Lemma describeIndex_index : evolves index_evolves (describeIndex (St:=St)).
  Proof.
    intros [st i f p o pdf lat c tr] r w'. unfold describeIndex, index_evolves. cbn.
    destruct f; [|intros [= _ <-]; apply rtc_refl].
    destruct i as [|[|n]|]; intros [= _ <-]; cbn; [apply rtc_refl| | |apply rtc_refl];
      apply rtc_once; constructor.
  Qed.

Lemma createIndex_index dim : evolves index_evolves (createIndex (St:=St) dim).
  Proof.
    intros [st i f p o pdf lat c tr] r w'. unfold createIndex, index_evolves. cbn.
    destruct i; intros [= _ <-]; cbn; [apply rtc_once; constructor|apply rtc_refl|apply rtc_refl].
  Qed.

Lemma sleep_index ms : evolves index_evolves (sleep (St:=St) ms).
  Proof. intros w r w' [= _ <-]. apply rtc_refl. Qed.

Lemma wait_loop_index m r : evolves index_evolves (wait_loop (St:=St) m r).
  Proof.
    induction r; cbn [wait_loop]; solve_evolves; eauto using describeIndex_index, sleep_index.
  Qed.

(** Nothing the program does leaves the "ready" state. *)
Lemma ready_stable (i : index_status) : rtc cp_step IndexReady i → i = IndexReady.
  Proof. intros Hr. remember IndexReady as j eqn:Ej. induction Hr; subst; [done|inversion H0]. Qed.
End index_evolution.

#[export] Hint Resolve describeIndex_index createIndex_index sleep_index wait_loop_index : rag.

(** ** Properties of [waitForIndex] and [createUserIndex] *)

Section properties.
Context {St : Type} `{VectorStore St}.
Implicit Types (w : world St).

(** C16. [waitForIndex] always returns: with [true], or with the error
    [IndexNotReady maxAttempts]; a failing [describeIndex] never escapes
    the loop. *)
Theorem waitForIndex_outcome (m : nat) w :
    (waitForIndex m w).1 = inr true ∨ (waitForIndex m w).1 = inl (IndexNotReady m).
  Proof. unfold waitForIndex. apply wait_loop_outcome. Qed.

(** C17. When the index answers "ready" at its [k]-th describe and
    [k < maxAttempts], [waitForIndex] returns [true] after [k] failed
    attempts, each followed by a 2-second sleep, and one more describe. *)
Theorem waitForIndex_ready (m k : nat) w :
    polls_to_ready w = Some k → k < m →
    ∃ w', waitForIndex m w = (inr true, w')
        ∧ w_trace w' = w_trace w ++ poll_trace k ++ [EvDescribe]
        ∧ w_clock w' = w_clock w + k * (w_latency w + POLL_INTERVAL) + w_latency w
        ∧ w_index w' = IndexReady.
  Proof. apply wait_loop_ready. Qed.

(** C18. Otherwise [waitForIndex maxAttempts] throws [IndexNotReady]
    after exactly [maxAttempts] describes and [maxAttempts] sleeps: it
    blocks its caller [maxAttempts * (latency + 2000)] milliseconds. *)
Theorem waitForIndex_exhausted (m : nat) w :
    (∀ k, polls_to_ready w = Some k → m ≤ k) →
    ∃ w', waitForIndex m w = (inl (IndexNotReady m), w')
        ∧ w_trace w' = w_trace w ++ poll_trace m
        ∧ w_clock w' = w_clock w + m * (w_latency w + POLL_INTERVAL).
  Proof. apply wait_loop_exhausted. Qed.

(** C19. [createUserIndex] on an index that [describeIndex] finds
    answers at once, with one describe and no [createIndex]; it does not
    look at readiness, and the index still exists afterwards, so a
    second call does the same. *)
Theorem createUserIndex_existing (u : string) w :
    w_describe_faults w = 0 → w_index w ≠ NoIndex →
    ∃ w', createUserIndex u w
            = (inr (mk_op true (lit "Index ready for user " ++ String.list_ascii_of_string u)), w')
        ∧ w_trace w' = w_trace w ++ [EvDescribe]
        ∧ w_describe_faults w' = 0 ∧ w_index w' ≠ NoIndex.
  Proof.
    destruct w as [st i f p o pdf lat c tr]; cbn. intros -> Hi.
    unfold createUserIndex, catch. cbn.
    destruct i as [|[|n]|]; [done| | |]; eexists; split_and!; done.
  Qed.

(** C20. On a missing index, [createUserIndex] creates it with
    dimension 4096, then polls it; when creation takes fewer than 10
    polls it answers "Created index and ready". *)
Theorem createUserIndex_fresh (u : string) w :
    w_index w = NoIndex → w_describe_faults w = 0 → w_init_polls w < MAX_ATTEMPTS →
    ∃ w', createUserIndex u w
            = (inr (mk_op true (lit "Created index and ready for user " ++ String.list_ascii_of_string u)), w')
        ∧ w_trace w' = w_trace w ++ [EvDescribe; EvCreate INDEX_DIMENSION]
                                 ++ poll_trace (w_init_polls w) ++ [EvDescribe]
        ∧ w_index w' = IndexReady.
  Proof.
    destruct w as [st i f p o pdf lat c tr]; cbn. intros -> -> Hp.
    unfold createUserIndex, catch. cbn -[waitForIndex lit]. rewrite run_bind.
    match goal with |- context [waitForIndex MAX_ATTEMPTS ?w0] =>
      destruct (wait_loop_ready MAX_ATTEMPTS MAX_ATTEMPTS w0 p) as (w' & Hrun & Htr & _ & Hi) end;
      [done|done|].
    unfold waitForIndex. rewrite Hrun. eexists. split_and!; [done| |done].
    rewrite Htr. cbn. by rewrite <-!app_assoc.
  Qed.

(** C21. A failing [describeIndex] is read as "no index": when the
    describe of an existing index fails transiently, [createUserIndex]
    calls [createIndex], which throws "already exists". *)
Theorem createUserIndex_transient_fault (u : string) w :
    w_describe_faults w = 1 → w_index w ≠ NoIndex →
    ∃ w', createUserIndex u w = (inl (StoreError IndexAlreadyExists), w')
        ∧ w_trace w' = w_trace w ++ [EvDescribe; EvCreate INDEX_DIMENSION].
  Proof.
    destruct w as [st i f p o pdf lat c tr]; cbn. intros -> Hi.
    unfold createUserIndex, catch. cbn.
    destruct i; [done| |]; eexists; (split; [reflexivity|cbn; by rewrite <-?app_assoc]).
  Qed.

End properties.

Abbreviation demo idx faults polls := (example_world 2 idx faults polls (λ _, None)).

Lemma waitForIndex_ready_witness :
  polls_to_ready (demo (Initializing 2) 1 0) = Some 3 ∧ 3 < 10 ∧
  ∃ w', waitForIndex 10 (demo (Initializing 2) 1 0) = (inr true, w')
      ∧ w_trace w' = poll_trace 3 ++ [EvDescribe]
      ∧ w_clock w' = 0 + 3 * (5 + POLL_INTERVAL) + 5
      ∧ w_index w' = IndexReady.
Proof.
  split; [reflexivity|split; [lia|]].
  apply (waitForIndex_ready 10 3 (demo (Initializing 2) 1 0)); [reflexivity|lia].
Defined.

Lemma waitForIndex_exhausted_witness :
  (∀ k, polls_to_ready (demo (Initializing 12) 0 0) = Some k → 10 ≤ k) ∧
  ∃ w', waitForIndex 10 (demo (Initializing 12) 0 0) = (inl (IndexNotReady 10), w')
      ∧ w_trace w' = poll_trace 10
      ∧ w_clock w' = 0 + 10 * (5 + POLL_INTERVAL).
Proof.
  assert (H : ∀ k, polls_to_ready (demo (Initializing 12) 0 0) = Some k → 10 ≤ k)
    by (intros k [= <-]; lia).
  split; [exact H|]. apply (waitForIndex_exhausted 10 (demo (Initializing 12) 0 0) H).
Defined.

Lemma createUserIndex_existing_witness :
  w_describe_faults (demo IndexReady 0 0) = 0 ∧ w_index (demo IndexReady 0 0) ≠ NoIndex ∧
  ∃ w', createUserIndex "alice" (demo IndexReady 0 0)
          = (inr (mk_op true (lit "Index ready for user " ++ String.list_ascii_of_string "alice")), w')
      ∧ w_trace w' = [EvDescribe] ∧ w_describe_faults w' = 0 ∧ w_index w' ≠ NoIndex.
Proof.
  split; [reflexivity|split; [discriminate|]].
  apply (createUserIndex_existing "alice" (demo IndexReady 0 0)); [reflexivity|discriminate].
Defined.

Lemma createUserIndex_fresh_witness :
  w_index (demo NoIndex 0 4) = NoIndex ∧ w_describe_faults (demo NoIndex 0 4) = 0 ∧ 4 < MAX_ATTEMPTS ∧
  ∃ w', createUserIndex "alice" (demo NoIndex 0 4)
          = (inr (mk_op true (lit "Created index and ready for user " ++ String.list_ascii_of_string "alice")), w')
      ∧ w_trace w' = [EvDescribe; EvCreate INDEX_DIMENSION] ++ poll_trace 4 ++ [EvDescribe]
      ∧ w_index w' = IndexReady.
Proof.
  split_and!; [reflexivity|reflexivity|unfold MAX_ATTEMPTS; lia|].
  apply (createUserIndex_fresh "alice" (demo NoIndex 0 4)); [reflexivity|reflexivity|unfold MAX_ATTEMPTS; cbn; lia].
Defined.

Lemma createUserIndex_transient_fault_witness :
  w_describe_faults (demo IndexReady 1 0) = 1 ∧ w_index (demo IndexReady 1 0) ≠ NoIndex ∧
  ∃ w', createUserIndex "alice" (demo IndexReady 1 0) = (inl (StoreError IndexAlreadyExists), w')
      ∧ w_trace w' = [EvDescribe; EvCreate INDEX_DIMENSION].
Proof.
  split; [reflexivity|split; [discriminate|]].
  apply (createUserIndex_transient_fault "alice" (demo IndexReady 1 0)); [reflexivity|discriminate].
Defined.

End Lifecycle.
