(* ===== verification/Rag.v ===== *)
(** * IngestionPipeline, RetrievalPipeline, AnswerPipeline: rag.js

    [addDocument], [addPdfDocument], [addDocuments], [findSimilarDocuments],
    [askQuestion], [clearIndex] and [deleteUserIndex], over the [world] of
    [World.v].  The store is any [VectorStore] satisfying
    [VectorStoreLaws]: the theorems of this file use the interface only.
    Each function is the body of its JavaScript namesake; the [catch]
    blocks that only log and rethrow are left out ([catch_rethrow]). *)

From S2P Require Import Prelude Text Chunker Ollama VectorStore World Lifecycle.
From stdpp Require Import sorting.
Open Scope rag_scope.

Module Rag.
Import Text Chunker Ollama VectorStore World Lifecycle.

(** ** Objects *)

(** [{...fs, [k]: v}]: an existing key keeps its place and takes the new
    value, a new key is appended. *)
Fixpoint obj_set (fs : metadata) (k : string) (v : json) : metadata :=
  match fs with
  | [] => [(k, v)]
  | (k', v') :: fs' =>
      if bool_decide (k = k') then (k, v) :: filter (λ kv, kv.1 ≠ k) fs'
      else (k', v') :: obj_set fs' k v
  end.

(** [{...base, k1: v1, ..., kn: vn}] *)
Definition spread (base extra : metadata) : metadata :=
  fold_left (λ acc kv, obj_set acc kv.1 kv.2) extra base.


(** [`doc_${Date.now()}_chunk_${i}`] *)
Definition record_id (now i : nat) : string :=
  "doc_" +:+ pretty now +:+ "_chunk_" +:+ pretty i.

(** The metadata object [addDocument] stores with chunk [i] of [n]. *)
Definition chunk_metadata (md : metadata) (chunk : text) (i n : nat) (timestamp : text)
    (userId : string) : metadata :=
  spread md [("text", JStr chunk); ("chunkIndex", JNum (Z.of_nat i));
             ("totalChunks", JNum (Z.of_nat n)); ("timestamp", JStr timestamp);
             ("userId", JStr (lit userId))].

(** [{ success, message, chunks: results }] of [addDocument]. *)
Record add_result := mk_add_result {
  add_success : bool; add_message : text; add_chunks : list (string * text) }.

(** An element of [findSimilarDocuments]' result: [{ text, similarity, metadata }]. *)
Record similar_doc := mk_doc { doc_text : option json; similarity : Z; doc_metadata : metadata }.

(** [{ question, relevantDocuments, answer }] of [askQuestion]. *)
Record answer_result := mk_answer {
  ans_question : json; relevantDocuments : list similar_doc; answer : option json }.

(** [match => ({ text: match.metadata.text, similarity: match.score, metadata: match.metadata })] *)
Definition to_doc (m : vmatch) : similar_doc :=
  mk_doc (assoc_last (match_metadata m) "text") (match_score m) (match_metadata m).

(** [doc.text.slice(0, 100)] throws unless [text] is a string or an array. *)
Definition sliceable (o : option json) : bool :=
  match o with Some (JStr _) | Some (JArr _) => true | _ => false end.

(** [similarDocs.map(doc => doc.text).join('\n\n')] *)
Definition context_of (docs : list similar_doc) : text :=
  js_join (nl ++ nl) (map (λ d, opt_to_string (doc_text d)) docs).

Section rag.
Context {St : Type} `{VectorStore St}.
Abbreviation W := (world St).
(** [new Date().toISOString()] of the clock. *)
Variable toISOString : nat → text.

(** The body of [addDocument]'s [for] loop, for chunk [i] of [n]: the
    id and the timestamp read the same instant, no [await] between. *)
Definition add_chunk (userId : string) (md : metadata) (n i : nat) (chunk : text)
      : M W (string * text) :=
    let* embedding := getEmbedding fetch_ollama (JStr chunk) in
    let* t := now in
    let id := record_id t i in
    store_upsert userId (mk_vrecord id embedding (chunk_metadata md chunk i n (toISOString t) userId)) ;;;
    ret (id, chunk).

(** [addDocument(userId, text, metadata)] *)
Definition addDocument (userId : string) (t : text) (md : metadata) : M W add_result :=
    let chunks := splitIntoChunks t CHUNK_SIZE in
    let* results := mapM_i (add_chunk userId md (length chunks)) 0 chunks in
    ret (mk_add_result true
           (lit "Added document with " ++ nat_to_text (length chunks) ++ lit " chunks") results).

(** [processPdfBuffer(pdfBuffer)]: pdf-parse, then [preprocessText]. *)
Definition processPdfBuffer (buf : text) : M W text :=
    let* w := get in
    match w_pdf w buf with
    | Some raw => ret (preprocessText raw)
    | None => throw PdfProcessingFailed
    end.

(** [addPdfDocument(userId, pdfBuffer, metadata)] *)
Definition addPdfDocument (userId : string) (buf : text) (md : metadata) : M W add_result :=
    let* t := processPdfBuffer buf in
    addDocument userId t (spread md [("documentType", JStr (lit "pdf"))]).

(** [addDocuments(userId, documents, metadata)]: one document after the
    other; an element that is not a string makes [preprocessText]'s
    [text.replace] throw. *)
Definition addDocuments (userId : string) (documents : list json) (md : metadata)
      : M W (list add_result) :=
    mapM_i (λ _ doc,
              match doc with
              | JStr t => addDocument userId t md
              | _ => throw TypeError
              end) 0 documents.

(** [findSimilarDocuments(userId, query, topK)] *)
Definition findSimilarDocuments (userId : string) (query : json) (topK : nat)
      : M W (list similar_doc) :=
    let* queryEmbedding := getEmbedding fetch_ollama query in
    let* matches := store_query userId queryEmbedding topK in
    ret (map to_doc matches).

(** [askQuestion(userId, question, returnData)]: [None] is the
    [undefined] of the console branch. *)
Definition askQuestion (userId : string) (question : json) (returnData : bool)
      : M W (option answer_result) :=
    let* similarDocs := findSimilarDocuments userId question 3 in
    let* response := generate fetch_ollama (buildPrompt (context_of similarDocs) (template_string question)) in
    if returnData then ret (Some (mk_answer question similarDocs response))
    else if forallb (λ d, sliceable (doc_text d)) similarDocs then ret None
    else throw TypeError.

(** [clearIndex(userId)] *)
Definition clearIndex (userId : string) : M W op_result :=
    store_deleteAll userId ;;;
    ret (mk_op true (lit "Documents cleared successfully for user " ++ lit userId)).

(** [deleteUserIndex(userId)] *)
Definition deleteUserIndex (userId : string) : M W op_result :=
    clearIndex userId ;;;
    ret (mk_op true (lit "Deleted all documents for user " ++ lit userId)).
End rag.

(** ** Relations every operation respects *)

(** A relation on worlds that the primitives a tenant's operations use
    respect is respected by all its operations. *)
Section evolution.
Context {St : Type} `{VectorStore St} (R : relation (world St)) `{!PreOrder R}.
Context (toISOString : nat → text) (userId : string).
Hypothesis Hfetch : ∀ req, evolves R (fetch_ollama req).
Hypothesis Hnow : evolves R now.
Hypothesis Hupsert : ∀ r, evolves R (store_upsert userId r).
Hypothesis Hquery : ∀ v k, evolves R (store_query userId v k).
Hypothesis Hdelete : evolves R (store_deleteAll userId).
Hypothesis Hdescribe : evolves R describeIndex.
Hypothesis Hcreate : ∀ d, evolves R (createIndex d).
Hypothesis Hsleep : ∀ ms, evolves R (sleep ms).

#[local] Hint Resolve getEmbedding_evolves generate_evolves : rag.

Lemma addDocument_evolves t md : evolves R (addDocument toISOString userId t md).
  Proof. unfold addDocument, add_chunk. solve_evolves. Qed.
#[local] Hint Resolve addDocument_evolves : rag.

Lemma addDocuments_evolves docs md : evolves R (addDocuments toISOString userId docs md).
  Proof. unfold addDocuments. solve_evolves. Qed.

Lemma addPdfDocument_evolves buf md : evolves R (addPdfDocument toISOString userId buf md).
  Proof. unfold addPdfDocument, processPdfBuffer. solve_evolves. Qed.

Lemma findSimilarDocuments_evolves q k : evolves R (findSimilarDocuments userId q k).
  Proof. unfold findSimilarDocuments. solve_evolves. Qed.
#[local] Hint Resolve findSimilarDocuments_evolves : rag.

Lemma askQuestion_evolves q b : evolves R (askQuestion userId q b).
  Proof. unfold askQuestion. solve_evolves. Qed.

Lemma clearIndex_evolves : evolves R (clearIndex userId).
  Proof. unfold clearIndex. solve_evolves. Qed.
#[local] Hint Resolve clearIndex_evolves : rag.

Lemma deleteUserIndex_evolves : evolves R (deleteUserIndex userId).
  Proof. unfold deleteUserIndex. solve_evolves. Qed.

Lemma createUserIndex_evolves : evolves R (createUserIndex userId).
  Proof.
    unfold createUserIndex, waitForIndex. solve_evolves.
    generalize MAX_ATTEMPTS at 1; intros m; induction MAX_ATTEMPTS; cbn [wait_loop]; solve_evolves.
  Qed.
#[local] Hint Resolve addDocuments_evolves addPdfDocument_evolves askQuestion_evolves
  deleteUserIndex_evolves createUserIndex_evolves : rag.
End evolution.

#[export] Hint Resolve addDocument_evolves addDocuments_evolves addPdfDocument_evolves
  findSimilarDocuments_evolves askQuestion_evolves clearIndex_evolves deleteUserIndex_evolves
  createUserIndex_evolves : rag.

(** ** Namespace isolation and retrieval *)

Section retrieval.
Context {St : Type} `{VectorStoreLaws St} (toISOString : nat → text).
Implicit Types (w : world St).

(** The Ollama calls leave the store as it is. *)
Lemma getEmbedding_store t w r w' :
    getEmbedding fetch_ollama t w = (r, w') → w_store w' = w_store w.
  Proof.
    intros Hrun. apply (getEmbedding_evolves fetch_ollama (same_on w_store) t) in Hrun; [done|].
    intros req w1 r1 w2. rewrite run_fetch_ollama. by intros [= _ <-].
  Qed.

Lemma getEmbedding_ollama t w r w' :
    getEmbedding fetch_ollama t w = (r, w') → w_ollama w' = w_ollama w.
  Proof.
    intros Hrun. apply (getEmbedding_evolves fetch_ollama (same_on w_ollama) t) in Hrun; [done|].
    intros req w1 r1 w2. rewrite run_fetch_ollama. by intros [= _ <-].
  Qed.

Lemma getEmbedding_world t w r w' :
    getEmbedding fetch_ollama t w = (r, w') →
    w' = record w (EvFetch (EmbeddingsReq MODEL_EMBEDDING t)) (w_latency w).
  Proof. intros (r1 & Hf)%getEmbedding_state. rewrite run_fetch_ollama in Hf. by injection Hf. Qed.

Lemma generate_world prompt w r w' :
    generate fetch_ollama prompt w = (r, w') →
    w' = record w (EvFetch (GenerateReq MODEL_GENERATION prompt false)) (w_latency w).
  Proof. intros (r1 & Hf)%generate_state. rewrite run_fetch_ollama in Hf. by injection Hf. Qed.

Lemma findSimilarDocuments_ollama u q k w r w' :
    findSimilarDocuments u q k w = (r, w') → w_ollama w' = w_ollama w.
  Proof.
    unfold findSimilarDocuments. rewrite run_bind.
    destruct (getEmbedding _ q w) as [[e|v] w1] eqn:E; apply getEmbedding_world in E as ->;
      [by intros [= _ <-]|].
    rewrite run_bind, run_store_query. destruct (vs_query _ _ _ _); by intros [= _ <-].
  Qed.

(** The generation call answers the [response] field of a 2xx JSON
    answer that is not [null]. *)
Lemma generate_answer prompt w ans w' :
    generate fetch_ollama prompt w = (inr ans, w') →
    ∃ r v, w_ollama w (GenerateReq MODEL_GENERATION prompt false) = Some r
      ∧ resp_ok r = true ∧ body r = Some v ∧ v ≠ JNull
      ∧ ans = match v with JObj fs => assoc_last fs "response" | _ => None end.
  Proof.
    unfold generate. rewrite run_bind, run_fetch_ollama.
    destruct (w_ollama w _) as [r|]; [|by intros [=]]. cbn.
    destruct (resp_ok r) eqn:Hok; [|by intros [=]]. cbn. unfold response_json.
    destruct (body r) as [v|] eqn:Hb; [|by intros [=]]. cbn. unfold get_prop.
    destruct v; cbn; intros [= <-]; eexists _, _; split_and!; done.
  Qed.

Lemma findSimilarDocuments_world u q k w r w' :
    findSimilarDocuments u q k w = (r, w') →
    w_trace w' = w_trace w ++ [EvFetch (EmbeddingsReq MODEL_EMBEDDING q); EvQuery u k]
    ∨ (w_trace w' = w_trace w ++ [EvFetch (EmbeddingsReq MODEL_EMBEDDING q)] ∧ ∃ e, r = inl e).
  Proof.
    unfold findSimilarDocuments. rewrite run_bind.
    destruct (getEmbedding _ q w) as [[e|v] w1] eqn:E; apply getEmbedding_world in E as ->;
      [intros [= <- <-]; right; eauto|].
    rewrite run_bind, run_store_query. destruct (vs_query _ _ _ _); intros [= _ <-]; left; cbn;
      by rewrite <-app_assoc.
  Qed.

Lemma findSimilarDocuments_inv u q k w docs w' :
    findSimilarDocuments u q k w = (inr docs, w') →
    ∃ v ms w1, getEmbedding fetch_ollama q w = (inr v, w1)
             ∧ vs_query u v k (w_store w) = inr ms ∧ docs = map to_doc ms.
  Proof.
    unfold findSimilarDocuments. rewrite run_bind.
    destruct (getEmbedding _ q w) as [[e|v] w1] eqn:E; [done|].
    rewrite run_bind, run_store_query, (getEmbedding_store _ _ _ _ E).
    destruct (vs_query u v k (w_store w)) as [f|ms] eqn:Hq; [by intros [=]|]. intros [= <- _]. exists v, ms, w1. done.
  Qed.

(** Every document retrieved is the text and metadata of a record of
    the namespace queried. *)
Lemma findSimilarDocuments_from (u : string) (q : json) (k : nat) w docs w' :
    findSimilarDocuments u q k w = (inr docs, w') →
    ∀ d, d ∈ docs → ∃ id r, vs_records (w_store w) u !! id = Some r
                           ∧ doc_metadata d = rec_metadata r
                           ∧ doc_text d = assoc_last (rec_metadata r) "text".
  Proof.
    intros (v & ms & w1 & _ & Hq & ->)%findSimilarDocuments_inv d (m & -> & Hm)%list_elem_of_fmap.
    destruct (vs_query_from _ _ _ _ _ _ Hq Hm) as (r & Hr & Hmd).
    exists (match_id m), r. cbn. by rewrite Hmd.
  Qed.

(** C7. [findSimilarDocuments u] returns at most [topK] documents, in
    non-increasing order of similarity, each the text and metadata of a
    record of namespace [u]. *)
Theorem findSimilarDocuments_spec (u : string) (q : json) (k : nat) w docs w' :
    findSimilarDocuments u q k w = (inr docs, w') →
    length docs ≤ k
    ∧ StronglySorted (λ a b, (similarity b ≤ similarity a)%Z) docs
    ∧ ∀ d, d ∈ docs → ∃ id r, vs_records (w_store w) u !! id = Some r
                             ∧ doc_metadata d = rec_metadata r
                             ∧ doc_text d = assoc_last (rec_metadata r) "text".
  Proof.
    intros Hf. split_and!; [| |exact (findSimilarDocuments_from u q k w docs w' Hf)];
      destruct (findSimilarDocuments_inv u q k w docs w' Hf) as (v & ms & w1 & _ & Hq & ->).
    - rewrite length_map. by eapply vs_query_topK.
    - apply StronglySorted_map. exact (vs_query_sorted _ _ _ _ _ Hq).
  Qed.

(** Ollama answers the embedding request for [t] with the array [v]. *)
Definition ollama_embeds w (t : json) (v : list json) : Prop :=
    w_ollama w (EmbeddingsReq MODEL_EMBEDDING t) = Some (mk_response 200 (Some (JObj [("embedding", JArr v)]))).

Lemma getEmbedding_embeds w t v :
    ollama_embeds w t v →
    getEmbedding fetch_ollama t w = (inr v, record w (EvFetch (EmbeddingsReq MODEL_EMBEDDING t)) (w_latency w)).
  Proof.
    intros Hv. eapply (getEmbedding_array fetch_ollama t w _ _ [("embedding", JArr v)]);
      [rewrite run_fetch_ollama, Hv; reflexivity|done..].
  Qed.

(** Retrieval succeeds when the query embeds into a vector the index
    accepts. *)
Lemma findSimilarDocuments_ok u q k w v :
    ollama_embeds w q v → valid_vector (w_store w) v →
    ∃ ms, vs_query u v k (w_store w) = inr ms ∧
          findSimilarDocuments u q k w
            = (inr (map to_doc ms), record (record w (EvFetch (EmbeddingsReq MODEL_EMBEDDING q)) (w_latency w))
                                     (EvQuery u k) (w_latency w)).
  Proof.
    intros Hv Hval. destruct (vs_query_ok u v k (w_store w) Hval) as [ms Hq].
    exists ms. split; [done|]. unfold findSimilarDocuments.
    rewrite run_bind, (getEmbedding_embeds w q v Hv). rewrite run_bind, run_store_query. cbn. by rewrite Hq.
  Qed.

(** C8. After [clearIndex u] succeeds, retrieval in [u] returns no
    document, for any query that embeds into a valid vector. *)
Theorem clear_then_find_empty (u : string) (q : json) (k : nat) w r w1 v :
    clearIndex u w = (inr r, w1) →
    ollama_embeds w q v → valid_vector (w_store w) v →
    ∃ w2, findSimilarDocuments u q k w1 = (inr [], w2).
  Proof.
    unfold clearIndex. rewrite run_bind, run_store_deleteAll. cbn.
    destruct (vs_deleteAll u (w_store w)) as [f|st] eqn:Hd; [by intros [=]|]. intros [= _ <-] Hv Hval.
    destruct (findSimilarDocuments_ok u q k
                (set_store (record w (EvDeleteAll u) (w_latency w)) st) v) as (ms & Hq & ->).
    - done.
    - destruct Hval as [Hlen Hnum]. split; [|done]. cbn. by rewrite (vs_deleteAll_dim _ _ _ Hd).
    - destruct ms as [|m ms]; [by eexists|exfalso].
      destruct (vs_query_from _ _ _ _ _ m Hq) as (r' & Hr & _); [by left|].
      cbn in Hr. by rewrite (vs_deleteAll_here _ _ _ Hd), lookup_empty in Hr.
  Qed.

(** [deleteUserIndex] is [clearIndex] with another message: same
    calls, same effect on the world, same errors. *)
Theorem deleteUserIndex_is_clearIndex (u : string) w :
    (deleteUserIndex u w).2 = (clearIndex u w).2 ∧
    (∀ e, (deleteUserIndex u w).1 = inl e ↔ (clearIndex u w).1 = inl e).
  Proof.
    unfold deleteUserIndex. rewrite run_bind.
    destruct (clearIndex u w) as [[e|x] w']; cbn; split; try done.
  Qed.

(** C15. [askQuestion u q true] answers with the documents
    [findSimilarDocuments u q 3] retrieves (at most 3, best first) and
    the [response] field of the generation service's answer to the fixed
    template around those documents' texts joined by blank lines and the
    question ([undefined] when the answer is not an object with that
    field); it embeds, queries [u]'s namespace and generates, in this
    order. *)
Theorem askQuestion_ok (u : string) (q : json) w res w' :
    askQuestion u q true w = (inr res, w') →
    ∃ docs w1 r v,
      let prompt := buildPrompt (context_of docs) (template_string q) in
      findSimilarDocuments u q 3 w = (inr docs, w1)
      ∧ w_ollama w (GenerateReq MODEL_GENERATION prompt false) = Some r
      ∧ resp_ok r = true ∧ body r = Some v ∧ v ≠ JNull
      ∧ res = Some (mk_answer q docs (match v with JObj fs => assoc_last fs "response" | _ => None end))
      ∧ length docs ≤ 3
      ∧ StronglySorted (λ a b, (similarity b ≤ similarity a)%Z) docs
      ∧ w_trace w' = w_trace w ++ [EvFetch (EmbeddingsReq MODEL_EMBEDDING q); EvQuery u 3;
                                   EvFetch (GenerateReq MODEL_GENERATION prompt false)].
  Proof.
    unfold askQuestion. rewrite run_bind.
    destruct (findSimilarDocuments u q 3 w) as [[e|docs] w1] eqn:E; [by intros [=]|].
    destruct (findSimilarDocuments_inv u q 3 w docs w1 E) as (v & ms & w1' & _ & Hq & Hdocs).
    assert (Hlen : length docs ≤ 3) by (rewrite Hdocs, length_map; by eapply vs_query_topK).
    assert (Hsort : StronglySorted (λ a b, (similarity b ≤ similarity a)%Z) docs)
      by (rewrite Hdocs; apply StronglySorted_map; exact (vs_query_sorted _ _ _ _ _ Hq)).
    destruct (findSimilarDocuments_world u q 3 w _ w1 E) as [Htr|[_ [e ?]]]; [|done].
    rewrite <-(findSimilarDocuments_ollama u q 3 w _ w1 E), run_bind.
    destruct (generate _ _ w1) as [[e|ans] w2] eqn:G; [by intros [=]|].
    destruct (generate_answer _ _ _ _ G) as (r & b & Hr & Hok & Hb & Hnull & ->).
    apply generate_world in G as ->. intros [= <- <-].
    exists docs, w1, r, b. split_and!; try done. cbn. rewrite Htr. by rewrite <-app_assoc.
  Qed.
End retrieval.

(** ** Witnesses, on the Pinecone model *)

Section witnesses.
Import PineconeModel.

Abbreviation demo_w := (example_world 2 IndexReady 0 0 embed_len).
(** The world after [alice] ingested one sentence. *)
Definition alice_w : world pc_state :=
    (addDocument nat_to_text "alice" (lit "Hello world.") [] demo_w).2.

Lemma findSimilarDocuments_spec_witness :
    let f := findSimilarDocuments "alice" (JStr (lit "hi")) 3 alice_w in
    f = (inr (from_inr [] f.1), f.2) ∧ length (from_inr [] f.1) ≤ 3 ∧ length (from_inr [] f.1) = 1.
  Proof.
    intros f. assert (Hf : f = (inr (from_inr [] f.1), f.2)) by (vm_compute; reflexivity).
    split; [exact Hf|]. split; [|vm_compute; reflexivity].
    exact (proj1 (findSimilarDocuments_spec "alice" (JStr (lit "hi")) 3 alice_w _ _ Hf)).
  Defined.

Lemma clear_then_find_empty_witness :
    let c := clearIndex "alice" alice_w in
    c = (inr (from_inr (mk_op false []) c.1), c.2) ∧
    ollama_embeds alice_w (JStr (lit "hi")) [JNum 2; JNum 1] ∧
    valid_vector (w_store alice_w) [JNum 2; JNum 1] ∧
    ∃ w2, findSimilarDocuments "alice" (JStr (lit "hi")) 3 c.2 = (inr [], w2).
  Proof.
    intros c. assert (Hc : c = (inr (from_inr (mk_op false []) c.1), c.2)) by (vm_compute; reflexivity).
    assert (Hv : ollama_embeds alice_w (JStr (lit "hi")) [JNum 2; JNum 1]) by (vm_compute; reflexivity).
    assert (Hval : valid_vector (w_store alice_w) [JNum 2; JNum 1]) by (split; vm_compute; eauto).
    split_and!; [exact Hc|exact Hv|exact Hval|].
    exact (clear_then_find_empty "alice" (JStr (lit "hi")) 3 alice_w _ _ _ Hc Hv Hval).
  Defined.

Lemma askQuestion_ok_witness :
    let a := askQuestion "alice" (JStr (lit "hi")) true alice_w in
    a = (inr (from_inr None a.1), a.2) ∧
    ∃ docs ans, from_inr None a.1 = Some (mk_answer (JStr (lit "hi")) docs ans) ∧ length docs ≤ 3.
  Proof.
    intros a. assert (Ha : a = (inr (from_inr None a.1), a.2)) by (vm_compute; reflexivity).
    split; [exact Ha|].
    destruct (askQuestion_ok "alice" (JStr (lit "hi")) alice_w _ _ Ha)
      as (docs & w1 & r & v & _ & _ & _ & _ & _ & Hres & Hlen & _).
    eauto.
  Defined.
End witnesses.

End Rag.
