(* ===== verification/Ingest.v ===== *)
(** * Properties of the IngestionPipeline: [addDocument] and its callers

    The ids [addDocument] builds are injective in (timestamp, chunk
    index); the metadata it stores carries the chunk's text, index, count
    and owner whatever the caller passes; on success each chunk is stored
    under its id, the calls are made one chunk at a time, embedding before
    upsert; on failure nothing is rolled back.  The id scheme collides
    across documents ingested within one millisecond. *)

From S2P Require Import Prelude Text Normal Chunker Ollama VectorStore World Lifecycle Rag.
Open Scope rag_scope.

Module Ingest.
Import Text Normal Chunker Ollama VectorStore World Lifecycle Rag.

(** ** Record ids *)

Definition no_underscore (s : string) : Prop := "_"%char ∉ String.list_ascii_of_string s.

Lemma pretty_no_underscore (n : nat) : no_underscore (pretty n).
Proof.
  unfold no_underscore. intros Hin. destruct (nat_to_text_digits n) as [Hd _].
  rewrite Forall_forall in Hd. by specialize (Hd _ Hin).
Qed.

Lemma list_ascii_of_string_app (a b : string) :
  String.list_ascii_of_string (a +:+ b) = String.list_ascii_of_string a ++ String.list_ascii_of_string b.
Proof. induction a as [|c a IH]; [done|]. cbn. rewrite <-IH. reflexivity. Qed.

Lemma list_ascii_of_string_inj (a b : string) :
  String.list_ascii_of_string a = String.list_ascii_of_string b → a = b.
Proof. intros H. by rewrite <-(String.string_of_list_ascii_of_string a), H, String.string_of_list_ascii_of_string. Qed.

(** Two digit strings followed by an underscore split the same way. *)
Lemma split_at_underscore (a b x y : text) :
  "_"%char ∉ a → "_"%char ∉ b → a ++ "_"%char :: x = b ++ "_"%char :: y → a = b ∧ x = y.
Proof.
  revert b. induction a as [|c a IH]; intros [|d b] Ha Hb; cbn; intros Heq.
  - by injection Heq.
  - injection Heq as <- _. set_solver.
  - injection Heq as -> _. set_solver.
  - injection Heq as <- Heq. destruct (IH b) as [-> ->]; [set_solver|set_solver|done|done].
Qed.

Lemma record_id_split (t1 i1 t2 i2 : nat) :
  record_id t1 i1 = record_id t2 i2 → t1 = t2 ∧ i1 = i2.
Proof.
  unfold record_id. intros H. apply (f_equal String.list_ascii_of_string) in H.
  rewrite !list_ascii_of_string_app in H. cbn in H. injection H as H.
  apply split_at_underscore in H as [Ht Hi]; [|apply pretty_no_underscore..].
  cbn in Hi. injection Hi as Hi.
  apply list_ascii_of_string_inj in Ht, Hi. split; by apply (inj pretty).
Qed.

(** C13. The id [`doc_${now}_chunk_${i}`] determines [now] and [i]. *)
Theorem record_id_inj (t1 i1 t2 i2 : nat) :
  record_id t1 i1 = record_id t2 i2 → t1 = t2 ∧ i1 = i2.
Proof. apply record_id_split. Qed.

Lemma record_id_inj_witness :
  record_id 5 0 = record_id 5 0 ∧ 5 = 5 ∧ 0 = 0.
Proof. split; [reflexivity|]. apply (record_id_inj 5 0 5 0). reflexivity. Defined.

(** ** Metadata objects *)

Lemma assoc_last_filter (fs : metadata) (k k' : string) :
  assoc_last (filter (λ kv, kv.1 ≠ k) fs) k' = if bool_decide (k' = k) then None else assoc_last fs k'.
Proof.
  induction fs as [|[k1 v1] fs IH]; [cbn; by case_bool_decide|].
  rewrite filter_cons. cbn [fst]. destruct (decide (k1 ≠ k)) as [Hk1|Hk1]; cbn [assoc_last]; rewrite IH;
    repeat case_bool_decide; subst; try done; destruct (assoc_last fs _); done.
Qed.

Lemma assoc_last_obj_set (fs : metadata) (k k' : string) (v : json) :
  assoc_last (obj_set fs k v) k' = if bool_decide (k' = k) then Some v else assoc_last fs k'.
Proof.
  induction fs as [|[k1 v1] fs IH]; [cbn; by repeat case_bool_decide|].
  cbn [obj_set]. destruct (decide (k = k1)) as [<-|Hk1].
  - rewrite (bool_decide_eq_true_2 (k = k)) by done. cbn [assoc_last]. rewrite assoc_last_filter.
    repeat case_bool_decide; subst; done.
  - rewrite (bool_decide_eq_false_2 (k = k1)) by done. cbn [assoc_last]. rewrite IH.
    repeat case_bool_decide; subst; try done; destruct (assoc_last fs _); done.
Qed.

(** The last pair of a literal wins. *)
Lemma assoc_last_snoc (fs : metadata) (k1 k : string) (v1 : json) :
  assoc_last (fs ++ [(k1, v1)]) k = if bool_decide (k = k1) then Some v1 else assoc_last fs k.
Proof.
  induction fs as [|[k2 v2] fs IH]; cbn; [by case_bool_decide|].
  rewrite IH. by case_bool_decide.
Qed.

Lemma assoc_last_spread (base extra : metadata) (k : string) :
  assoc_last (spread base extra) k =
    match assoc_last extra k with Some v => Some v | None => assoc_last base k end.
Proof.
  unfold spread. revert base. induction extra as [|[k1 v1] extra IH] using rev_ind; intros base; [done|].
  rewrite fold_left_app. cbn. rewrite assoc_last_obj_set, IH, assoc_last_snoc.
  by case_bool_decide.
Qed.

(** ** The loop of [addDocument] *)

(** The calls of the chunks [res], in order: embed, then upsert. *)
Definition chunk_events (u : string) (res : list (string * text)) : list event :=
  concat (map (λ ic, [EvFetch (EmbeddingsReq MODEL_EMBEDDING (JStr ic.2)); EvUpsert u ic.1]) res).

Section loop.
Context {St : Type} `{VectorStoreLaws St} (toISOString : nat → text).
Context (u : string) (md : metadata) (n : nat).
Implicit Types (w : world St).

(** One iteration, successful: chunk [c] gets the id of the clock after
    its embedding, and is upserted under it. *)
Lemma add_chunk_ok i c w res w' :
    add_chunk toISOString u md n i c w = (inr res, w') →
    let t := w_clock w + w_latency w in
    ∃ emb, res = (record_id t i, c)
      ∧ w_trace w' = w_trace w ++ [EvFetch (EmbeddingsReq MODEL_EMBEDDING (JStr c)); EvUpsert u (record_id t i)]
      ∧ vs_records (w_store w') u
          = <[record_id t i := mk_vrecord (record_id t i) emb (chunk_metadata md c i n (toISOString t) u)]>
              (vs_records (w_store w) u)
      ∧ w_latency w' = w_latency w
      ∧ w_clock w' = w_clock w + 2 * w_latency w.
  Proof.
    unfold add_chunk. rewrite run_bind.
    destruct (getEmbedding fetch_ollama (JStr c) w) as [[e|emb] w1] eqn:E; [by intros [=]|].
    apply getEmbedding_world in E as ->.
    rewrite run_bind, run_now, run_bind, run_store_upsert. cbn.
    match goal with |- context [vs_upsert u ?r ?st] => destruct (vs_upsert u r st) as [f|st'] eqn:Hu end;
      [by intros [=]|].
    intros [= <- <-]. exists emb. split_and!; [done| |cbn; by rewrite (vs_upsert_here _ _ _ _ Hu)|done|cbn; lia].
    cbn. by rewrite <-app_assoc.
  Qed.

Lemma add_chunks_ok (chunks : list text) i w res w' :
    mapM_i (add_chunk toISOString u md n) i chunks w = (inr res, w') →
    map snd res = chunks
    ∧ w_trace w' = w_trace w ++ chunk_events u res
    ∧ w_latency w' = w_latency w
    ∧ w_clock w' = w_clock w + 2 * length chunks * w_latency w
    ∧ (∀ j id c, res !! j = Some (id, c) →
         ∃ t emb, id = record_id t (i + j)
                ∧ vs_records (w_store w') u !! id
                    = Some (mk_vrecord id emb (chunk_metadata md c (i + j) n (toISOString t) u)))
    ∧ (∀ id, (∀ t j, id ≠ record_id t (i + j)) →
         vs_records (w_store w') u !! id = vs_records (w_store w) u !! id).
  Proof.
    revert i w res. induction chunks as [|c chunks IH]; intros i w res.
    { intros [= <- <-]. split_and!; [done|by rewrite app_nil_r|done|cbn; lia|by intros []|done]. }
    cbn [mapM_i]. rewrite run_bind.
    destruct (add_chunk _ _ _ _ i c w) as [[e|[id c']] w1] eqn:E1; [by intros [=]|].
    destruct (add_chunk_ok _ _ _ _ _ E1) as (emb & [= -> ->] & Htr1 & Hst1 & Hlat1 & Hclk1).
    rewrite run_bind.
    destruct (mapM_i _ (S i) chunks w1) as [[e|rs] w2] eqn:E2; [by intros [=]|].
    intros [= <- <-].
    destruct (IH _ _ _ E2) as (Hsnd & Htr2 & Hlat2 & Hclk2 & Hrec & Hframe).
    set (t0 := w_clock w + w_latency w) in *.
    assert (Hne : ∀ t j, record_id t0 i ≠ record_id t (S i + j)).
    { intros t j [_ ?]%record_id_split. lia. }
    split_and!.
    - cbn. by rewrite Hsnd.
    - rewrite Htr2, Htr1. unfold chunk_events. cbn. by rewrite <-!app_assoc.
    - by rewrite Hlat2.
    - rewrite Hclk2, Hclk1, Hlat1. cbn [length]. lia.
    - intros [|j] id c0 Hj; cbn in Hj.
      + injection Hj as <- <-. exists t0, emb. split; [by rewrite Nat.add_0_r|].
        rewrite Hframe by done. rewrite Hst1, lookup_insert_eq. by rewrite Nat.add_0_r.
      + destruct (Hrec j id c0 Hj) as (t & emb' & -> & Hl). exists t, emb'.
        replace (i + S j) with (S i + j) by lia. done.
    - intros id Hid. rewrite Hframe.
      + rewrite Hst1, lookup_insert_ne; [done|]. intros <-. apply (Hid t0 0). by rewrite Nat.add_0_r.
      + intros t j. replace (S i + j) with (i + S j) by lia. apply Hid.
  Qed.

(** One iteration, failing: in the embedding, or in the upsert. *)
Lemma add_chunk_err i c w e w' :
    add_chunk toISOString u md n i c w = (inl e, w') →
    w_store w' = w_store w
    ∧ (w_trace w' = w_trace w ++ [EvFetch (EmbeddingsReq MODEL_EMBEDDING (JStr c))]
       ∨ ∃ id, w_trace w' = w_trace w ++ [EvFetch (EmbeddingsReq MODEL_EMBEDDING (JStr c)); EvUpsert u id]).
  Proof.
    unfold add_chunk. rewrite run_bind.
    destruct (getEmbedding fetch_ollama (JStr c) w) as [[e'|emb] w1] eqn:E;
      apply getEmbedding_world in E as ->; [intros [= _ <-]; split; [done|by left]|].
    rewrite run_bind, run_now, run_bind, run_store_upsert. cbn.
    match goal with |- context [vs_upsert u ?r ?st] => destruct (vs_upsert u r st) as [f|st'] eqn:Hu end;
      [|by intros [=]].
    intros [= _ <-]. split; [done|right]. eexists. cbn. by rewrite <-app_assoc.
  Qed.

Lemma add_chunks_err (chunks : list text) i w e w' :
    mapM_i (add_chunk toISOString u md n) i chunks w = (inl e, w') →
    ∃ done c rest,
      chunks = map snd done ++ c :: rest
      ∧ (w_trace w' = w_trace w ++ chunk_events u done ++ [EvFetch (EmbeddingsReq MODEL_EMBEDDING (JStr c))]
         ∨ ∃ id, w_trace w' = w_trace w ++ chunk_events u done
                               ++ [EvFetch (EmbeddingsReq MODEL_EMBEDDING (JStr c)); EvUpsert u id])
      ∧ (∀ j id c0, done !! j = Some (id, c0) →
           ∃ t emb, id = record_id t (i + j)
                  ∧ vs_records (w_store w') u !! id
                      = Some (mk_vrecord id emb (chunk_metadata md c0 (i + j) n (toISOString t) u)))
      ∧ (∀ id, (∀ t j, id ≠ record_id t (i + j)) →
           vs_records (w_store w') u !! id = vs_records (w_store w) u !! id).
  Proof.
    revert i w. induction chunks as [|c chunks IH]; intros i w; [by intros [=]|].
    cbn [mapM_i]. rewrite run_bind.
    destruct (add_chunk _ _ _ _ i c w) as [[e1|[id c']] w1] eqn:E1.
    { intros [= <- <-]. destruct (add_chunk_err _ _ _ _ _ E1) as [Hst Htr].
      exists [], c, chunks. split_and!; [done| |by intros []|by rewrite Hst].
      destruct Htr as [Htr|[id Htr]]; [left|right; exists id]; by rewrite Htr. }
    destruct (add_chunk_ok _ _ _ _ _ E1) as (emb & [= -> ->] & Htr1 & Hst1 & _).
    rewrite run_bind.
    destruct (mapM_i _ (S i) chunks w1) as [[e2|rs] w2] eqn:E2; [|by intros [=]].
    intros [= <- <-].
    destruct (IH _ _ E2) as (done & c0 & rest & -> & Htr & Hrec & Hframe).
    set (t0 := w_clock w + w_latency w) in *.
    assert (Hne : ∀ t j, record_id t0 i ≠ record_id t (S i + j)).
    { intros t j [_ ?]%record_id_split. lia. }
    exists ((record_id t0 i, c) :: done), c0, rest. split_and!.
    - done.
    - rewrite Htr1 in Htr. unfold chunk_events in *. cbn.
      destruct Htr as [Htr|[id Htr]]; [left|right; exists id]; rewrite Htr; by rewrite <-!app_assoc.
    - intros [|j] id c1 Hj; cbn in Hj.
      + injection Hj as <- <-. exists t0, emb. split; [by rewrite Nat.add_0_r|].
        rewrite Hframe by done. rewrite Hst1, lookup_insert_eq. by rewrite Nat.add_0_r.
      + destruct (Hrec j id c1 Hj) as (t & emb' & -> & Hl). exists t, emb'.
        replace (i + S j) with (S i + j) by lia. done.
    - intros id Hid. rewrite Hframe.
      + rewrite Hst1, lookup_insert_ne; [done|]. intros <-. apply (Hid t0 0). by rewrite Nat.add_0_r.
      + intros t j. replace (S i + j) with (i + S j) by lia. apply Hid.
  Qed.

(** The loop runs to the end when every chunk embeds into a vector the
    index accepts. *)
Lemma add_chunks_total (chunks : list text) i w :
    (∀ c, c ∈ chunks → ∃ v, ollama_embeds w (JStr c) v ∧ valid_vector (w_store w) v) →
    ∃ res w', mapM_i (add_chunk toISOString u md n) i chunks w = (inr res, w').
  Proof.
    revert i w. induction chunks as [|c chunks IH]; intros i w Hall; [by eexists _, _|].
    destruct (Hall c (list_elem_of_here _ _)) as (v & Hv & [Hlen Hnum]).
    cbn [mapM_i]. unfold add_chunk at 1. rewrite !run_bind, (getEmbedding_embeds w (JStr c) v Hv).
    rewrite run_bind, run_now, run_bind, run_store_upsert. cbn.
    match goal with |- context [vs_upsert u ?r ?st] =>
      destruct (vs_upsert_ok u r st) as [st' Hu]; [by split|]; rewrite Hu end.
    cbn. rewrite run_bind.
    match goal with |- context [mapM_i _ (S i) chunks ?w1] =>
      destruct (IH (S i) w1) as (rs & w2 & ->) end.
    - intros c' Hc'. destruct (Hall c' (list_elem_of_further _ _ _ Hc')) as (v' & Hv' & [Hl' Hn']).
      exists v'. split; [done|]. split; [|done]. cbn. by rewrite (vs_upsert_dim _ _ _ _ Hu).
    - by eexists _, _.
  Qed.
(** With calls that take no time, the first chunk is stored under
    [doc_<clock>_chunk_0], and the clock does not move. *)
Lemma add_chunks_first c chunks w res w' :
    w_latency w = 0 →
    mapM_i (add_chunk toISOString u md n) 0 (c :: chunks) w = (inr res, w') →
    ∃ emb, res !! 0 = Some (record_id (w_clock w) 0, c)
      ∧ vs_records (w_store w') u !! record_id (w_clock w) 0
          = Some (mk_vrecord (record_id (w_clock w) 0) emb (chunk_metadata md c 0 n (toISOString (w_clock w)) u))
      ∧ w_latency w' = 0 ∧ w_clock w' = w_clock w.
  Proof.
    intros Hl. cbn [mapM_i]. rewrite run_bind.
    destruct (add_chunk _ _ _ _ 0 c w) as [[e|[id c']] w1] eqn:E1; [by intros [=]|].
    destruct (add_chunk_ok _ _ _ _ _ E1) as (emb & [= -> ->] & _ & Hst1 & Hlat1 & Hclk1).
    rewrite Hl, Nat.add_0_r in *. rewrite run_bind.
    destruct (mapM_i _ 1 chunks w1) as [[e|rs] w2] eqn:E2; [by intros [=]|]. intros [= <- <-].
    destruct (add_chunks_ok _ _ _ _ _ E2) as (_ & _ & Hlat2 & Hclk2 & _ & Hframe).
    exists emb. split_and!; [done| | |].
    - rewrite Hframe, Hst1, lookup_insert_eq; [done|]. intros t j [_ ?]%record_id_split. lia.
    - by rewrite Hlat2, Hlat1.
    - rewrite Hclk2, Hlat1, Hclk1. lia.
  Qed.
End loop.

(** ** Properties of [addDocument] and [addPdfDocument] *)

Section ingest.
Context {St : Type} `{VectorStoreLaws St} (toISOString : nat → text).
Implicit Types (w : world St).

(** C9. A successful [addDocument u t md] returns the chunks of
    [splitIntoChunks t 1000] in order, made exactly one embed then one
    upsert per chunk, in chunk order, and left each chunk [j] stored in
    namespace [u] under its id [doc_<ts>_chunk_<j>], with its metadata. *)
Theorem addDocument_ok (u : string) (t : text) (md : metadata) w res w' :
    addDocument toISOString u t md w = (inr res, w') →
    let chunks := splitIntoChunks t CHUNK_SIZE in
    add_success res = true
    ∧ map snd (add_chunks res) = chunks
    ∧ w_trace w' = w_trace w ++ chunk_events u (add_chunks res)
    ∧ ∀ j id c, add_chunks res !! j = Some (id, c) →
        ∃ ts emb, id = record_id ts j
                ∧ vs_records (w_store w') u !! id
                    = Some (mk_vrecord id emb (chunk_metadata md c j (length chunks) (toISOString ts) u)).
  Proof.
    unfold addDocument. rewrite run_bind.
    destruct (mapM_i _ 0 _ w) as [[e|rs] w1] eqn:E; [by intros [=]|]. intros [= <- <-].
    destruct (add_chunks_ok _ _ _ _ _ _ _ _ _ E) as (Hsnd & Htr & _ & _ & Hrec & _).
    split_and!; [done|done|done|]. intros j id c Hj. apply (Hrec j id c Hj).
  Qed.

(** C10. A failing [addDocument] is not rolled back: the chunks before
    the failing one were embedded and upserted in order and stay stored;
    processing stopped at the failing chunk, in its embedding or in its
    upsert. *)
Theorem addDocument_no_rollback (u : string) (t : text) (md : metadata) w e w' :
    addDocument toISOString u t md w = (inl e, w') →
    let chunks := splitIntoChunks t CHUNK_SIZE in
    ∃ done c rest,
      chunks = map snd done ++ c :: rest
      ∧ (w_trace w' = w_trace w ++ chunk_events u done ++ [EvFetch (EmbeddingsReq MODEL_EMBEDDING (JStr c))]
         ∨ ∃ id, w_trace w' = w_trace w ++ chunk_events u done
                               ++ [EvFetch (EmbeddingsReq MODEL_EMBEDDING (JStr c)); EvUpsert u id])
      ∧ ∀ j id c0, done !! j = Some (id, c0) →
          ∃ ts emb, id = record_id ts j
                  ∧ vs_records (w_store w') u !! id
                      = Some (mk_vrecord id emb (chunk_metadata md c0 j (length chunks) (toISOString ts) u)).
  Proof.
    unfold addDocument. rewrite run_bind.
    destruct (mapM_i _ 0 _ w) as [[e1|rs] w1] eqn:E; [|by intros [=]]. intros [= <- <-].
    destruct (add_chunks_err _ _ _ _ _ _ _ _ _ E) as (done & c & rest & Hch & Htr & Hrec & _).
    exists done, c, rest. split_and!; [done|done|]. intros j id c0 Hj. apply (Hrec j id c0 Hj).
  Qed.

(** C11. [addDocument] returns a result whenever Ollama embeds every
    chunk into a vector the index accepts. *)
Theorem addDocument_total (u : string) (t : text) (md : metadata) w :
    (∀ c, c ∈ splitIntoChunks t CHUNK_SIZE → ∃ v, ollama_embeds w (JStr c) v ∧ valid_vector (w_store w) v) →
    ∃ res w', addDocument toISOString u t md w = (inr res, w').
  Proof.
    intros Hall. unfold addDocument. rewrite run_bind.
    destruct (add_chunks_total toISOString u md (length (splitIntoChunks t CHUNK_SIZE)) _ 0 w Hall)
      as (res & w' & ->).
    by eexists _, _.
  Qed.


End ingest.

(** C14. Whatever metadata the caller passes, the object stored with a
    chunk has the chunk's text, index, count and owner under [text],
    [chunkIndex], [totalChunks] and [userId]; every other key keeps the
    caller's value. *)
Theorem chunk_metadata_fields (md : metadata) (c : text) (i n : nat) (ts : text) (u : string) :
  let m := chunk_metadata md c i n ts u in
  assoc_last m "text" = Some (JStr c)
  ∧ assoc_last m "chunkIndex" = Some (JNum (Z.of_nat i))
  ∧ assoc_last m "totalChunks" = Some (JNum (Z.of_nat n))
  ∧ assoc_last m "userId" = Some (JStr (lit u))
  ∧ ∀ k, k ∉ ["text"; "chunkIndex"; "totalChunks"; "timestamp"; "userId"] → assoc_last m k = assoc_last md k.
Proof.
  unfold chunk_metadata. cbn zeta. rewrite !assoc_last_spread. split_and!; try done.
  intros k Hk. rewrite assoc_last_spread. cbn.
  repeat rewrite not_elem_of_cons in Hk. destruct_and!.
  by repeat (rewrite bool_decide_eq_false_2 by done).
Qed.

(** ** The id scheme collides *)

Section collision.
Context {St : Type} `{VectorStoreLaws St} (toISOString : nat → text).
Implicit Types (w : world St).

(** C12. Ids are not unique across documents: when the calls complete
    within the millisecond, two documents added one after the other for
    the same tenant both report their first chunk under the id
    [doc_<ms>_chunk_0], and afterwards that id holds only the second
    document's chunk; the first document's chunk is overwritten. *)
Theorem addDocuments_id_collision (u : string) (t1 t2 : text) (md1 md2 : metadata) c1 c2 rest1 rest2
    w r1 w1 r2 w2 :
    w_latency w = 0 →
    splitIntoChunks t1 CHUNK_SIZE = c1 :: rest1 → splitIntoChunks t2 CHUNK_SIZE = c2 :: rest2 →
    addDocument toISOString u t1 md1 w = (inr r1, w1) →
    addDocument toISOString u t2 md2 w1 = (inr r2, w2) →
    let id := record_id (w_clock w) 0 in
    add_chunks r1 !! 0 = Some (id, c1) ∧ add_chunks r2 !! 0 = Some (id, c2)
    ∧ ∃ emb, vs_records (w_store w2) u !! id
             = Some (mk_vrecord id emb (chunk_metadata md2 c2 0 (S (length rest2)) (toISOString (w_clock w)) u)).
  Proof.
    intros Hl Hc1 Hc2. unfold addDocument. rewrite Hc1, Hc2, !run_bind.
    destruct (mapM_i _ 0 (c1 :: rest1) w) as [[e|rs1] w1'] eqn:E1; [by intros [=]|]. intros [= <- <-].
    destruct (add_chunks_first _ _ _ _ _ _ _ _ _ Hl E1) as (_ & Hr1 & _ & Hl1 & Hclk1).
    destruct (mapM_i _ 0 (c2 :: rest2) w1') as [[e|rs2] w2'] eqn:E2; [by intros [=]|]. intros [= <- <-].
    destruct (add_chunks_first _ _ _ _ _ _ _ _ _ Hl1 E2) as (emb & Hr2 & Hst2 & _).
    rewrite Hclk1 in Hr2, Hst2. cbn. eauto.
  Qed.
End collision.

Section collision_witness.
Import PineconeModel.

(** A world whose calls complete within the millisecond. *)
Definition fast_world : world pc_state :=
    mk_world (mk_pc 2 dot ∅) IndexReady 0 0 embed_len (λ _, None) 0 42 [].

Lemma addDocuments_id_collision_witness :
    let a1 := addDocument nat_to_text "alice" (lit "First doc.") [] fast_world in
    let a2 := addDocument nat_to_text "alice" (lit "Second doc.") [] a1.2 in
    add_chunks (from_inr (mk_add_result false [] []) a2.1) !! 0 = Some ("doc_42_chunk_0", lit "Second doc.").
  Proof.
    intros a1 a2.
    assert (H1 : a1 = (inr (from_inr (mk_add_result false [] []) a1.1), a1.2)) by (vm_compute; reflexivity).
    assert (H2 : a2 = (inr (from_inr (mk_add_result false [] []) a2.1), a2.2)) by (vm_compute; reflexivity).
    destruct (addDocuments_id_collision nat_to_text "alice" (lit "First doc.") (lit "Second doc.") [] []
                (lit "First doc.") (lit "Second doc.") [] [] fast_world _ _ _ _
                eq_refl ltac:(vm_compute; reflexivity) ltac:(vm_compute; reflexivity) H1 H2) as (_ & H & _).
    exact H.
  Defined.
End collision_witness.

(** ** Witnesses *)

Section witnesses.
Import PineconeModel.

Abbreviation demo_w := (example_world 2 IndexReady 0 0 embed_len).
Abbreviation down_w := (example_world 2 IndexReady 0 0 (λ _, None)).

Lemma addDocument_ok_witness :
    let a := addDocument nat_to_text "alice" (lit "Hello world. Bye!") [] demo_w in
    a = (inr (from_inr (mk_add_result false [] []) a.1), a.2) ∧
    map snd (add_chunks (from_inr (mk_add_result false [] []) a.1))
      = splitIntoChunks (lit "Hello world. Bye!") CHUNK_SIZE.
  Proof.
    intros a. assert (Ha : a = (inr (from_inr (mk_add_result false [] []) a.1), a.2))
      by (vm_compute; reflexivity).
    split; [exact Ha|].
    exact (proj1 (proj2 (addDocument_ok nat_to_text "alice" (lit "Hello world. Bye!") [] demo_w _ _ Ha))).
  Defined.

Lemma addDocument_no_rollback_witness :
    let a := addDocument nat_to_text "alice" (lit "Hello world.") [] down_w in
    a = (inl FetchFailed, a.2) ∧
    ∃ (done : list (string * text)) c rest, splitIntoChunks (lit "Hello world.") CHUNK_SIZE = map snd done ++ c :: rest.
  Proof.
    intros a. assert (Ha : a = (inl FetchFailed, a.2)) by (vm_compute; reflexivity).
    split; [exact Ha|].
    destruct (addDocument_no_rollback nat_to_text "alice" (lit "Hello world.") [] down_w _ _ Ha)
      as (done & c & rest & Hc & _). eauto.
  Defined.

Lemma addDocument_total_witness :
    (∀ c, c ∈ splitIntoChunks (lit "Hello world.") CHUNK_SIZE →
       ∃ v, ollama_embeds demo_w (JStr c) v ∧ valid_vector (w_store demo_w) v) ∧
    ∃ res w', addDocument nat_to_text "alice" (lit "Hello world.") [] demo_w = (inr res, w').
  Proof.
    assert (Hall : ∀ c, c ∈ splitIntoChunks (lit "Hello world.") CHUNK_SIZE →
                   ∃ v, ollama_embeds demo_w (JStr c) v ∧ valid_vector (w_store demo_w) v).
    { intros c Hc. vm_compute in Hc. apply list_elem_of_singleton in Hc as ->.
      exists [JNum 12; JNum 1]. split; [vm_compute; reflexivity|split; vm_compute; eauto]. }
    split; [exact Hall|]. exact (addDocument_total nat_to_text "alice" (lit "Hello world.") [] demo_w Hall).
  Defined.

Lemma chunk_metadata_fields_witness :
    assoc_last (chunk_metadata [("title", JStr (lit "T")); ("text", JStr (lit "spoof"))]
                  (lit "real") 0 1 [] "alice") "text" = Some (JStr (lit "real")).
  Proof. exact (proj1 (chunk_metadata_fields _ (lit "real") 0 1 [] "alice")). Defined.
End witnesses.

End Ingest.
