(* ===== verification/Server.v ===== *)
(** * The HTTP server: the Express routes of server.js

    Each route handler is one function from the request it matched to the
    response it sends, run against the [world] of the pipelines: the
    [validateUserId] middleware, the route's own checks (the 400
    answers), the call into rag.js, and the [try]/[catch] that turns an
    exception into a 500 answer.  Express's routing, multer's multipart
    parsing and [express.json()] are the library around the handlers: a
    request reaches a handler as the [request] it matched, with [:userId]
    bound to a non-empty path segment and the parsed body. *)

From S2P Require Import Prelude Text Ollama VectorStore World Lifecycle Rag.
Open Scope rag_scope.

Module Server.
Import Text Ollama VectorStore World Lifecycle Rag.

(** ** Requests and responses *)

(** [req.file] as multer hands it over: the buffer, decoded as the text
    [buffer.toString('utf-8')] gives, the original name, the size. *)
Record upload := mk_upload { file_buffer : text; file_originalname : string; file_size : Z }.

(** A request, by the route it matched, with the [:userId] parameter, the
    parsed body ([{}] when there is none) and the uploaded file. *)
Inductive request : Type :=
  | GetHealth
  | PostUser (userId : string) (body : metadata)
  | DeleteUser (userId : string) (body : metadata)
  | PostDocuments (userId : string) (body : metadata)
  | PostPdf (userId : string) (body : metadata) (file : option upload)
  | PostTxt (userId : string) (body : metadata) (file : option upload)
  | DeleteDocuments (userId : string) (body : metadata)
  | PostAsk (userId : string) (body : metadata).

(** [res.status(code).json(body)] *)
Record response := mk_res { res_status : Z; res_body : json }.

(** The tenant a request acts for. *)
Definition request_user (r : request) : option string :=
  match r with
  | GetHealth => None
  | PostUser u _ | DeleteUser u _ | PostDocuments u _ | PostPdf u _ _ | PostTxt u _ _
  | DeleteDocuments u _ | PostAsk u _ => Some u
  end.

(** ** [res.json(result)]: the JSON of the values rag.js returns *)

Definition op_json (r : op_result) : json :=
  JObj [("success", JBool (success r)); ("message", JStr (message r))].

Definition add_json (r : add_result) : json :=
  JObj [("success", JBool (add_success r)); ("message", JStr (add_message r));
        ("chunks", JArr (map (λ ic, JObj [("id", JStr (lit ic.1)); ("chunk", JStr ic.2)]) (add_chunks r)))].

(** [JSON.stringify] leaves out a property whose value is [undefined]. *)
Definition opt_field (k : string) (o : option json) : metadata :=
  match o with Some v => [(k, v)] | None => [] end.

Definition doc_json (d : similar_doc) : json :=
  JObj (opt_field "text" (doc_text d) ++
        [("similarity", JNum (similarity d)); ("metadata", JObj (doc_metadata d))]).

Definition answer_json (r : option answer_result) : json :=
  match r with
  | Some a => JObj ([("question", ans_question a);
                     ("relevantDocuments", JArr (map doc_json (relevantDocuments a)))]
                    ++ opt_field "answer" (answer a))
  | None => JNull
  end.

(** ** The handlers *)

(** The largest upload multer accepts: [fileSize: 10 * 1024 * 1024]. *)
Definition MAX_FILE_SIZE : Z := 10 * 1024 * 1024.

Definition bad_request (msg : string) : response := mk_res 400 (JObj [("error", JStr (lit msg))]).

(** [validateUserId]: [req.params.userId || req.body.userId]. *)
Definition validateUserId (userId : string) (body : metadata) : bool :=
  str_truthy (lit userId) || truthy (assoc_last body "userId").

(** [req.body.k || dflt] *)
Definition field_or (body : metadata) (k : string) (dflt : string) : json :=
  let v := assoc_last body k in
  match v with Some x => if truthy v then x else JStr (lit dflt) | None => JStr (lit dflt) end.

Section handlers.
Context {St : Type} `{VectorStore St}.
Abbreviation W := (world St).
(** [new Date().toISOString()] of the clock. *)
Variable toISOString : nat → text.
(** [error.message] of the exceptions the libraries throw (node-fetch,
    the JSON parser, the Pinecone client, a [TypeError]). *)
Variable lib_message : js_error → text.

(** [error.message] *)
Definition error_message (e : js_error) : text :=
  match e with
  | HttpError s => lit "HTTP error! status: " ++ Z_to_text s
  | InvalidEmbeddingFormat => lit "Invalid embedding format received from Ollama"
  | PdfProcessingFailed => lit "Failed to process PDF file"
  | IndexNotReady n => lit "Index rag-docs-llama not ready after " ++ nat_to_text n ++ lit " attempts"
  | _ => lib_message e
  end.

(** [res.status(500).json({ error: label, details: error.message })] *)
Definition fail_labelled (label : string) (e : js_error) : response :=
  mk_res 500 (JObj [("error", JStr (lit label)); ("details", JStr (error_message e))]).

(** [res.status(500).json({ error: error.message })] *)
Definition fail_plain (e : js_error) : response :=
  mk_res 500 (JObj [("error", JStr (error_message e))]).

(** [try { const result = await m; res.json(result); } catch (error) { ... }] *)
Definition respond {A} (m : M W A) (to_json : A → json) (on_error : js_error → response) : M W response :=
  catch (let* a := m in ret (mk_res 200 (to_json a))) (λ e, ret (on_error e)).

(** The body of the two upload handlers, after multer: the metadata
    object and the call into rag.js. *)
Definition upload_metadata (body : metadata) (extra : metadata) (f : upload) (now_ms : nat) : metadata :=
  [("title", field_or body "title" "Untitled Document");
   ("author", field_or body "author" "Unknown Author")] ++ extra ++
  [("filename", JStr (lit (file_originalname f))); ("filesize", JNum (file_size f));
   ("uploadDate", JStr (toISOString now_ms))].

(** multer's [upload.single(name)] in front of a handler: a file over the
    limit is passed to Express's default error handler, which answers 500
    with an HTML page (its body is not JSON: [JNull] here). *)
Definition with_upload (file : option upload) (missing : string) (k : upload → M W response) : M W response :=
  match file with
  | Some f => if (MAX_FILE_SIZE <? file_size f)%Z then ret (mk_res 500 JNull) else k f
  | None => ret (bad_request missing)
  end.

(** The handler of each route, behind [validateUserId]. *)
Definition route (r : request) : M W response :=
  match r with
  | GetHealth => ret (mk_res 200 (JObj [("status", JStr (lit "ok"))]))
  | PostUser u _ => respond (createUserIndex u) op_json (fail_labelled "Failed to create user index")
  | DeleteUser u _ => respond (deleteUserIndex u) op_json (fail_labelled "Failed to delete user index")
  | PostDocuments u body =>
      match assoc_last body "documents" with
      | Some (JArr documents) =>
          respond (addDocuments toISOString u documents []) (λ rs, JArr (map add_json rs)) fail_plain
      | _ => ret (bad_request "Documents must be an array of strings")
      end
  | PostPdf u body file =>
      with_upload file "No PDF file uploaded" (λ f,
        respond (let* t := now in
                 addPdfDocument toISOString u (file_buffer f) (upload_metadata body [] f t))
          add_json fail_plain)
  | PostTxt u body file =>
      with_upload file "No TXT file uploaded" (λ f,
        respond (let* t := now in
                 addDocument toISOString u (file_buffer f)
                   (upload_metadata body [("documentType", JStr (lit "txt"))] f t))
          add_json fail_plain)
  | DeleteDocuments u _ => respond (clearIndex u) op_json (fail_labelled "Failed to clear documents")
  | PostAsk u body =>
      match assoc_last body "question" with
      | Some q => if truthy (Some q)
                  then respond (askQuestion u q true) answer_json (fail_labelled "Failed to process question")
                  else ret (bad_request "Question is required")
      | None => ret (bad_request "Question is required")
      end
  end.

(** A request through its middleware and handler. *)
Definition handle (r : request) : M W response :=
  match r with
  | GetHealth => route r
  | PostUser u body | DeleteUser u body | PostDocuments u body | PostPdf u body _
  | PostTxt u body _ | DeleteDocuments u body | PostAsk u body =>
      if validateUserId u body then route r else ret (bad_request "User ID is required")
  end.

(** The server answers a sequence of requests, one after the other. *)
Fixpoint serve (rs : list request) : M W (list response) :=
  match rs with
  | [] => ret []
  | r :: rs' => let* a := handle r in let* b := serve rs' in ret (a :: b)
  end.
End handlers.

(** ** Every handler moves the world only through rag.js *)

Section server_evolution.
Context {St : Type} `{VectorStore St} (R : relation (world St)) `{!PreOrder R}.
Context (toISOString : nat → text) (lib_message : js_error → text) (userId : string).
Hypothesis Hfetch : ∀ req, evolves R (fetch_ollama req).
Hypothesis Hnow : evolves R now.
Hypothesis Hupsert : ∀ r, evolves R (store_upsert userId r).
Hypothesis Hquery : ∀ v k, evolves R (store_query userId v k).
Hypothesis Hdelete : evolves R (store_deleteAll userId).
Hypothesis Hdescribe : evolves R describeIndex.
Hypothesis Hcreate : ∀ d, evolves R (createIndex d).
Hypothesis Hsleep : ∀ ms, evolves R (sleep ms).

Lemma handle_evolves r :
  request_user r = Some userId → evolves R (handle toISOString lib_message r).
Proof.
  intros Hu. destruct r; cbn in Hu; simplify_eq; cbn; unfold respond, with_upload; solve_evolves.
Qed.
End server_evolution.

(** ** Properties *)

Section properties.
Context {St : Type} `{VectorStoreLaws St} (toISOString : nat → text) (lib_message : js_error → text).
Implicit Types (w : world St).

Lemma respond_run {A} (m : M (world St) A) f g w :
  respond m f g w = match m w with (inr a, w') => (inr (mk_res 200 (f a)), w') | (inl e, w') => (inr (g e), w') end.
Proof. unfold respond, catch, bind. by destruct (m w) as [[e|a] w']. Qed.

(** One request for a tenant other than [ns] leaves [ns] alone. *)
Lemma handle_ns (ns : string) (r : request) :
  request_user r ≠ Some ns → evolves (ns_unchanged ns) (handle (St:=St) toISOString lib_message r).
Proof.
  intros Hne. destruct (request_user r) as [u|] eqn:Hu.
  - assert (ns ≠ u) by congruence. apply (handle_evolves _ _ _ u); eauto with rag typeclass_instances.
  - destruct r; try discriminate. apply evolves_ret. apply _.
Qed.

Lemma serve_ns (ns : string) (rs : list request) :
  Forall (λ r, request_user r ≠ Some ns) rs → evolves (ns_unchanged ns) (serve (St:=St) toISOString lib_message rs).
Proof.
  induction rs as [|r rs IH]; intros Hr; cbn; [apply evolves_ret; apply _|].
  apply Forall_cons in Hr as [Hr Hrs].
  apply (evolves_bind _); [by apply handle_ns|intros ?].
  apply (evolves_bind _); [by apply IH|intros ?; apply evolves_ret; apply _].
Qed.

(** C5. Tenant isolation: serving any sequence of requests, none of them
    for tenant [ns], leaves the records of namespace [ns] as they were,
    whatever the handlers answer and whatever the services do. *)
Theorem serve_isolation (ns : string) (rs : list request) w res w' :
  Forall (λ r, request_user r ≠ Some ns) rs →
  serve toISOString lib_message rs w = (res, w') →
  vs_records (w_store w') ns = vs_records (w_store w) ns.
Proof. intros Hr Hrun. exact (serve_ns ns rs Hr w res w' Hrun). Qed.

(** C6. No cross-tenant leak: after any sequence of requests of tenants
    other than [B], every document that retrieval in [B]'s namespace
    returns is a record [B]'s namespace held before the sequence. *)
Theorem no_cross_tenant_leak (B : string) rs q k w res w1 docs w2 :
  Forall (λ r, request_user r ≠ Some B) rs →
  serve toISOString lib_message rs w = (res, w1) →
  findSimilarDocuments B q k w1 = (inr docs, w2) →
  ∀ d, d ∈ docs → ∃ id r, vs_records (w_store w) B !! id = Some r ∧ doc_metadata d = rec_metadata r.
Proof.
  intros Hr Hrun Hfind d Hd.
  pose proof (serve_ns B rs Hr w res w1 Hrun) as Hiso. unfold ns_unchanged in Hiso.
  destruct (findSimilarDocuments_from B q k w1 docs w2 Hfind d Hd) as (id & r & Hlook & Hmd & _).
  rewrite Hiso in Hlook. eauto.
Qed.

(** The answer of [try { const result = await m; res.json(result); }
    catch (error) { res.status(500).json(g(error)) }]: 200 with the JSON
    of what [m] returned, or [g e] for the exception [e] it threw, in the
    world [m] left. *)
Definition outcome {A} (m : M (world St) A) (f : A → json) (g : js_error → response)
    w (resp : response) w' : Prop :=
  (∃ a, m w = (inr a, w') ∧ resp = mk_res 200 (f a)) ∨ (∃ e, m w = (inl e, w') ∧ resp = g e).

Lemma respond_outcome {A} (m : M (world St) A) f g w :
  ∃ resp w', respond m f g w = (inr resp, w') ∧ outcome m f g w resp w'.
Proof. rewrite respond_run. unfold outcome. destruct (m w) as [[e|a] w']; eauto 10. Qed.

Lemma validateUserId_path (u : string) body : u ≠ ""%string → validateUserId u body = true.
Proof. intros Hu. unfold validateUserId. destruct u; [done|]. by rewrite str_truthy_ne. Qed.

(** C25. Every handler answers (its promise never rejects), and what it
    answers is fixed route by route: the 400 of each check, made before
    any call and leaving the world as it was; multer's 500 for a file
    over 10 MB; otherwise 200 with the JSON of what the rag.js call
    returned, or the route's 500 body with the message of the exception
    it threw. *)
Theorem handle_responds r w :
  (∀ u, request_user r = Some u → u ≠ ""%string) →
  ∃ resp w', handle toISOString lib_message r w = (inr resp, w') ∧
  match r with
  | GetHealth => resp = mk_res 200 (JObj [("status", JStr (lit "ok"))]) ∧ w' = w
  | PostUser u _ => outcome (createUserIndex u) op_json (fail_labelled lib_message "Failed to create user index") w resp w'
  | DeleteUser u _ => outcome (deleteUserIndex u) op_json (fail_labelled lib_message "Failed to delete user index") w resp w'
  | DeleteDocuments u _ => outcome (clearIndex u) op_json (fail_labelled lib_message "Failed to clear documents") w resp w'
  | PostDocuments u body =>
      (∃ ds, assoc_last body "documents" = Some (JArr ds) ∧
         outcome (addDocuments toISOString u ds []) (λ rs, JArr (map add_json rs)) (fail_plain lib_message)
           w resp w')
      ∨ ((∀ ds, assoc_last body "documents" ≠ Some (JArr ds)) ∧
         resp = bad_request "Documents must be an array of strings" ∧ w' = w)
  | PostPdf u body file =>
      (file = None ∧ resp = bad_request "No PDF file uploaded" ∧ w' = w)
      ∨ (∃ f, file = Some f ∧ (MAX_FILE_SIZE < file_size f)%Z ∧ resp = mk_res 500 JNull ∧ w' = w)
      ∨ (∃ f, file = Some f ∧ (file_size f ≤ MAX_FILE_SIZE)%Z ∧
           outcome (let* t := now in addPdfDocument toISOString u (file_buffer f) (upload_metadata toISOString body [] f t))
             add_json (fail_plain lib_message) w resp w')
  | PostTxt u body file =>
      (file = None ∧ resp = bad_request "No TXT file uploaded" ∧ w' = w)
      ∨ (∃ f, file = Some f ∧ (MAX_FILE_SIZE < file_size f)%Z ∧ resp = mk_res 500 JNull ∧ w' = w)
      ∨ (∃ f, file = Some f ∧ (file_size f ≤ MAX_FILE_SIZE)%Z ∧
           outcome (let* t := now in addDocument toISOString u (file_buffer f)
                      (upload_metadata toISOString body [("documentType", JStr (lit "txt"))] f t))
             add_json (fail_plain lib_message) w resp w')
  | PostAsk u body =>
      (∃ q, assoc_last body "question" = Some q ∧ truthy (Some q) = true ∧
         outcome (askQuestion u q true) answer_json (fail_labelled lib_message "Failed to process question") w resp w')
      ∨ (truthy (assoc_last body "question") = false ∧ resp = bad_request "Question is required" ∧ w' = w)
  end.
Proof.
  intros Hu. destruct r; cbn [handle];
    rewrite ?validateUserId_path by (apply Hu; done); cbn [route]; unfold with_upload.
  all: repeat case_match; simplify_eq;
    try (match goal with |- context [respond ?m ?f ?g ?w0] =>
           destruct (respond_outcome m f g w0) as (resp & w1 & Hr & Ho); rewrite Hr end; eauto 10);
    eauto 10 with lia.
  all: try (do 2 eexists; split; [reflexivity|]; right; split_and!; [|done..]; intros ds Hds; congruence).
  all: do 2 eexists; (split; [reflexivity|]); eauto 10 with lia.
Qed.
(** [addDocuments] rejects as soon as an element is not a string, if no
    string before it failed first. *)
Lemma addDocuments_non_string u ds md w :
  (∃ d, d ∈ ds ∧ ∀ t, d ≠ JStr t) → ∃ e w', addDocuments toISOString u ds md w = (inl e, w').
Proof.
  unfold addDocuments. generalize 0. revert w.
  induction ds as [|d ds IH]; intros w i (x & Hx & Hnot); [by apply elem_of_nil in Hx|].
  cbn [mapM_i]. rewrite run_bind. destruct d as [|?|?|t|?|?]; try (cbn; by eauto).
  destruct (addDocument _ _ _ _ w) as [[e|a] w1]; [by eauto|].
  apply elem_of_cons in Hx as [->|Hx]; [by destruct (Hnot t)|].
  destruct (IH w1 (S i)) as (e & w2 & Hr); [by eauto|]. unfold bind. rewrite Hr. by eauto.
Qed.

(** C26. For a [documents] array the route never answers the 400
    "Documents must be an array of strings": when an element is not a
    string, the answer is the 500 [{error: error.message}] of the
    exception [addDocuments] threw, after the strings before it were
    processed. *)
Theorem documents_not_strings u body ds w :
  u ≠ ""%string → assoc_last body "documents" = Some (JArr ds) → (∃ d, d ∈ ds ∧ ∀ t, d ≠ JStr t) →
  ∃ e w', handle toISOString lib_message (PostDocuments u body) w = (inr (fail_plain lib_message e), w')
        ∧ addDocuments toISOString u ds [] w = (inl e, w').
Proof.
  intros Hu Hds Hnot. cbn [handle]. rewrite validateUserId_path by done. cbn [route]. rewrite Hds.
  destruct (addDocuments_non_string u ds [] w Hnot) as (e & w' & Hrun).
  rewrite respond_run, Hrun. eauto.
Qed.

End properties.

(** ** Witnesses, on the Pinecone model *)

Section witnesses.
Import PineconeModel.

Abbreviation demo_w := (example_world 2 IndexReady 0 0 embed_len).
Definition no_message : js_error → text := λ _, [].
Definition alice_upload : request :=
  PostDocuments "alice" [("documents", JArr [JStr (lit "Hello world.")])].

Lemma serve_isolation_witness :
  Forall (λ r, request_user r ≠ Some "bob") [alice_upload] ∧
  vs_records (w_store (serve nat_to_text no_message [alice_upload] demo_w).2) "bob"
  = vs_records (w_store demo_w) "bob".
Proof.
  assert (Hr : Forall (λ r, request_user r ≠ Some "bob") [alice_upload]) by (repeat constructor; discriminate).
  split; [exact Hr|].
  exact (serve_isolation nat_to_text no_message "bob" [alice_upload] demo_w _ _ Hr (surjective_pairing _)).
Defined.

Lemma no_cross_tenant_leak_witness :
  let p := serve nat_to_text no_message [alice_upload] demo_w in
  Forall (λ r, request_user r ≠ Some "bob") [alice_upload] ∧
  findSimilarDocuments "bob" (JStr (lit "Hello")) 3 p.2
    = (inr [], (findSimilarDocuments "bob" (JStr (lit "Hello")) 3 p.2).2) ∧
  ∀ d, d ∈ ([] : list similar_doc) →
    ∃ id r, vs_records (w_store demo_w) "bob" !! id = Some r ∧ doc_metadata d = rec_metadata r.
Proof.
  intros p. assert (Hr : Forall (λ r, request_user r ≠ Some "bob") [alice_upload])
    by (repeat constructor; discriminate).
  assert (Hf : findSimilarDocuments "bob" (JStr (lit "Hello")) 3 p.2
               = (inr [], (findSimilarDocuments "bob" (JStr (lit "Hello")) 3 p.2).2)) by (vm_compute; reflexivity).
  split_and!; [exact Hr|exact Hf|].
  exact (no_cross_tenant_leak nat_to_text no_message "bob" [alice_upload] (JStr (lit "Hello")) 3 demo_w
           p.1 p.2 [] _ Hr (surjective_pairing _) Hf).
Defined.

Lemma handle_responds_witness :
  ∃ resp w', handle nat_to_text no_message alice_upload demo_w = (inr resp, w').
Proof.
  assert (Hu : ∀ u, request_user alice_upload = Some u → u ≠ ""%string) by (intros u [= <-]; discriminate).
  destruct (handle_responds nat_to_text no_message alice_upload demo_w Hu) as (resp & w' & Hr & _).
  eauto.
Defined.

Definition mixed_body : metadata := [("documents", JArr [JStr (lit "Hello world."); JNum 7])].

Lemma documents_not_strings_witness :
  ∃ e w', handle nat_to_text no_message (PostDocuments "alice" mixed_body) demo_w
          = (inr (fail_plain no_message e), w').
Proof.
  assert (Hnot : ∃ d, d ∈ [JStr (lit "Hello world."); JNum 7] ∧ ∀ t, d ≠ JStr t).
  { exists (JNum 7). split; [right; left|by intros t]. }
  destruct (documents_not_strings nat_to_text no_message "alice" mixed_body _ demo_w
              ltac:(discriminate) eq_refl Hnot) as (e & w' & Hr & _).
  eauto.
Defined.

End witnesses.

End Server.
